(** * gwdetchar.omega.html: Omega scan HTML pages

    A shallow embedding of [gwdetchar/omega/html.py] and the properties of
    its page assembly: the static asset registry, the page shell and its
    closer, the [wrap_html] decorator, the summary table, the plot grid and
    the plot/caption value class.

    Conventions of the embedding.
    - Python [str] is [string]; a list of [str] is [list string].
    - A [float] GPS time enters the pages only through ["%s" % gpstime] and
      through the external [tconvert]; it is carried as its printed form.
    - The module-level lists [CSS_FILES] and [JS_FILES], the file system and
      the log of files opened for writing form the mutable [world]; code
      that touches them lives in the state-and-exception monad [M].
    - Collaborators outside the module (the user name, the clock, the
      package version, [sys.argv], [tconvert], the [highlight] subprocess,
      file permissions) are the read-only record [env].
    - [glue.markup] is an external library: a page is the list of items
      appended to it, serialised by [markup.str]. *)

From Stdlib Require Import ZArith String Ascii List Lia ZifyNat PrimFloat.
From stdpp Require Import base option list strings gmap pretty.

(** ** Python strings *)

Module str.

(** The double-quote, newline and tab characters. *)
Definition dq : string := String (ascii_of_nat 34) EmptyString.
Definition nl : string := String (ascii_of_nat 10) EmptyString.
Definition tab : string := String (ascii_of_nat 9) EmptyString.

(** [s.endswith(suffix)] *)
Fixpoint endswith (s suffix : string) : bool :=
  if bool_decide (s = suffix) then true
  else match s with
       | EmptyString => false
       | String _ r => endswith r suffix
       end.

(** [sep.join(parts)] *)
Fixpoint join (sep : string) (parts : list string) : string :=
  match parts with
  | [] => EmptyString
  | [x] => x
  | x :: rest => x +:+ sep +:+ join sep rest
  end.

(** [s[:-n]] for a positive literal [n] *)
Definition drop_last (n : nat) (s : string) : string :=
  String.substring 0 (String.length s - n) s.

(** [sub in s] *)
Fixpoint contains (s sub : string) : bool :=
  if String.prefix sub s then true
  else match s with
       | EmptyString => false
       | String _ r => contains r sub
       end.

(** Truthiness of a string: [bool(s)]. *)
Definition truthy (s : string) : bool :=
  match s with EmptyString => false | _ => true end.

End str.

(** ** [os.path] on POSIX *)

Module posixpath.

Definition curdir : string := ".".
Definition pardir : string := "..".

Definition startswith_sep (p : string) : bool :=
  match p with
  | String c _ => bool_decide (c = "/"%char)
  | EmptyString => false
  end.

(** [p[i:]] scanned left to right, [cur] being the text after the last
    separator met so far. *)
Fixpoint after_last_sep (p cur : string) : string :=
  match p with
  | EmptyString => cur
  | String c r =>
      if bool_decide (c = "/"%char) then after_last_sep r r
      else after_last_sep r cur
  end.

(** [os.path.basename(p)]: [i = p.rfind('/') + 1; return p[i:]] *)
Definition basename (p : string) : string := after_last_sep p p.

(** [os.path.join(a, b)] *)
Definition join (a b : string) : string :=
  if startswith_sep b then b
  else if negb (str.truthy a) || str.endswith a "/" then a +:+ b
  else a +:+ "/" +:+ b.

End posixpath.


(** ** The [glue.markup] page builder (external library)

    [page.tag(k=v, ...)] appends an opening tag, [page.tag(text, k=v, ...)] a
    whole element, [page.tag.close()] a closing tag and [page.add(text)] a
    raw fragment.  Keyword arguments are kept in the order the source
    writes them.  The check of tag names against the HTML 4 tables of the
    library is not part of this model. *)

Module markup.

Definition attrs : Type := list (string * string).

Inductive item : Type :=
| Open (tag : string) (kw : attrs)
| Elem (tag : string) (kw : attrs) (between : string)
| Single (tag : string) (kw : attrs)
| Close (tag : string)
| Text (text : string).

Record page : Type := Page {
  header : list string;
  content : list item;
  footer : list string;
  _full : bool
}.

(** [markup.page()] *)
Definition new : page := Page [] [] [] false.

Definition escape_char (c : ascii) : string :=
  if bool_decide (c = "&"%char) then "&amp;"
  else if bool_decide (c = ">"%char) then "&gt;"
  else if bool_decide (c = "<"%char) then "&lt;"
  else if bool_decide (c = ascii_of_nat 34) then "&quot;"
  else if bool_decide (c = "'"%char) then "&quot;"
  else String c EmptyString.

Fixpoint escape (s : string) : string :=
  match s with
  | EmptyString => EmptyString
  | String c r => escape_char c +:+ escape r
  end.

Fixpoint lstrip_ (s : string) : string :=
  match s with
  | String c r => if bool_decide (c = "_"%char) then lstrip_ r else s
  | EmptyString => EmptyString
  end.

Fixpoint rstrip_ (s : string) : string :=
  match s with
  | EmptyString => EmptyString
  | String c r =>
      let r' := rstrip_ r in
      if bool_decide (c = "_"%char) && negb (str.truthy r') then EmptyString
      else String c r'
  end.

(** [key.strip('_')] and the two special cases of [element.render] *)
Definition attr_name (key : string) : string :=
  let key := rstrip_ (lstrip_ key) in
  if bool_decide (key = "http_equiv") then "http-equiv"
  else if bool_decide (key = "accept_charset") then "accept-charset"
  else key.

Definition render_head (tag : string) (kw : attrs) : string :=
  fold_left
    (fun out kv =>
       out +:+ " " +:+ attr_name kv.1 +:+ "=" +:+ str.dq +:+ escape kv.2 +:+ str.dq)
    kw ("<" +:+ tag).

(** [element.render(tag, single, between, kwargs)] *)
Definition render (tag : string) (single : bool) (between : option string)
    (kw : attrs) : string :=
  let out := render_head tag kw in
  match between with
  | Some text => out +:+ ">" +:+ text +:+ "</" +:+ tag +:+ ">"
  | None => if single then out +:+ " />" else out +:+ ">"
  end.

Definition render_item (it : item) : string :=
  match it with
  | Open tag kw => render tag false None kw
  | Elem tag kw between => render tag false (Some between) kw
  | Single tag kw => render tag true None kw
  | Close tag => "</" +:+ tag +:+ ">"
  | Text text => text
  end.

Definition append (it : item) (p : page) : page :=
  Page (header p) (content p ++ [it]) (footer p) (_full p).

Definition open (tag : string) (kw : attrs) : page -> page := append (Open tag kw).
Definition elem (tag : string) (kw : attrs) (between : string) : page -> page :=
  append (Elem tag kw between).
Definition single (tag : string) (kw : attrs) : page -> page := append (Single tag kw).
Definition close (tag : string) : page -> page := append (Close tag).
Definition add (text : string) : page -> page := append (Text text).

Definition header_append (line : string) (p : page) : page :=
  Page (header p ++ [line]) (content p) (footer p) (_full p).

Definition set_full (b : bool) (p : page) : page :=
  Page (header p) (content p) (footer p) b.

(** [page.__str__]: a page marked as a full document gets its closing
    [body] and [html] tags from the serialiser. *)
Definition str (p : page) : string :=
  let tail := if _full p then ["</body>"; "</html>"] else [] in
  str.join str.nl (header p ++ map render_item (content p) ++ footer p ++ tail).

(** [markup.oneliner.tag(text, k=v, ...)] *)
Definition oneliner (tag : string) (between : string) (kw : attrs) : string :=
  render tag false (Some between) kw.

End markup.

(** [dict.update] on keyword dictionaries kept as association lists: an
    existing key keeps its place, a new key goes last. *)
Fixpoint dict_set (k v : string) (d : markup.attrs) : markup.attrs :=
  match d with
  | [] => [(k, v)]
  | (k', v') :: rest =>
      if bool_decide (k' = k) then (k, v) :: rest else (k', v') :: dict_set k v rest
  end.

Definition dict_update (d new : markup.attrs) : markup.attrs :=
  fold_left (fun d kv => dict_set kv.1 kv.2 d) new d.

(** ** Exceptions, the process state and the environment *)

Inductive exn : Type :=
| OSError (what : string)
| KeyError (key : string)
| UnboundLocalError (var : string)
| ZeroDivisionError
| RecursionError
| OtherError (what : string).

Inductive result (A : Type) : Type :=
| Ok (a : A)
| Raise (e : exn).

Arguments Ok {A} a.
Arguments Raise {A} e.

(** What [subprocess.Popen(...)] followed by [process.communicate()] does. *)
Inductive launch : Type :=
| LaunchRaises (e : exn)
| CommunicateRaises (e : exn)
| Communicated (returncode : Z) (out err : string).

(** The mutable state of the process: the file system, the two
    module-level registries and the log of paths opened for writing
    (oldest first). *)
Record world : Type := World {
  files : gmap string string;
  dirs : gset string;
  CSS_FILES : list string;
  JS_FILES : list string;
  written : list string
}.

(** The collaborators the module only reads. *)
Record env : Type := Env {
  may_write : string -> bool;
  may_mkdir : string -> bool;
  argv : list string;
  getuser : string;
  now : string;
  version : string;
  tconvert : string -> string;
  popen : list string -> launch
}.

Definition M (A : Type) : Type := world -> result A * world.

Definition ret {A : Type} (a : A) : M A := fun w => (Ok a, w).

Definition raise {A : Type} (e : exn) : M A := fun w => (Raise e, w).

Definition bind {A B : Type} (m : M A) (k : A -> M B) : M B :=
  fun w =>
    match m w with
    | (Ok a, w') => k a w'
    | (Raise e, w') => (Raise e, w')
    end.

Notation "'let*' x := m 'in' k" := (bind m (fun x => k))
  (at level 10, x pattern, m at level 100, k at level 200).
Notation "m >> k" := (bind m (fun _ => k))
  (at level 100, k at level 200, right associativity).

(** A computation that only reads the state. *)
Definition reader (A : Type) : Type := world -> result A.

Definition lift {A : Type} (r : reader A) : M A := fun w => (r w, w).

Definition when (b : bool) (m : M unit) : M unit := if b then m else ret tt.

(** [os.path.isdir(d)] *)
Definition isdir (d : string) : M bool :=
  fun w => (Ok (bool_decide (d ∈ dirs w)), w).

(** [os.makedirs(d)] *)
Definition makedirs (E : env) (d : string) : M unit :=
  fun w =>
    if may_mkdir E d
    then (Ok tt, World (files w) ({[d]} ∪ dirs w) (CSS_FILES w) (JS_FILES w) (written w))
    else (Raise (OSError d), w).

(** [open(path, 'w')]: the file is created or truncated. *)
Definition open_w (E : env) (path : string) : M unit :=
  fun w =>
    if may_write E path
    then (Ok tt, World (<[path := EmptyString]> (files w)) (dirs w)
                       (CSS_FILES w) (JS_FILES w) (written w ++ [path]))
    else (Raise (OSError path), w).

(** [f.write(data)] on the file opened at [path] *)
Definition fwrite (path data : string) : M unit :=
  fun w =>
    let old := default EmptyString (files w !! path) in
    (Ok tt, World (<[path := old +:+ data]> (files w)) (dirs w)
                  (CSS_FILES w) (JS_FILES w) (written w)).

(** [open(path, 'r').read()] *)
Definition open_read (path : string) : reader string :=
  fun w =>
    match files w !! path with
    | Some data => Ok data
    | None => Raise (OSError path)
    end.

Definition get_CSS_FILES : M (list string) := fun w => (Ok (CSS_FILES w), w).
Definition get_JS_FILES : M (list string) := fun w => (Ok (JS_FILES w), w).

(** [CSS_FILES.append(path)] *)
Definition CSS_FILES_append (path : string) : M unit :=
  fun w => (Ok tt, World (files w) (dirs w) (CSS_FILES w ++ [path]) (JS_FILES w) (written w)).

(** [JS_FILES.append(path)] *)
Definition JS_FILES_append (path : string) : M unit :=
  fun w => (Ok tt, World (files w) (dirs w) (CSS_FILES w) (JS_FILES w ++ [path]) (written w)).

(** ** Module constants *)

Definition OBSERVATORY_MAP : gmap string string :=
  <["G1" := "GEO"]> (<["H1" := "LIGO Hanford"]> (<["K1" := "KAGRA"]>
  (<["L1" := "LIGO Livingston"]> (<["V1" := "Virgo"]> ∅)))).

Definition FANCYBOX_CSS : string :=
  "//cdnjs.cloudflare.com/ajax/libs/fancybox/2.1.5/jquery.fancybox.min.css".
Definition FANCYBOX_JS : string :=
  "//cdnjs.cloudflare.com/ajax/libs/fancybox/2.1.5/jquery.fancybox.min.js".
Definition FONT_LATO_CSS : string :=
  "//fonts.googleapis.com/css?family=Lato:300,700".

Definition tabs : string := str.tab +:+ str.tab.

Definition OMEGA_CSS : string := Eval vm_compute in
  str.join str.nl [
    EmptyString;
    "html {";
    tabs +:+ "position: relative;";
    tabs +:+ "min-height: 100%;";
    "}";
    "body {";
    tabs +:+ "margin-bottom: 120px;";
    tabs +:+ "font-family: " +:+ str.dq +:+ "Lato" +:+ str.dq +:+ ", "
         +:+ str.dq +:+ "Helvetica Neue" +:+ str.dq
         +:+ ", Helvetica, Arial, sans-serif;";
    tabs +:+ "-webkit-font-smoothing: antialiased;";
    "}";
    ".with-margin {";
    tabs +:+ "margin-bottom: 15px;";
    "}";
    ".footer {";
    tabs +:+ "position: absolute;";
    tabs +:+ "bottom: 0;";
    tabs +:+ "width: 100%;";
    tabs +:+ "height: 100px;";
    tabs +:+ "background-color: #f5f5f5;";
    tabs +:+ "padding-top: 20px;";
    tabs +:+ "padding-bottom: 20px;";
    "}";
    ".fancybox-skin {";
    tabs +:+ "background: white;";
    "}";
    EmptyString ].

Definition OMEGA_JS : string := Eval vm_compute in
  str.join str.nl [
    EmptyString;
    "$(document).ready(function() {";
    str.tab +:+ "$(" +:+ str.dq +:+ ".fancybox" +:+ str.dq +:+ ").fancybox({";
    tabs +:+ "nextEffect: 'none',";
    tabs +:+ "prevEffect: 'none',";
    tabs +:+ "helpers: {title: {type: 'inside'}}";
    str.tab +:+ "});";
    "});";
    EmptyString ].

(** The registries as the module leaves them at import time.  The three
    constants imported from [gwdetchar.io.html] are parameters. *)
Definition initial_CSS_FILES (BOOTSTRAP_CSS : string) : list string :=
  [BOOTSTRAP_CSS; FANCYBOX_CSS; FONT_LATO_CSS].
Definition initial_JS_FILES (JQUERY_JS BOOTSTRAP_JS : string) : list string :=
  [JQUERY_JS; BOOTSTRAP_JS; FANCYBOX_JS].

(** ** Plot construction *)

Record FancyPlot : Type := mkFancyPlot {
  img : string;
  caption : string
}.

(** The [img] argument of the constructor: a file name or another plot. *)
Inductive img_arg : Type :=
| ImgStr (s : string)
| ImgPlot (p : FancyPlot).

(** [str(img)]; [FancyPlot.__str__] returns [self.img]. *)
Definition img_str (i : img_arg) : string :=
  match i with
  | ImgStr s => s
  | ImgPlot p => img p
  end.

(** Truthiness of an optional string: [None] and the empty string are false. *)
Definition truthy_opt (c : option string) : bool :=
  match c with
  | Some s => str.truthy s
  | None => false
  end.

(** [FancyPlot.__init__(self, img, caption=None)] *)
Definition FancyPlot_init (i : img_arg) (cap : option string) : FancyPlot :=
  let cap :=
    match i with
    | ImgPlot p => if truthy_opt cap then cap else Some (caption p)
    | ImgStr _ => cap
    end in
  let self_img := img_str i in
  mkFancyPlot self_img
    (match cap with
     | Some s => if str.truthy s then s else posixpath.basename self_img
     | None => posixpath.basename self_img
     end).

(** ** HTML construction *)

(** [write_static_files(static)] *)
Definition write_static_files (E : env) (static : string) : M (string * string) :=
  let* d := isdir static in
  when (negb d) (makedirs E static) >>
  let omegacss := posixpath.join static "omega.css" in
  let* css := get_CSS_FILES in
  when (negb (bool_decide (omegacss ∈ css)))
       (open_w E omegacss >> fwrite omegacss OMEGA_CSS >> CSS_FILES_append omegacss) >>
  let omegajs := posixpath.join static "omega.js" in
  let* js := get_JS_FILES in
  when (negb (bool_decide (omegajs ∈ js)))
       (open_w E omegajs >> fwrite omegajs OMEGA_JS >> JS_FILES_append omegajs) >>
  ret (omegacss, omegajs).

(** The loop shared by the stylesheet and the script lists of [init_page]:
    [for f in BASELINE[::-1]: b = basename(f);
     if not any(g.endswith(b) for g in given): given.insert(0, f)] *)
Definition link_step (given : list string) (f : string) : list string :=
  let b := posixpath.basename f in
  if existsb (fun g => str.endswith g b) given then given else f :: given.

Definition link_list (baseline given : list string) : list string :=
  fold_left link_step (rev baseline) given.

(** [init_page(ifo, gpstime, css, script, base, **kwargs)].  The loop
    over [kwargs] calls the attribute of the page that each key names; it
    is modelled for the keys that name an element, such as [title], where
    the call appends that element around the value. *)
Definition init_page (E : env) (ifo gpstime : string) (css script : list string)
    (base : string) (kwargs : markup.attrs) : M markup.page :=
  let staticdir := posixpath.join posixpath.curdir "static" in
  write_static_files E staticdir >>
  let page := markup.new in
  let page := markup.header_append "<!DOCTYPE HTML>" page in
  let page := markup.open "html" [("lang", "en")] page in
  let page := markup.open "head" [] page in
  let page := markup.single "base" [("href", base)] page in
  let page := markup.set_full true page in
  let* CSS := get_CSS_FILES in
  let css := link_list CSS css in
  let page :=
    fold_left (fun page f =>
      markup.single "link" [("href", f); ("rel", "stylesheet");
                            ("type", "text/css"); ("media", "all")] page) css page in
  let* JS := get_JS_FILES in
  let script := link_list JS script in
  let page :=
    fold_left (fun page f =>
      markup.elem "script" [("src", f); ("type", "text/javascript")] EmptyString page)
      script page in
  let page :=
    fold_left (fun page kv => markup.elem kv.1 [] kv.2 page) kwargs page in
  let page := markup.close "head" page in
  let page := markup.open "body" [] page in
  let page := markup.open "div" [("class_", "container")] page in
  let page := markup.open "div" [("class_", "page-header"); ("role", "banner")] page in
  let page := markup.elem "h1" [] (ifo +:+ " Omega Scan") page in
  let page := markup.elem "h2" [] gpstime page in
  let page := markup.close "div" page in
  let page := markup.close "div" page in
  let page := markup.open "div" [("class_", "container")] page in
  ret page.

(** [write_footer(about=None, date=None)] *)
Definition write_footer (E : env) (about date : option string) : markup.page :=
  let page := markup.new in
  let page := markup.open "footer" [("class_", "footer")] page in
  let page := markup.open "div" [("class_", "container")] page in
  let date := default (now E) date in
  let url := "https://github.com/ligovirgo/gwdetchar" in
  let hlink := markup.oneliner "a" ("GW-DetChar version " +:+ version E)
                 [("href", url); ("target", "_blank")] in
  let page := markup.elem "p" []
    ("Page generated using " +:+ hlink +:+ " by " +:+ getuser E +:+ " at " +:+ date)
    page in
  let page :=
    match about with
    | Some href => markup.elem "a" [("href", href)] "How was this page generated?" page
    | None => page
    end in
  let page := markup.close "div" page in
  let page := markup.close "footer" page in
  page.

(** [close_page(page, target, about=None, date=None)] *)
Definition close_page (E : env) (page : markup.page) (target : string)
    (about date : option string) : M markup.page :=
  let page := markup.close "div" page in
  let page := markup.add (markup.str (write_footer E about date)) page in
  let page :=
    if negb (markup._full page)
    then markup.close "html" (markup.close "body" page)
    else page in
  open_w E target >>
  fwrite target (markup.str page) >>
  ret page.

(** ** Utilities *)

(** [fancybox_img(img, linkparams=dict(), **params)] *)
Definition fancybox_img (p : FancyPlot) (linkparams params : markup.attrs) : string :=
  let page := markup.new in
  let aparams := [("title", caption p); ("class_", "fancybox"); ("target", "_blank");
                  ("data-fancybox-group", "qscan-image")] in
  let aparams := dict_update aparams linkparams in
  let img := img p in
  let page := markup.open "a" (("href", img) :: aparams) page in
  let imgparams := [("alt", posixpath.basename img); ("class_", "img-responsive")] in
  let imgparams := dict_set "src" img imgparams in
  let imgparams := dict_update imgparams params in
  let page := markup.single "img" imgparams page in
  let page := markup.close "a" page in
  markup.str page.

(** The state of the loop of [scaffold_plots]: the page and the loop
    variable [i], unbound until the first iteration. *)
Definition scaffold_state : Type := markup.page * option Z.

Definition row_div : markup.item :=
  markup.Open "div" [("class_", "row"); ("style", "width:96%;")].

Definition col_div (x : Z) : markup.item :=
  markup.Open "div" [("class_", "col-sm-" +:+ pretty x)].

(** One iteration of [for i, p in enumerate(plots)]. *)
Definition scaffold_iter (nperrow x : Z) (st : scaffold_state) (ip : Z * FancyPlot)
    : scaffold_state :=
  let page := st.1 in
  let i := ip.1 in
  let p := ip.2 in
  let page :=
    if bool_decide (i `mod` nperrow = 0)%Z then markup.append row_div page else page in
  let page := markup.append (col_div x) page in
  let page := markup.add (fancybox_img p [] []) page in
  let page := markup.close "div" page in
  let page :=
    if bool_decide (i `mod` nperrow = nperrow - 1)%Z then markup.close "div" page
    else page in
  (page, Some i).

(** [enumerate(plots)] *)
Definition enumerate {A : Type} (l : list A) : list (Z * A) :=
  imap (fun i a => (Z.of_nat i, a)) l.

(** The page [scaffold_plots] builds, before it is serialised. *)
Definition scaffold_page (plots : list FancyPlot) (nperrow : Z) : result markup.page :=
  if bool_decide (nperrow = 0)%Z then Raise ZeroDivisionError
  else
    let x := (12 `div` nperrow)%Z in
    let st := fold_left (scaffold_iter nperrow x) (enumerate plots) (markup.new, None) in
    match st.2 with
    | None => Raise (UnboundLocalError "i")
    | Some i =>
        Ok (if bool_decide (i `mod` nperrow < nperrow - 1)%Z
            then markup.close "div" st.1 else st.1)
    end.

(** [scaffold_plots(plots, nperrow=3)] *)
Definition scaffold_plots (plots : list FancyPlot) (nperrow : Z) : result string :=
  match scaffold_page plots nperrow with
  | Ok page => Ok (markup.str page)
  | Raise e => Raise e
  end.

(** [write_config_html(filepath, format='ini')] *)
Definition write_config_html (E : env) (filepath format : string) : reader string :=
  fun w =>
    let highlight := ["highlight"; "--out-format"; "html"; "--syntax"; format;
                      "--inline-css"; "--fragment"; "--input"; filepath] in
    match popen E highlight with
    | LaunchRaises (OSError _) => open_read filepath w
    | LaunchRaises e => Raise e
    | CommunicateRaises e => Raise e
    | Communicated returncode out err =>
        if bool_decide (returncode ≠ 0%Z) then open_read filepath w else Ok out
    end.

(** ** Qscan HTML *)

Definition summary_text : string :=
  "This page shows time-frequency maps of a user-configured list of "
  +:+ "channels for a given interferometer and GPS time. Time-frequency "
  +:+ "maps are computed using the <a "
  +:+ "href=" +:+ str.dq +:+ "https://gwpy.github.io/docs/stable/examples/timeseries/"
  +:+ "qscan.html" +:+ str.dq +:+ " target=" +:+ str.dq +:+ "_blank" +:+ str.dq
  +:+ ">Q-transform</a>.".

Definition default_header : string := "Analysis Summary".
Definition default_tableclass : string :=
  "table table-condensed table-hover table-responsive".

(** The page [write_summary] builds, before it is serialised. *)
Definition summary_page (E : env) (ifo gpstime header tableclass : string)
    : result markup.page :=
  let utc := tconvert E gpstime in
  let page := markup.new in
  let page := markup.elem "h2" [] header page in
  let page := markup.elem "p" [("style", "font-size:18px;")] summary_text page in
  let page := markup.open "table" [("class_", tableclass); ("style", "font-size:18px;")]
                page in
  let page := markup.elem "caption" []
                "This analysis is based on the following run arguments." page in
  let page := markup.open "tbody" [] page in
  let page := markup.open "tr" [] page in
  let page := markup.elem "td" [] "<b>Interferometer</b>" page in
  match OBSERVATORY_MAP !! ifo with
  | None => Raise (KeyError ifo)
  | Some name =>
      let page := markup.elem "td" [] (name +:+ " (" +:+ ifo +:+ ")") page in
      let page := markup.close "tr" page in
      let page := markup.open "tr" [] page in
      let page := markup.elem "td" [] "<b>UTC Time</b>" page in
      let page := markup.elem "td" [] utc page in
      let page := markup.close "tr" page in
      let page := markup.close "tbody" page in
      let page := markup.close "table" page in
      Ok page
  end.

(** [write_summary(ifo, gpstime, header=..., tableclass=...)] *)
Definition write_summary (E : env) (ifo gpstime header tableclass : string)
    : result string :=
  match summary_page E ifo gpstime header tableclass with
  | Ok page => Ok (markup.str page)
  | Raise e => Raise e
  end.

(** The body of [write_null_page(reason, context='info')] *)
Definition null_body (reason context : string) : markup.page :=
  let page := markup.new in
  let page := markup.open "div" [("class_", "alert alert-" +:+ context)] page in
  let page := markup.elem "p" [] reason page in
  let page := markup.close "div" page in
  page.

(** [for configfile in configfiles: page.pre(write_config_html(configfile))] *)
Fixpoint embed_configs (E : env) (configfiles : list string) (page : markup.page)
    : reader markup.page :=
  fun w =>
    match configfiles with
    | [] => Ok page
    | configfile :: rest =>
        match write_config_html E configfile "ini" w with
        | Ok html => embed_configs E rest (markup.elem "pre" [] html page) w
        | Raise e => Raise e
        end
    end.

(** The body of [write_about_page(configfiles)] *)
Definition about_body (E : env) (configfiles : list string) : reader markup.page :=
  fun w =>
    let page := markup.new in
    let page := markup.elem "h2" [] "On the command line" page in
    let page := markup.elem "p" []
      "This page was generated with the command line call shown below." page in
    let page := markup.elem "pre" [] (str.join " " (argv E)) page in
    let page := markup.elem "h2" [] "Configuration file" page in
    let page := markup.elem "p" []
      ("Omega scans are configured through INI-format files. The files "
       +:+ "used for this analysis are reproduced below in full.") page in
    embed_configs E configfiles page w.

(** ** The [wrap_html] decorator *)

(** The keyword options the decorator takes for itself. *)
Record options : Type := Options {
  opt_title : option string;
  opt_base : option string;
  opt_outdir : option string;
  opt_config : option (list string)
}.

Definition no_options : options := Options None None None None.

(** [decorated_func(ifo, gpstime, *args, **kwargs)] for the wrapped
    function [func], already applied to its own arguments.  The call of
    [write_about_page], itself a decorated function, is the recursive
    call; [fuel] bounds the depth of the Python call stack. *)
Fixpoint decorated_func (E : env) (fuel : nat) (func : reader markup.page)
    (ifo gpstime : string) (kwargs : options) : M string :=
  match fuel with
  | O => raise RecursionError
  | S fuel =>
      let title := default (ifo +:+ " Qscan | " +:+ gpstime) (opt_title kwargs) in
      let base := default posixpath.curdir (opt_base kwargs) in
      let outdir := default base (opt_outdir kwargs) in
      let* d := isdir outdir in
      when (negb d) (makedirs E outdir) >>
      let* about :=
        match opt_config kwargs with
        | None => ret None
        | Some config =>
            let aboutdir := posixpath.join outdir "about" in
            let ibase :=
              if bool_decide (base = posixpath.curdir) then posixpath.pardir else base in
            let* about :=
              decorated_func E fuel (about_body E config) ifo gpstime
                (Options (Some title) (Some ibase) (Some aboutdir) None) in
            ret (Some (if bool_decide (posixpath.basename about = "index.html")
                       then str.drop_last 10 about else about))
        end in
      let* page := init_page E ifo gpstime [] [] base [("title", title)] in
      let* page :=
        if truthy_opt about
        then
          match write_summary E ifo gpstime default_header default_tableclass with
          | Ok html => ret (markup.add html page)
          | Raise e => raise e
          end
        else ret page in
      let contentf := posixpath.join outdir "_inner.html" in
      open_w E contentf >>
      let* inner := lift func in
      fwrite contentf (markup.str inner) >>
      let page := markup.elem "div" [("id_", "content")] EmptyString page in
      let page := markup.elem "script" []
                    ("$('#content').load('" +:+ contentf +:+ "');") page in
      let index := posixpath.join outdir "index.html" in
      close_page E page index about None >>
      ret index
  end.

(** [wrap_html(func)] returns [decorated_func]. *)
Definition wrap_html (E : env) (fuel : nat) (func : reader markup.page)
    : string -> string -> options -> M string :=
  decorated_func E fuel func.

(** The decorated writers of the null-result page and of the about page.
    The body of [write_qscan_page] formats floating-point tile values; the
    properties of the decorator below hold for any wrapped function. *)
Definition write_null_page (E : env) (fuel : nat) (ifo gpstime reason context : string)
    (kwargs : options) : M string :=
  wrap_html E fuel (fun _ => Ok (null_body reason context)) ifo gpstime kwargs.

Definition write_about_page (E : env) (fuel : nat) (ifo gpstime : string)
    (configfiles : list string) (kwargs : options) : M string :=
  wrap_html E fuel (about_body E configfiles) ifo gpstime kwargs.

(** The name of the output directory a call resolves to. *)
Definition resolved_outdir (kwargs : options) : string :=
  default (default posixpath.curdir (opt_base kwargs)) (opt_outdir kwargs).

(** ** A concrete environment and process state *)

Definition demo_env : env :=
  Env (fun _ => true) (fun _ => true) ["gwdetchar-omega"; "-i"; "H1"; "1187008882"]
      "albert" "2017-08-17 12:41:00" "0.1.0"
      (fun _ => "2017-08-17 12:41:04") (fun _ => Communicated 0 "<span>x</span>" EmptyString).

Definition demo_world : world :=
  World ∅ ∅
    (initial_CSS_FILES "//maxcdn.bootstrapcdn.com/bootstrap/3.3.4/css/bootstrap.min.css")
    (initial_JS_FILES "//code.jquery.com/jquery-1.11.2.min.js"
                      "//maxcdn.bootstrapcdn.com/bootstrap/3.3.4/js/bootstrap.min.js")
    [].

(** The same environment on a machine without the [highlight] tool. *)
Definition bare_env : env :=
  Env (fun _ => true) (fun _ => true) ["gwdetchar-omega"; "-i"; "H1"; "1187008882"]
      "albert" "2017-08-17 12:41:00" "0.1.0"
      (fun _ => "2017-08-17 12:41:04") (fun _ => LaunchRaises (OSError "highlight")).

(** An environment that refuses to open script files for writing. *)
Definition noscript_env : env :=
  Env (fun p => negb (str.endswith p ".js")) (fun _ => true)
      ["gwdetchar-omega"; "-i"; "H1"; "1187008882"]
      "albert" "2017-08-17 12:41:00" "0.1.0"
      (fun _ => "2017-08-17 12:41:04") (fun _ => LaunchRaises (OSError "highlight")).

(** The command line [write_config_html] runs. *)
Definition highlight_cmd (filepath format : string) : list string :=
  ["highlight"; "--out-format"; "html"; "--syntax"; format;
   "--inline-css"; "--fragment"; "--input"; filepath].

(** ** Links and the channel blocks

    The remaining functions of the module.  The tile of a channel is made
    of floating-point numbers, which reach the page only through the two
    conversions of [formats]. *)

(** [key in d], [d.setdefault(k, v)] and [d.pop(k)] on keyword
    dictionaries. *)
Definition dict_has (k : string) (d : markup.attrs) : bool :=
  existsb (fun kv => bool_decide (kv.1 = k)) d.

Definition dict_setdefault (k v : string) (d : markup.attrs) : markup.attrs :=
  if dict_has k d then d else d ++ [(k, v)].

Fixpoint dict_get (k : string) (d : markup.attrs) : option string :=
  match d with
  | [] => None
  | (k', v) :: rest => if bool_decide (k' = k) then Some v else dict_get k rest
  end.

Definition dict_pop (k : string) (d : markup.attrs) : markup.attrs :=
  filter (fun kv => kv.1 <> k) d.

(** [html_link(href, txt, target="_blank", k=v, ...)]; the keywords
    [href], [txt] and [target] of a call bind to the named parameters, so
    [params] holds none of them. *)
Definition html_link (href txt : string) (target : option string)
    (params : markup.attrs) : string :=
  let params :=
    match target with
    | Some t => dict_setdefault "target" t params
    | None => params
    end in
  markup.oneliner "a" txt (("href", href) :: params).

Definition cis_style : string :=
  "font-family: Monaco, " +:+ str.dq +:+ "Courier New" +:+ str.dq +:+ ", monospace;".

(** [cis_link(channel, k=v, ...)]: the call of [html_link] spreads the
    merged dictionary over its parameters, so a [target] key becomes the
    [target] argument and a [href] or [txt] key is a [TypeError]. *)
Definition cis_link (channel : string) (params : markup.attrs) : result string :=
  let kwargs := [("title", "CIS entry for " +:+ channel); ("style", cis_style)] in
  let kwargs := dict_update kwargs params in
  if dict_has "href" kwargs || dict_has "txt" kwargs
  then Raise (OtherError "TypeError")
  else
    Ok (html_link ("https://cis.ligo.org/channel/byname/" +:+ channel) channel
          (Some (default "_blank" (dict_get "target" kwargs)))
          (dict_pop "target" kwargs)).

(** ["%s" % x] and ["%.1f" % x] on floats. *)
Record formats : Type := Formats {
  show_float : float -> string;
  fixed1 : float -> string
}.

(** A channel of a scanned block and the block itself, as far as the
    module reads them. *)
Record Channel : Type := mkChannel {
  channel_name : string;
  channel_t : float;
  channel_f : float;
  channel_Q : float;
  channel_energy : float;
  channel_plots : list FancyPlot
}.

Record OmegaChannelList : Type := mkBlock {
  block_name : string;
  block_key : string;
  block_channels : list Channel
}.

(** A loop whose body may raise. *)
Fixpoint fold_result {A B : Type} (f : B -> A -> result B) (l : list A) (b : B)
    : result B :=
  match l with
  | [] => Ok b
  | x :: rest =>
      match f b x with
      | Ok b' => fold_result f rest b'
      | Raise e => Raise e
      end
  end.

(** The page [write_toc] builds, before it is serialised. *)
Definition toc_page (blocks : list OmegaChannelList) : markup.page :=
  let page := markup.new in
  let page := markup.open "div" [("class_", "container")] page in
  let page := markup.elem "h2" [] "Table of Contents" page in
  let page := markup.open "ul" [] page in
  let page :=
    fold_left (fun page ib =>
      let block := ib.2 in
      let page := markup.open "li" [] page in
      let page := markup.elem "a" [("href", "#block-" +:+ block_key block);
                                     ("style", "font-size:18px;")]
                    (block_name block) page in
      markup.close "li" page) (enumerate blocks) page in
  let page := markup.close "ul" page in
  let page := markup.close "div" page in
  page.

(** [write_toc(blocks)] *)
Definition write_toc (blocks : list OmegaChannelList) : string :=
  markup.str (toc_page blocks).

(** One iteration of [for i, channel in enumerate(block.channels)]. *)
Definition block_iter (F : formats) (block : OmegaChannelList) (tableclass : string)
    (page : markup.page) (ic : Z * Channel) : result markup.page :=
  let i := ic.1 in
  let channel := ic.2 in
  match cis_link (channel_name channel) [] with
  | Raise e => Raise e
  | Ok link =>
      let page := markup.elem "pre" [("style", "font-size:14px;")] link page in
      let page := markup.open "div" [("class_", "container")] page in
      let page := markup.open "div"
                    [("class_", "clearfix");
                     ("id_", block_key block +:+ "-" +:+ pretty i +:+ "-summary")] page in
      let page := markup.open "table" [("class_", tableclass); ("style", "width:95%;")]
                    page in
      let page := markup.elem "caption" []
                    "Properties of the most significant time-frequency tile" page in
      let page := markup.open "thead" [] page in
      let page :=
        fold_left (fun page header => markup.elem "th" [("scope", "row")] header page)
          ["GPS Time"; "Frequency"; "Quality Factor"; "Energy"] page in
      let page := markup.close "thead" page in
      let page := markup.open "tbody" [] page in
      let page := markup.open "tr" [] page in
      let page := markup.elem "td" [] (show_float F (channel_t channel)) page in
      let page := markup.elem "td" [] (fixed1 F (channel_f channel) +:+ " Hz") page in
      let page := markup.elem "td" [] (fixed1 F (channel_Q channel)) page in
      let page := markup.elem "td" [] (fixed1 F (channel_energy channel)) page in
      let page := markup.close "tr" page in
      let page := markup.close "tbody" page in
      let page := markup.close "table" page in
      let page := markup.close "div" page in
      let page := markup.open "div"
                    [("class_", "content with-margin");
                     ("id_", block_key block +:+ "-" +:+ pretty i +:+ "-plots")] page in
      match scaffold_plots (channel_plots channel) 3 with
      | Raise e => Raise e
      | Ok grid =>
          let page := markup.add grid page in
          let page := markup.close "div" page in
          let page := markup.close "div" page in
          Ok page
      end
  end.

(** The page [write_block] builds, before it is serialised. *)
Definition block_page (F : formats) (block : OmegaChannelList) (tableclass : string)
    : result markup.page :=
  let page := markup.new in
  let page := markup.open "div" [("class_", "panel panel-info");
                                 ("id_", "block-" +:+ block_key block)] page in
  let page := markup.open "div" [("class_", "panel-heading clearfix")] page in
  let page := markup.open "div" [("class_", "pull-right")] page in
  let page := markup.elem "a" [("href", "#")] "<small>[top]</small>" page in
  let page := markup.close "div" page in
  let page := markup.elem "h3" [("class_", "panel-title"); ("style", "font-size:18px;")]
                (block_name block) page in
  let page := markup.close "div" page in
  let page := markup.open "div" [("class_", "panel-body")] page in
  match fold_result (block_iter F block tableclass) (enumerate (block_channels block))
          page with
  | Raise e => Raise e
  | Ok page =>
      let page := markup.close "div" page in
      let page := markup.close "div" page in
      Ok page
  end.

(** [write_block(block, tableclass=...)] *)
Definition write_block (F : formats) (block : OmegaChannelList) (tableclass : string)
    : result string :=
  match block_page F block tableclass with
  | Ok page => Ok (markup.str page)
  | Raise e => Raise e
  end.

(** The body of [write_qscan_page(blocks)] *)
Definition qscan_body (F : formats) (blocks : list OmegaChannelList)
    : result markup.page :=
  let page := markup.new in
  let page := markup.add (write_toc blocks) page in
  let page := markup.elem "h2" [] "Results" page in
  let page := markup.elem "p" [("style", "font-size:18px;")]
    ("The following blocks of channels were scanned for interesting "
     +:+ "time-frequency morphology:") page in
  fold_result (fun page block =>
    match write_block F block default_tableclass with
    | Ok html => Ok (markup.add html page)
    | Raise e => Raise e
    end) blocks page.

Definition write_qscan_page (E : env) (F : formats) (fuel : nat) (ifo gpstime : string)
    (blocks : list OmegaChannelList) (kwargs : options) : M string :=
  wrap_html E fuel (fun _ => qscan_body F blocks) ifo gpstime kwargs.

(** ** Specification vocabulary *)

(** The inner content of the null-result page of the specification. *)
Definition alert_fragment : string :=
  Eval vm_compute in markup.str (null_body "No significant channels" "warning").


(** The state after [open(path, 'w')], and after the data is written. *)
Definition opened (path : string) (w : world) : world :=
  World (<[path := EmptyString]> (files w)) (dirs w) (CSS_FILES w) (JS_FILES w)
        (written w ++ [path]).

Definition put_file (path data : string) (w : world) : world :=
  World (<[path := data]> (files w)) (dirs w) (CSS_FILES w) (JS_FILES w)
        (written w ++ [path]).

(** The part of [decorated_func] that follows the about page: the shell,
    the summary, the inner content and the closing of the page. *)
Definition page_tail (E : env) (func : reader markup.page) (ifo gpstime title base
    outdir : string) (about : option string) : M string :=
  let* page := init_page E ifo gpstime [] [] base [("title", title)] in
  let* page :=
    if truthy_opt about
    then
      match write_summary E ifo gpstime default_header default_tableclass with
      | Ok html => ret (markup.add html page)
      | Raise e => raise e
      end
    else ret page in
  let contentf := posixpath.join outdir "_inner.html" in
  open_w E contentf >>
  let* inner := lift func in
  fwrite contentf (markup.str inner) >>
  let page := markup.elem "div" [("id_", "content")] EmptyString page in
  let page := markup.elem "script" []
                ("$('#content').load('" +:+ contentf +:+ "');") page in
  let index := posixpath.join outdir "index.html" in
  close_page E page index about None >>
  ret index.

(** The wrapped function returns a page in every state. *)
Definition returns (func : reader markup.page) : Prop :=
  forall w, exists page, func w = Ok page.

(** The directory of the static assets, as [init_page] names it. *)
Definition staticdir : string := Eval vm_compute in posixpath.join posixpath.curdir "static".

(** The placeholder and the loader [decorated_func] puts in a page. *)
Definition content_div : markup.item :=
  markup.Elem "div" [("id_", "content")] EmptyString.

Definition loader (contentf : string) : markup.item :=
  markup.Elem "script" [] ("$('#content').load('" +:+ contentf +:+ "');").


(** The files of the about page, written when [config] is given. *)
Definition about_paths (kwargs : options) : list string :=
  match opt_config kwargs with
  | None => []
  | Some _ =>
      let aboutdir := posixpath.join (resolved_outdir kwargs) "about" in
      [posixpath.join aboutdir "_inner.html"; posixpath.join aboutdir "index.html"]
  end.

(** What a decorated call needs besides a permissive environment: the
    wrapped function returns, and with [config] the about page can be
    built and the observatory code is known to the summary. *)
Definition callable (E : env) (func : reader markup.page) (ifo gpstime : string)
    (kwargs : options) : Prop :=
  returns func
  /\ match opt_config kwargs with
     | None => True
     | Some config =>
         returns (about_body E config)
         /\ exists html,
              write_summary E ifo gpstime default_header default_tableclass = Ok html
     end.


(** [w'] comes from [w] by the file writes [l], in order. *)
Definition wrote (l : list (string * string)) (w w' : world) : Prop :=
  written w' = written w ++ l.*1
  /\ files w' = fold_left (fun m pd => <[pd.1 := pd.2]> m) l (files w).

(** What a call of [write_static_files] has to write: the assets that are
    not in the registries yet. *)
Definition new_css (static : string) (w : world) : list (string * string) :=
  let omegacss := posixpath.join static "omega.css" in
  if bool_decide (omegacss ∈ CSS_FILES w) then [] else [(omegacss, OMEGA_CSS)].

Definition new_js (static : string) (w : world) : list (string * string) :=
  let omegajs := posixpath.join static "omega.js" in
  if bool_decide (omegajs ∈ JS_FILES w) then [] else [(omegajs, OMEGA_JS)].

(** The environment lets the module create its directories and files. *)
Definition permissive (E : env) : Prop :=
  (forall p, may_write E p = true) /\ (forall d, may_mkdir E d = true).


(** Counting the items of a page. *)
Global Instance item_eq_dec : EqDecision markup.item.
Proof. solve_decision. Defined.

Definition count_item (it : markup.item) (c : list markup.item) : nat :=
  length (filter (fun x => x = it) c).

(** The raw fragments added to a page, in order. *)
Definition texts (c : list markup.item) : list string :=
  omap (fun it => match it with markup.Text t => Some t | _ => None end) c.

(** [enumerate(plots)] continued from index [k]. *)
Definition enumerate_from {A : Type} (k : nat) (l : list A) : list (Z * A) :=
  imap (fun i a => (Z.of_nat (k + i), a)) l.


(** [sub] occurs in [s]. *)
Definition substring_of (sub s : string) : Prop :=
  exists pre post, s = pre +:+ sub +:+ post.

(** The values the class can hold: plots built by the constructor from a
    file name or from another such plot. *)
Inductive constructed : FancyPlot -> Prop :=
| constructed_str (s : string) (cap : option string) :
    constructed (FancyPlot_init (ImgStr s) cap)
| constructed_plot (p : FancyPlot) (cap : option string) :
    constructed p -> constructed (FancyPlot_init (ImgPlot p) cap).

Definition img_ok (i : img_arg) : Prop :=
  match i with
  | ImgStr _ => True
  | ImgPlot p => constructed p
  end.

(** The observatory codes of [OBSERVATORY_MAP] with their full names. *)
Definition observatories : list (string * string) :=
  [("G1", "GEO"); ("H1", "LIGO Hanford"); ("K1", "KAGRA");
   ("L1", "LIGO Livingston"); ("V1", "Virgo")].

(** What [join] puts in front of a relative second component. *)
Definition dirpart (a : string) : string :=
  if negb (str.truthy a) || str.endswith a "/" then a else a +:+ "/".

(** A Bootstrap alert can be dismissed when it carries the class
    [alert-dismissible] or a control with a [data-dismiss] attribute. *)
Definition dismissible (fragment : string) : Prop :=
  substring_of "alert-dismissible" fragment \/ substring_of "data-dismiss" fragment.

(** The options of the scenarios: an output directory, with and without
    a configuration file. *)
Definition out_options : options := Options None None (Some "out") None.
Definition out_config_options : options :=
  Options None None (Some "out") (Some ["omega.ini"]).

(** The nesting of the tags of a page: the stack of open elements the
    items leave, or [None] when a closing tag does not match. *)
Fixpoint nesting (items : list markup.item) (stack : list string)
    : option (list string) :=
  match items with
  | [] => Some stack
  | markup.Open tag _ :: rest => nesting rest (tag :: stack)
  | markup.Close tag :: rest =>
      match stack with
      | top :: stack' => if bool_decide (top = tag) then nesting rest stack' else None
      | [] => None
      end
  | _ :: rest => nesting rest stack
  end.

(** An item that opens and closes nothing. *)
Definition neutral (it : markup.item) : bool :=
  match it with
  | markup.Open _ _ | markup.Close _ => false
  | _ => true
  end.

(** What a decorated call with [config] needs for its about page and
    its summary. *)
Definition about_ok (E : env) (ifo gpstime : string) (kwargs : options) : Prop :=
  match opt_config kwargs with
  | None => True
  | Some config =>
      returns (about_body E config)
      /\ exists html,
           write_summary E ifo gpstime default_header default_tableclass = Ok html
  end.

(** The link to the about page in the footer of the main page. *)
Definition about_link (kwargs : options) : option string :=
  match opt_config kwargs with
  | None => None
  | Some _ => Some (posixpath.join (resolved_outdir kwargs) "about" +:+ "/")
  end.

(** Some formats and the block of the end-to-end scenario. *)
Definition demo_formats : formats :=
  Formats (fun _ => "1187008882.5")
          (fun x => if PrimFloat.eqb x 100.5 then "100.5"
                    else if PrimFloat.eqb x 8.25 then "8.2" else "42.0").

Definition demo_block : OmegaChannelList :=
  mkBlock "Strain" "k1"
    [mkChannel "H1:STRAIN" 1187008882.5%float 100.5%float 8.25%float 42%float
       [FancyPlot_init (ImgStr "plots/H1-STRAIN.png") None]].

(** The [id] attributes of the elements a page opens, in order. *)
Definition item_ids (c : list markup.item) : list string :=
  omap (fun it => match it with
                  | markup.Open _ kw => dict_get "id_" kw
                  | _ => None
                  end) c.

(** The entry of the table of contents for a block. *)
Definition toc_entry (block : OmegaChannelList) : list markup.item :=
  [markup.Open "li" [];
   markup.Elem "a" [("href", "#block-" +:+ block_key block);
                    ("style", "font-size:18px;")] (block_name block);
   markup.Close "li"].

(** The items [write_block] puts before the channels of a block. *)
Definition panel_head (block : OmegaChannelList) : list markup.item :=
  [markup.Open "div" [("class_", "panel panel-info");
                      ("id_", "block-" +:+ block_key block)];
   markup.Open "div" [("class_", "panel-heading clearfix")];
   markup.Open "div" [("class_", "pull-right")];
   markup.Elem "a" [("href", "#")] "<small>[top]</small>";
   markup.Close "div";
   markup.Elem "h3" [("class_", "panel-title"); ("style", "font-size:18px;")]
     (block_name block);
   markup.Close "div";
   markup.Open "div" [("class_", "panel-body")]].

(** Every channel of the block has at least one plot. *)
Definition plotted (block : OmegaChannelList) : Prop :=
  Forall (fun c => channel_plots c <> []) (block_channels block).

(** Some channel of the block has no plot. *)
Definition unplotted (block : OmegaChannelList) : Prop :=
  Exists (fun c => channel_plots c = []) (block_channels block).

(** The two [id] attributes of the channel at position [i] of a block. *)
Definition channel_ids (key : string) (i : nat) : list string :=
  [key +:+ "-" +:+ pretty (Z.of_nat i) +:+ "-summary";
   key +:+ "-" +:+ pretty (Z.of_nat i) +:+ "-plots"].

(** A block with a channel that has no plot. *)
Definition bare_block : OmegaChannelList :=
  mkBlock "Auxiliary" "k2"
    [mkChannel "H1:AUX" 1187008882.5%float 100.5%float 8.25%float 42%float []].

(** The states that have the files of [w], apart from those named by
    [paths]. *)
Definition same_files_but (paths : list string) (w w0 : world) : Prop :=
  forall p, p ∉ paths -> files w0 !! p = files w !! p.

(** The files a decorated call writes. *)
Definition page_files (kwargs : options) : list string :=
  let outdir := resolved_outdir kwargs in
  [posixpath.join staticdir "omega.css"; posixpath.join staticdir "omega.js"]
  ++ about_paths kwargs
  ++ [posixpath.join outdir "_inner.html"; posixpath.join outdir "index.html"].

(** What a decorated call started in the state [w] needs besides a
    permissive environment: the wrapped function returns in the states
    that have the files of [w] apart from the files the call writes, with
    [config] so does the body of the about page, and the observatory code
    is known to the summary. *)
Definition callable_in (E : env) (func : reader markup.page) (ifo gpstime : string)
    (kwargs : options) (w : world) : Prop :=
  (forall w0, same_files_but (page_files kwargs) w w0 -> exists page, func w0 = Ok page)
  /\ match opt_config kwargs with
     | None => True
     | Some config =>
         (forall w0, same_files_but (page_files kwargs) w w0 ->
            exists page, about_body E config w0 = Ok page)
         /\ exists html,
              write_summary E ifo gpstime default_header default_tableclass = Ok html
     end.

(** A state with one configuration file on disk. *)
Definition config_world : world :=
  World {[ "omega.ini" := "[primary]" ]} ∅ (CSS_FILES demo_world) (JS_FILES demo_world) [].

(** The elements the module itself creates with a text between their
    tags, and [title], the key the decorator passes to [init_page]. *)
Definition text_elements : list string :=
  ["title"; "h1"; "h2"; "h3"; "p"; "pre"; "a"; "td"; "th"; "caption"; "div"; "script"].

(** Keyword arguments of [init_page] whose keys name such elements: for
    these [getattr(page, key)(value)] appends the element [key] around
    the text [value]. *)
Definition element_keys (kwargs : markup.attrs) : Prop :=
  Forall (fun kv => kv.1 ∈ text_elements) kwargs.

(** ** Facts about strings and paths *)

Section strings.

Lemma app_nil_l_s (s : string) : EmptyString +:+ s = s.
Proof. reflexivity. Qed.

Lemma app_cons_s (c : ascii) (s t : string) : String c s +:+ t = String c (s +:+ t).
Proof. reflexivity. Qed.

Lemma app_nil_r_s (s : string) : s +:+ EmptyString = s.
Proof. induction s as [|c s IH]; [done|]. by rewrite app_cons_s, IH. Qed.

Lemma app_assoc_s (s t u : string) : (s +:+ t) +:+ u = s +:+ t +:+ u.
Proof. induction s as [|c s IH]; [done|]. by rewrite !app_cons_s, IH. Qed.

Lemma length_app_s (s t : string) :
  String.length (s +:+ t) = String.length s + String.length t.
Proof. induction s as [|c s IH]; [done|]. rewrite app_cons_s. simpl. by rewrite IH. Qed.

Lemma endswith_refl (s : string) : str.endswith s s = true.
Proof. destruct s; simpl; [done | by case_bool_decide]. Qed.

Lemma endswith_cons (c : ascii) (s t : string) :
  str.endswith s t = true -> str.endswith (String c s) t = true.
Proof. intros H. simpl. by case_bool_decide. Qed.

Lemma endswith_app (k s : string) : str.endswith (k +:+ s) s = true.
Proof.
  induction k as [|c k IH]; [apply endswith_refl|].
  rewrite app_cons_s. by apply endswith_cons.
Qed.

Lemma endswith_spec (s t : string) :
  str.endswith s t = true <-> exists k, s = k +:+ t.
Proof.
  split.
  - induction s as [|c s IH]; simpl; case_bool_decide as Heq; intros H.
    + exists EmptyString. by subst.
    + done.
    + exists EmptyString. by subst.
    + destruct (IH H) as [k ->]. by exists (String c k).
  - intros [k ->]. apply endswith_app.
Qed.

Lemma endswith_tail (s t : string) (c : ascii) :
  str.endswith s (String c t) = true -> str.endswith s t = true.
Proof.
  rewrite !endswith_spec. intros [k ->].
  exists (k +:+ String c EmptyString). by rewrite app_assoc_s.
Qed.

(** A suffix no longer than [b] of a string ending in [b] is a suffix of [b]. *)
Lemma endswith_app_short (k b t : string) :
  String.length t <= String.length b ->
  str.endswith (k +:+ b) t = true -> str.endswith b t = true.
Proof.
  intros Hlen. induction k as [|c k IH]; [done|].
  rewrite app_cons_s. simpl. case_bool_decide as Heq; [|done].
  intros _. apply (f_equal String.length) in Heq.
  simpl in Heq. rewrite length_app_s in Heq. lia.
Qed.

Lemma after_last_sep_suffix (s p cur : string) :
  str.endswith s cur = true -> str.endswith s p = true ->
  str.endswith s (posixpath.after_last_sep p cur) = true.
Proof.
  revert cur. induction p as [|c p IH]; intros cur Hcur Hp; simpl; [done|].
  pose proof (endswith_tail _ _ _ Hp). case_bool_decide; by apply IH.
Qed.

(** Every path ends with its own base name. *)
Lemma endswith_basename (p : string) : str.endswith p (posixpath.basename p) = true.
Proof. apply after_last_sep_suffix; apply endswith_refl. Qed.

Lemma join_relative (a b : string) :
  posixpath.startswith_sep b = false -> posixpath.join a b = dirpart a +:+ b.
Proof.
  intros Hb. unfold posixpath.join, dirpart. rewrite Hb.
  destruct (negb (str.truthy a) || str.endswith a "/"); [done|].
  by rewrite app_assoc_s.
Qed.

Lemma join_endswith (a b : string) : str.endswith (posixpath.join a b) b = true.
Proof.
  unfold posixpath.join.
  destruct (posixpath.startswith_sep b); [apply endswith_refl|].
  destruct (negb (str.truthy a) || str.endswith a "/"); [apply endswith_app|].
  rewrite <- app_assoc_s. apply endswith_app.
Qed.

(** Two paths with different endings differ. *)
Lemma join_ne (a a' b b' : string) :
  String.length b' <= String.length b ->
  posixpath.startswith_sep b = false ->
  str.endswith b b' = false ->
  posixpath.join a b <> posixpath.join a' b'.
Proof.
  intros Hlen Hrel Hends Heq.
  pose proof (join_endswith a' b') as H. rewrite <- Heq, join_relative in H by done.
  apply endswith_app_short in H; [congruence|done].
Qed.

Lemma ne_join (s a b : string) :
  str.endswith s b = false -> s <> posixpath.join a b.
Proof. intros H ->. by rewrite join_endswith in H. Qed.

Lemma dirpart_about (a : string) :
  dirpart (dirpart a +:+ "about") = dirpart a +:+ "about/".
Proof.
  unfold dirpart at 1.
  assert (str.endswith (dirpart a +:+ "about") "/" = false) as ->.
  { destruct (str.endswith _ _) eqn:H; [|done].
    apply endswith_app_short in H; [done|simpl; lia]. }
  assert (str.truthy (dirpart a +:+ "about") = true) as ->.
  { destruct (dirpart a); done. }
  simpl. by rewrite app_assoc_s.
Qed.

(** The index of the about page and the index of its parent differ. *)
Lemma about_index_ne (outdir : string) :
  posixpath.join (posixpath.join outdir "about") "index.html"
  <> posixpath.join outdir "index.html".
Proof.
  rewrite !join_relative by done. rewrite dirpart_about, app_assoc_s.
  intros H. by apply (inj (String.app _)) in H.
Qed.

Lemma after_last_sep_slash (x y cur : string) :
  posixpath.after_last_sep (x +:+ "/" +:+ y) cur = posixpath.after_last_sep y y.
Proof.
  revert cur. induction x as [|c x IH]; intros cur; [done|].
  rewrite app_cons_s. simpl. case_bool_decide; apply IH.
Qed.

(** The base name of a path joined from a directory and a file name. *)
Lemma basename_join (a b : string) :
  posixpath.startswith_sep b = false -> posixpath.basename b = b ->
  posixpath.basename (posixpath.join a b) = b.
Proof.
  intros Hrel Hb. rewrite join_relative by done. unfold dirpart, posixpath.basename.
  destruct a as [|c a]; [done|]. cbn [negb str.truthy orb].
  destruct (str.endswith (String c a) "/") eqn:Hends.
  - apply endswith_spec in Hends as [k ->].
    by rewrite app_assoc_s, after_last_sep_slash.
  - by rewrite app_assoc_s, after_last_sep_slash.
Qed.

Example basename_nested : posixpath.basename "plots/a/b.png" = "b.png".
Proof. reflexivity. Qed.

Example basename_directory : posixpath.basename "dir/" = EmptyString.
Proof. reflexivity. Qed.

Example join_static : posixpath.join posixpath.curdir "static" = "./static".
Proof. reflexivity. Qed.

Example join_trailing_sep : posixpath.join "out/" "index.html" = "out/index.html".
Proof. reflexivity. Qed.

Example join_absolute : posixpath.join "out" "/abs" = "/abs".
Proof. reflexivity. Qed.

Example drop_last_index : str.drop_last 10 "out/about/index.html" = "out/about/".
Proof. reflexivity. Qed.

Example endswith_suffix_only : str.endswith "my/data.css" "a.css" = true.
Proof. reflexivity. Qed.

End strings.

(** ** Serialised pages *)

Section serialisation.

Lemma substring_of_refl (s : string) : substring_of s s.
Proof. exists EmptyString, EmptyString. by rewrite app_nil_r_s. Qed.

Lemma join_elem_of (sep x : string) (l : list string) :
  x ∈ l -> substring_of x (str.join sep l).
Proof.
  induction l as [|y l IH]; [by intros ?%elem_of_nil|].
  intros [->|Hx]%elem_of_cons.
  - destruct l as [|z l]; [apply substring_of_refl|].
    exists EmptyString, (sep +:+ str.join sep (z :: l)). done.
  - destruct l as [|z l]; [by apply elem_of_nil in Hx|].
    change (str.join sep (y :: z :: l)) with (y +:+ sep +:+ str.join sep (z :: l)).
    destruct (IH Hx) as (a & b & ->).
    exists (y +:+ sep +:+ a), b. by rewrite !app_assoc_s.
Qed.

(** An item of a page shows in its serialisation. *)
Lemma str_item (it : markup.item) (p : markup.page) :
  it ∈ markup.content p -> substring_of (markup.render_item it) (markup.str p).
Proof.
  intros Hin. unfold markup.str. apply join_elem_of.
  rewrite !elem_of_app. right; left. by apply list_elem_of_fmap_2.
Qed.

Lemma content_append (it : markup.item) (p : markup.page) :
  markup.content (markup.append it p) = markup.content p ++ [it].
Proof. done. Qed.

Lemma prefix_app (sub post : string) : String.prefix sub (sub +:+ post) = true.
Proof.
  induction sub as [|c sub IH]; [by destruct post|].
  rewrite app_cons_s. simpl. by destruct (ascii_dec c c).
Qed.

(** [str.contains] finds every occurrence. *)
Lemma contains_complete (s sub : string) :
  substring_of sub s -> str.contains s sub = true.
Proof.
  intros (pre & post & ->). induction pre as [|c pre IH].
  - rewrite app_nil_l_s. pose proof (prefix_app sub post) as H.
    destruct (sub +:+ post); cbn [str.contains]; by rewrite H.
  - rewrite app_cons_s. cbn [str.contains]. by destruct (String.prefix sub _).
Qed.

End serialisation.

(** ** The plot class *)

Section fancyplot.

(** A constructed plot has an empty caption only when the base name of its
    image is empty too. *)
Lemma constructed_caption (p : FancyPlot) :
  constructed p -> str.truthy (caption p) = false ->
  caption p = posixpath.basename (img p).
Proof.
  induction 1 as [s cap|p cap Hp IH]; simpl.
  - destruct cap as [c|]; [|done]. destruct (str.truthy c) eqn:Hc; [congruence|done].
  - destruct cap as [c|]; simpl.
    + destruct (str.truthy c) eqn:Hc; [by rewrite Hc; congruence|].
      destruct (str.truthy (caption p)) eqn:Hcp; [congruence|done].
    + destruct (str.truthy (caption p)) eqn:Hcp; [congruence|done].
Qed.

(** C10: an empty caption is the same as no caption: the plot takes the base
    name of the image path, or the caption of the plot it is built from,
    and its [img] field is the string form of the image argument whatever
    the caption. *)
Theorem FancyPlot_empty_caption (i : img_arg) :
  img_ok i ->
  FancyPlot_init i (Some EmptyString) = FancyPlot_init i None
  /\ caption (FancyPlot_init i (Some EmptyString)) =
       match i with
       | ImgStr s => posixpath.basename s
       | ImgPlot p => caption p
       end
  /\ forall cap, img (FancyPlot_init i cap) = img_str i.
Proof.
  intros Hi. split; [by destruct i|]. split; [|done].
  destruct i as [s|p]; simpl; [done|].
  destruct (str.truthy (caption p)) eqn:Hcp; [done|].
  symmetry. by apply constructed_caption.
Qed.

Lemma FancyPlot_empty_caption_witness :
  let src := FancyPlot_init (ImgStr "plots/H1-STRAIN.png") (Some "Strain") in
  FancyPlot_init (ImgPlot src) (Some EmptyString) = FancyPlot_init (ImgPlot src) None
  /\ caption (FancyPlot_init (ImgPlot src) (Some EmptyString)) = "Strain"
  /\ forall cap, img (FancyPlot_init (ImgPlot src) cap) = "plots/H1-STRAIN.png".
Proof.
  intros src.
  exact (FancyPlot_empty_caption (ImgPlot src) (constructed_str _ _)).
Defined.

End fancyplot.

(** ** The summary table *)

Section summary.

Lemma observatory_lookup (ifo name : string) :
  (ifo, name) ∈ observatories -> OBSERVATORY_MAP !! ifo = Some name.
Proof.
  unfold observatories. rewrite !elem_of_cons, elem_of_nil.
  intros [H|[H|[H|[H|[H|[]]]]]]; by injection H as -> ->.
Qed.

Lemma observatory_lookup_None (ifo : string) :
  ifo ∉ observatories.*1 -> OBSERVATORY_MAP !! ifo = None.
Proof.
  simpl. rewrite !not_elem_of_cons. intros (? & ? & ? & ? & ? & _).
  unfold OBSERVATORY_MAP. by rewrite !lookup_insert_ne, lookup_empty.
Qed.

(** C5: for a supported observatory code the summary holds the cell with the
    full name followed by the code in parentheses; for any other code
    [write_summary] raises the lookup error and returns no page. *)
Theorem write_summary_observatory (E : env) (ifo gpstime header tableclass : string) :
  (forall name, (ifo, name) ∈ observatories ->
     exists page,
       summary_page E ifo gpstime header tableclass = Ok page
       /\ write_summary E ifo gpstime header tableclass = Ok (markup.str page)
       /\ markup.Elem "td" [] (name +:+ " (" +:+ ifo +:+ ")") ∈ markup.content page
       /\ substring_of ("<td>" +:+ name +:+ " (" +:+ ifo +:+ ")</td>") (markup.str page))
  /\ (ifo ∉ observatories.*1 ->
      write_summary E ifo gpstime header tableclass = Raise (KeyError ifo)).
Proof.
  split.
  - intros name Hobs%observatory_lookup.
    unfold write_summary, summary_page. rewrite Hobs.
    eexists. split; [done|]. split; [done|].
    match goal with
    | |- ?it ∈ ?l /\ _ => assert (it ∈ l) as Hin
    end.
    { simpl. repeat constructor. }
    split; [exact Hin|].
    apply str_item in Hin.
    change (markup.render_item (markup.Elem "td" [] (name +:+ " (" +:+ ifo +:+ ")")))
      with ("<td>" +:+ (name +:+ " (" +:+ ifo +:+ ")") +:+ "</td>") in Hin.
    by rewrite !app_assoc_s in Hin.
  - intros Hno%observatory_lookup_None.
    unfold write_summary, summary_page. by rewrite Hno.
Qed.

Lemma write_summary_observatory_witness :
  (exists page,
     summary_page demo_env "H1" "1187008882" default_header default_tableclass = Ok page
     /\ write_summary demo_env "H1" "1187008882" default_header default_tableclass
        = Ok (markup.str page)
     /\ markup.Elem "td" [] "LIGO Hanford (H1)" ∈ markup.content page
     /\ substring_of "<td>LIGO Hanford (H1)</td>" (markup.str page))
  /\ write_summary demo_env "X1" "1187008882" default_header default_tableclass
     = Raise (KeyError "X1").
Proof.
  split.
  - apply (proj1 (write_summary_observatory demo_env "H1" "1187008882"
                    default_header default_tableclass) "LIGO Hanford").
    unfold observatories. repeat constructor.
  - apply (proj2 (write_summary_observatory demo_env "X1" "1187008882"
                    default_header default_tableclass)).
    simpl. rewrite !not_elem_of_cons. repeat split; try discriminate.
    apply not_elem_of_nil.
Defined.

End summary.

(** ** Configuration files *)

Section config.

Variable E : env.
Variables filepath format : string.
Variable w : world.

(** C7: [write_config_html] returns the output of the highlighter when it
    ran and exited with code 0, and the text of the file when the
    highlighter could not be launched ([OSError]) or exited with another
    code; every other exception goes to the caller, as does the failure to
    read the file in the fallback. *)
Theorem write_config_html_cases :
  (forall out err,
     popen E (highlight_cmd filepath format) = Communicated 0 out err ->
     write_config_html E filepath format w = Ok out)
  /\ (forall what text,
        popen E (highlight_cmd filepath format) = LaunchRaises (OSError what) ->
        files w !! filepath = Some text ->
        write_config_html E filepath format w = Ok text)
  /\ (forall returncode out err text,
        popen E (highlight_cmd filepath format) = Communicated returncode out err ->
        returncode <> 0%Z ->
        files w !! filepath = Some text ->
        write_config_html E filepath format w = Ok text)
  /\ (forall e,
        popen E (highlight_cmd filepath format) = LaunchRaises e ->
        (forall what, e <> OSError what) ->
        write_config_html E filepath format w = Raise e)
  /\ (forall e,
        popen E (highlight_cmd filepath format) = CommunicateRaises e ->
        write_config_html E filepath format w = Raise e)
  /\ (forall returncode out err,
        files w !! filepath = None ->
        popen E (highlight_cmd filepath format) = Communicated returncode out err ->
        returncode <> 0%Z ->
        write_config_html E filepath format w = Raise (OSError filepath))
  /\ (forall what,
        files w !! filepath = None ->
        popen E (highlight_cmd filepath format) = LaunchRaises (OSError what) ->
        write_config_html E filepath format w = Raise (OSError filepath)).
Proof.
  unfold write_config_html, highlight_cmd, open_read.
  repeat split.
  - intros out err ->. rewrite bool_decide_eq_false_2; [done|]. intros H. by apply H.
  - by intros what text -> ->.
  - intros rc out err text -> Hrc ->. by rewrite bool_decide_eq_true_2.
  - intros e -> He. destruct e; try done. by destruct (He what).
  - by intros e ->.
  - intros rc out err -> -> Hrc. by rewrite bool_decide_eq_true_2.
  - by intros what -> ->.
Qed.

End config.

Lemma write_config_html_cases_witness :
  let w := World {["omega.ini" := "[GW]"]} ∅ [] [] [] in
  write_config_html demo_env "omega.ini" "ini" w = Ok "<span>x</span>"
  /\ write_config_html bare_env "omega.ini" "ini" w = Ok "[GW]"
  /\ write_config_html bare_env "missing.ini" "ini" w = Raise (OSError "missing.ini").
Proof.
  intros w. split; [|split].
  - destruct (write_config_html_cases demo_env "omega.ini" "ini" w) as (H & _).
    by apply (H "<span>x</span>" EmptyString).
  - destruct (write_config_html_cases bare_env "omega.ini" "ini" w) as (_ & H & _).
    by apply (H "highlight" "[GW]").
  - destruct (write_config_html_cases bare_env "missing.ini" "ini" w)
      as (_ & _ & _ & _ & _ & _ & H).
    by apply (H "highlight").
Defined.

(** ** The stylesheet and script lists of the page head *)

Section links.

Implicit Types baseline given kept : list string.

Lemma link_step_blocked given f g :
  g ∈ given -> str.endswith g (posixpath.basename f) = true ->
  link_step given f = given.
Proof.
  intros Hg Hends. unfold link_step.
  assert (existsb (fun g => str.endswith g (posixpath.basename f)) given = true) as ->;
    [|done].
  apply existsb_exists. exists g. by rewrite <- list_elem_of_In.
Qed.


Lemma link_step_cases given f :
  (link_step given f = given
   /\ exists g, g ∈ given /\ str.endswith g (posixpath.basename f) = true)
  \/ (link_step given f = f :: given
      /\ forall g, g ∈ given -> str.endswith g (posixpath.basename f) = false).
Proof.
  unfold link_step. destruct (existsb _ given) eqn:Hex.
  - left. split; [done|].
    apply existsb_exists in Hex as (g & Hg%list_elem_of_In & Hends). eauto.
  - right. split; [done|]. intros g Hg.
    destruct (str.endswith g _) eqn:Hends; [|done].
    assert (existsb (fun g => str.endswith g (posixpath.basename f)) given = true) as Hex'.
    { apply existsb_exists. exists g. by rewrite <- list_elem_of_In. }
    congruence.
Qed.

(** The loop only prepends: the result is the given list preceded by
    baseline entries, in baseline order, none of whose base names ends an
    entry of the given list. *)
Lemma link_fold (todo given : list string) :
  exists kept,
    fold_left link_step todo given = kept ++ given
    /\ (kept `sublist_of` rev todo)
    /\ Forall (fun x => forall g, g ∈ given ->
                 str.endswith g (posixpath.basename x) = false) kept.
Proof.
  revert given. induction todo as [|x todo IH]; intros given; simpl.
  - exists []. split; [done|]. split; [constructor|constructor].
  - destruct (link_step_cases given x) as [[-> _]|[-> Hfree]].
    + destruct (IH given) as (kept & -> & Hsub & Hall).
      exists kept. split; [done|]. split; [by apply sublist_inserts_r|done].
    + destruct (IH (x :: given)) as (kept & -> & Hsub & Hall).
      exists (kept ++ [x]). split; [by rewrite <- app_assoc|]. split.
      * by apply sublist_app.
      * apply Forall_app. split.
        -- eapply Forall_impl; [exact Hall|]. intros y Hy g Hg.
           apply Hy. by right.
        -- by constructor.
Qed.

Lemma link_list_shape baseline given :
  exists kept,
    link_list baseline given = kept ++ given
    /\ (kept `sublist_of` baseline)
    /\ Forall (fun x => forall g, g ∈ given ->
                 str.endswith g (posixpath.basename x) = false) kept.
Proof.
  destruct (link_fold (rev baseline) given) as (kept & H1 & H2 & H3).
  exists kept. by rewrite rev_involutive in H2.
Qed.




End links.

(** ** The plot grid *)

Section grid.

Local Ltac Zify.zify_post_hook ::= Z.div_mod_to_equations.
Local Arguments Nat.modulo : simpl never.
Local Arguments Nat.div : simpl never.

Lemma count_item_app (it : markup.item) (c d : list markup.item) :
  count_item it (c ++ d) = count_item it c + count_item it d.
Proof. unfold count_item. by rewrite filter_app, length_app. Qed.

Lemma texts_app (c d : list markup.item) : texts (c ++ d) = texts c ++ texts d.
Proof. apply omap_app. Qed.

Lemma enumerate_from_cons {A : Type} (k : nat) (x : A) (l : list A) :
  enumerate_from k (x :: l) = (Z.of_nat k, x) :: enumerate_from (S k) l.
Proof.
  unfold enumerate_from. rewrite imap_cons. f_equal.
  - by rewrite Nat.add_0_r.
  - apply imap_ext. intros i a _. simpl. do 2 f_equal. lia.
Qed.

(** The items one iteration appends. *)
Lemma scaffold_iter_content (k : nat) (p : FancyPlot) (st : scaffold_state) :
  markup.content (scaffold_iter 3 4 st (Z.of_nat k, p)).1 =
    markup.content st.1
    ++ (if bool_decide (k mod 3 = 0) then [row_div] else [])
    ++ [col_div 4; markup.Text (fancybox_img p [] []); markup.Close "div"]
    ++ (if bool_decide (k mod 3 = 2) then [markup.Close "div"] else []).
Proof.
  unfold scaffold_iter, markup.add, markup.close. cbn [fst snd].
  rewrite (bool_decide_ext (Z.of_nat k `mod` 3 = 0)%Z (k mod 3 = 0)) by lia.
  rewrite (bool_decide_ext (Z.of_nat k `mod` 3 = 3 - 1)%Z (k mod 3 = 2)) by lia.
  destruct (bool_decide (k mod 3 = 0)), (bool_decide (k mod 3 = 2));
    rewrite !content_append, <- ?app_assoc; reflexivity.
Qed.

Lemma chunk_counts (t : string) (b0 b2 : bool) :
  let chunk := (if b0 then [row_div] else []) ++
               [col_div 4; markup.Text t; markup.Close "div"] ++
               (if b2 then [markup.Close "div"] else []) in
  count_item row_div chunk = (if b0 then 1 else 0)
  /\ count_item (col_div 4) chunk = 1
  /\ count_item (markup.Close "div") chunk = 1 + (if b2 then 1 else 0)
  /\ texts chunk = [t].
Proof. destruct b0, b2; vm_compute; done. Qed.

(** The loop from index [k] on: rows, columns, closing tags, images and
    the loop variable. *)
Lemma scaffold_fold (l : list FancyPlot) (k : nat) (st : scaffold_state) :
  let st' := fold_left (scaffold_iter 3 4) (enumerate_from k l) st in
  count_item row_div (markup.content st'.1)
    = count_item row_div (markup.content st.1) + ((k + length l + 2) / 3 - (k + 2) / 3)
  /\ count_item (col_div 4) (markup.content st'.1)
     = count_item (col_div 4) (markup.content st.1) + length l
  /\ count_item (markup.Close "div") (markup.content st'.1)
     = count_item (markup.Close "div") (markup.content st.1)
       + length l + ((k + length l) / 3 - k / 3)
  /\ texts (markup.content st'.1)
     = texts (markup.content st.1) ++ map (fun p => fancybox_img p [] []) l
  /\ st'.2 = match l with
             | [] => st.2
             | _ => Some (Z.of_nat (k + length l - 1))
             end.
Proof.
  revert k st. induction l as [|p l IH]; intros k st.
  - simpl. rewrite app_nil_r. repeat split; lia.
  - rewrite enumerate_from_cons. simpl fold_left.
    destruct (IH (S k) (scaffold_iter 3 4 st (Z.of_nat k, p)))
      as (Hrow & Hcol & Hclose & Htext & Hi).
    cbv zeta. rewrite Hrow, Hcol, Hclose, Htext, Hi.
    rewrite scaffold_iter_content.
    rewrite !(count_item_app _ (markup.content st.1)), (texts_app (markup.content st.1)).
    destruct (chunk_counts (fancybox_img p [] [])
                (bool_decide (k mod 3 = 0)) (bool_decide (k mod 3 = 2)))
      as (-> & -> & -> & ->).
    simpl length. repeat split.
    + case_bool_decide; lia.
    + lia.
    + case_bool_decide; lia.
    + by rewrite <- app_assoc.
    + destruct l; simpl; do 2 f_equal; lia.
Qed.

(** For one image or more the grid is as the specification says: a row
    container for every three images, one column per image, the images in
    order, and as many closing tags as containers opened. *)
Lemma scaffold_page_grid (plots : list FancyPlot) :
  plots <> [] ->
  exists page,
    scaffold_page plots 3 = Ok page
    /\ scaffold_plots plots 3 = Ok (markup.str page)
    /\ count_item row_div (markup.content page) = (length plots + 2) / 3
    /\ count_item (col_div 4) (markup.content page) = length plots
    /\ count_item (markup.Close "div") (markup.content page)
       = length plots + (length plots + 2) / 3
    /\ texts (markup.content page) = map (fun p => fancybox_img p [] []) plots.
Proof.
  intros Hne. unfold scaffold_plots, scaffold_page. simpl bool_decide. cbv iota.
  change (12 `div` 3)%Z with 4%Z.
  change (enumerate plots) with (enumerate_from 0 plots).
  destruct (scaffold_fold plots 0 (markup.new, None))
    as (Hrow & Hcol & Hclose & Htext & Hi).
  cbv zeta in *. simpl in Hi.
  destruct plots as [|p plots]; [done|]. rewrite Hi.
  eexists. split; [done|]. split; [done|].
  set (n := length (p :: plots)) in *.
  assert (0 < n) by (unfold n; simpl; lia).
  rewrite (bool_decide_ext (Z.of_nat (n - 1) `mod` 3 < 3 - 1)%Z ((n - 1) mod 3 < 2))
    by lia.
  case_bool_decide.
  - unfold markup.close.
    rewrite content_append, !count_item_app, texts_app, Hrow, Hcol, Hclose, Htext.
    change (count_item row_div [markup.Close "div"]) with 0.
    change (count_item (col_div 4) [markup.Close "div"]) with 0.
    change (count_item (markup.Close "div") [markup.Close "div"]) with 1.
    change (texts [markup.Close "div"]) with (@nil string).
    change (count_item _ (markup.content (markup.new, None).1)) with 0.
    rewrite app_nil_r. repeat split; lia.
  - rewrite Hrow, Hcol, Hclose, Htext.
    change (count_item _ (markup.content (markup.new, None).1)) with 0.
    repeat split; lia.
Qed.

(** C1: with no image the loop never binds its variable [i], and the test
    after the loop raises instead of returning an empty grid. *)
Theorem scaffold_plots_empty :
  scaffold_plots [] 3 = Raise (UnboundLocalError "i").
Proof. reflexivity. Qed.

(** Seven images: three rows, the last one holding one image and closed. *)
Example scaffold_seven :
  let plots := map (fun s => FancyPlot_init (ImgStr s) None)
                 ["a.png"; "b.png"; "c.png"; "d.png"; "e.png"; "f.png"; "g.png"] in
  exists page,
    scaffold_page plots 3 = Ok page
    /\ count_item row_div (markup.content page) = 3
    /\ count_item (col_div 4) (markup.content page) = 7
    /\ count_item (markup.Close "div") (markup.content page) = 10
    /\ last (markup.content page) = Some (markup.Close "div").
Proof. eexists. by vm_compute. Qed.

End grid.

(** ** The state monad *)

Section monad.

Context {A B : Type}.

Lemma bind_ok (m : M A) (k : A -> M B) (w w' : world) (a : A) :
  m w = (Ok a, w') -> bind m k w = k a w'.
Proof. intros H. unfold bind. by rewrite H. Qed.

End monad.

Lemma wrote_app (l1 l2 : list (string * string)) (w0 w1 w2 : world) :
  wrote l1 w0 w1 -> wrote l2 w1 w2 -> wrote (l1 ++ l2) w0 w2.
Proof.
  intros [Hw1 Hf1] [Hw2 Hf2]. split.
  - by rewrite Hw2, Hw1, fmap_app, app_assoc.
  - by rewrite Hf2, Hf1, fold_left_app.
Qed.

(** ** The static assets *)

Section static.

Variable E : env.

(** One call, whatever the environment allows: an asset is written and
    registered when it is not registered yet and everything before it
    succeeded. *)
Lemma write_static_files_effect (static : string) (w : world) :
  let omegacss := posixpath.join static "omega.css" in
  let omegajs := posixpath.join static "omega.js" in
  let dir_ok := bool_decide (static ∈ dirs w) || may_mkdir E static in
  let do_css := dir_ok && negb (bool_decide (omegacss ∈ CSS_FILES w))
                && may_write E omegacss in
  let css_ok := dir_ok && (bool_decide (omegacss ∈ CSS_FILES w) || may_write E omegacss) in
  let do_js := css_ok && negb (bool_decide (omegajs ∈ JS_FILES w))
               && may_write E omegajs in
  let all_ok := css_ok && (bool_decide (omegajs ∈ JS_FILES w) || may_write E omegajs) in
  let r := write_static_files E static w in
  wrote ((if do_css then [(omegacss, OMEGA_CSS)] else [])
         ++ (if do_js then [(omegajs, OMEGA_JS)] else [])) w r.2
  /\ CSS_FILES r.2 = CSS_FILES w ++ (if do_css then [omegacss] else [])
  /\ JS_FILES r.2 = JS_FILES w ++ (if do_js then [omegajs] else [])
  /\ (if all_ok then r.1 = Ok (omegacss, omegajs) else exists e, r.1 = Raise e)
  /\ dirs r.2 = (if bool_decide (static ∈ dirs w) then dirs w
                 else if may_mkdir E static then {[static]} ∪ dirs w else dirs w).
Proof.
  cbv zeta.
  unfold write_static_files, bind, isdir, when, makedirs, get_CSS_FILES, get_JS_FILES,
    open_w, fwrite, CSS_FILES_append, JS_FILES_append, ret, wrote.
  set (omegacss := posixpath.join static "omega.css").
  set (omegajs := posixpath.join static "omega.js").
  destruct (bool_decide (static ∈ dirs w)), (may_mkdir E static) eqn:Hmk; simpl;
  destruct (bool_decide (omegacss ∈ CSS_FILES w)), (may_write E omegacss) eqn:Hwc; simpl;
  destruct (bool_decide (omegajs ∈ JS_FILES w)), (may_write E omegajs) eqn:Hwj; simpl.
  all: rewrite ?lookup_insert_eq; simpl default.
  all: rewrite ?app_nil_l_s, ?insert_insert_eq, ?app_nil_r, <- ?app_assoc.
  all: repeat split; eauto.
Qed.

(** A call in an environment that lets it write. *)
Lemma write_static_files_run (static : string) (w : world) :
  permissive E ->
  exists w',
    write_static_files E static w
      = (Ok (posixpath.join static "omega.css", posixpath.join static "omega.js"), w')
    /\ wrote (new_css static w ++ new_js static w) w w'
    /\ CSS_FILES w' = CSS_FILES w ++ (new_css static w).*1
    /\ JS_FILES w' = JS_FILES w ++ (new_js static w).*1.
Proof.
  intros [Hw Hd].
  pose proof (write_static_files_effect static w) as H. cbv zeta in H.
  rewrite !Hw, !Hd, !orb_true_r, !andb_true_r in H. simpl in H.
  destruct H as (Hwrote & Hcss & Hjs & Hres & _).
  destruct (write_static_files E static w) as [r w'] eqn:Hrun. simpl in *. subst r.
  exists w'. split; [done|]. unfold new_css, new_js.
  destruct (bool_decide (posixpath.join static "omega.css" ∈ CSS_FILES w)),
           (bool_decide (posixpath.join static "omega.js" ∈ JS_FILES w)); done.
Qed.

(** C3: two calls with the same directory open each asset file for
    writing once and return the same pair of paths; in any state and
    environment a call adds to a registry at most the path of its own
    directory, only when that path is not registered yet and its file was
    written, so a registry never holds a path twice. *)
Theorem write_static_files_twice (static : string) (w : world) :
  let omegacss := posixpath.join static "omega.css" in
  let omegajs := posixpath.join static "omega.js" in
  (static ∈ dirs w \/ may_mkdir E static = true) ->
  may_write E omegacss = true ->
  may_write E omegajs = true ->
  omegacss ∉ CSS_FILES w ->
  omegajs ∉ JS_FILES w ->
  (exists w1 w2,
     write_static_files E static w = (Ok (omegacss, omegajs), w1)
     /\ write_static_files E static w1 = (Ok (omegacss, omegajs), w2)
     /\ written w1 = written w ++ [omegacss; omegajs]
     /\ written w2 = written w1
     /\ files w1 = <[omegajs := OMEGA_JS]> (<[omegacss := OMEGA_CSS]> (files w))
     /\ files w2 = files w1
     /\ CSS_FILES w1 = CSS_FILES w ++ [omegacss] /\ CSS_FILES w2 = CSS_FILES w1
     /\ JS_FILES w1 = JS_FILES w ++ [omegajs] /\ JS_FILES w2 = JS_FILES w1)
  /\ (forall (d : string) (w0 : world),
        let r := write_static_files E d w0 in
        let css := posixpath.join d "omega.css" in
        let js := posixpath.join d "omega.js" in
        (CSS_FILES r.2 = CSS_FILES w0
         \/ (CSS_FILES r.2 = CSS_FILES w0 ++ [css]
             /\ (css ∉ CSS_FILES w0) /\ may_write E css = true /\ (css ∈ written r.2)))
        /\ (JS_FILES r.2 = JS_FILES w0
            \/ (JS_FILES r.2 = JS_FILES w0 ++ [js]
                /\ (js ∉ JS_FILES w0) /\ may_write E js = true /\ (js ∈ written r.2)))
        /\ (NoDup (CSS_FILES w0) -> NoDup (CSS_FILES r.2))
        /\ (NoDup (JS_FILES w0) -> NoDup (JS_FILES r.2))).
Proof.
  intros omegacss omegajs Hdir Hwc Hwj Hc Hj. split.
  - pose proof (write_static_files_effect static w) as H1. cbv zeta in H1.
    fold omegacss omegajs in H1.
    assert (bool_decide (static ∈ dirs w) || may_mkdir E static = true) as Hd.
    { destruct Hdir as [Hdir| ->]; [|apply orb_true_r].
      by rewrite bool_decide_eq_true_2. }
    rewrite Hd, Hwc, Hwj, !(bool_decide_eq_false_2 _ Hc), !(bool_decide_eq_false_2 _ Hj)
      in H1.
    simpl in H1. destruct H1 as ([Hw1 Hf1] & Hc1 & Hj1 & Hr1 & Hd1).
    destruct (write_static_files E static w) as [r1 w1] eqn:Hrun1. simpl in *. subst r1.
    pose proof (write_static_files_effect static w1) as H2. cbv zeta in H2.
    fold omegacss omegajs in H2.
    assert (bool_decide (static ∈ dirs w1) = true) as Hd2.
    { apply bool_decide_eq_true_2. rewrite Hd1.
      destruct (decide (static ∈ dirs w)) as [Hin|Hout].
      - by rewrite bool_decide_eq_true_2.
      - rewrite bool_decide_eq_false_2 by done.
        destruct Hdir as [?| ->]; [done|]. apply elem_of_union_l. by apply elem_of_singleton. }
    assert (bool_decide (omegacss ∈ CSS_FILES w1) = true) as Hc2.
    { apply bool_decide_eq_true_2. rewrite Hc1. apply elem_of_app. right. by left. }
    assert (bool_decide (omegajs ∈ JS_FILES w1) = true) as Hj2.
    { apply bool_decide_eq_true_2. rewrite Hj1. apply elem_of_app. right. by left. }
    rewrite Hd2, Hc2, Hj2 in H2. simpl in H2.
    destruct H2 as ([Hw2 Hf2] & Hc2' & Hj2' & Hr2 & _).
    destruct (write_static_files E static w1) as [r2 w2] eqn:Hrun2. simpl in *. subst r2.
    exists w1, w2. rewrite app_nil_r in *. done.
  - clear dependent w. intros d w0 r css js.
    pose proof (write_static_files_effect d w0) as H. cbv zeta in H.
    fold css js r in H. destruct H as ([Hw _] & Hcss & Hjs & _ & _).
    revert Hw Hcss Hjs.
    set (do_css := _ && negb (bool_decide (css ∈ CSS_FILES w0)) && may_write E css).
    set (do_js := _ && negb (bool_decide (js ∈ JS_FILES w0)) && may_write E js).
    intros Hw Hcss Hjs.
    assert (do_css = true -> (css ∉ CSS_FILES w0) /\ may_write E css = true) as Hdc.
    { unfold do_css. rewrite !andb_true_iff, negb_true_iff, bool_decide_eq_false. tauto. }
    assert (do_js = true -> (js ∉ JS_FILES w0) /\ may_write E js = true) as Hdj.
    { unfold do_js. rewrite !andb_true_iff, negb_true_iff, bool_decide_eq_false. tauto. }
    clearbody do_css do_js. repeat split.
    + destruct do_css; [right|left; by rewrite Hcss, app_nil_r].
      destruct Hdc as [? ?]; [done|]. repeat split; try done.
      rewrite Hw. simpl. apply elem_of_app. right. by left.
    + destruct do_js; [right|left; by rewrite Hjs, app_nil_r].
      destruct Hdj as [? ?]; [done|]. repeat split; try done.
      rewrite Hw, fmap_app. apply elem_of_app. right. apply elem_of_app. right. by left.
    + intros Hnd. rewrite Hcss. destruct do_css; [|by rewrite app_nil_r].
      destruct Hdc as [Hout _]; [done|].
      apply NoDup_app. split; [done|]. split; [|apply NoDup_singleton].
      by intros x Hx ->%list_elem_of_singleton.
    + intros Hnd. rewrite Hjs. destruct do_js; [|by rewrite app_nil_r].
      destruct Hdj as [Hout _]; [done|].
      apply NoDup_app. split; [done|]. split; [|apply NoDup_singleton].
      by intros x Hx ->%list_elem_of_singleton.
Qed.

End static.

Lemma write_static_files_twice_witness :
  exists w1 w2,
    write_static_files demo_env "./static" demo_world
      = (Ok ("./static/omega.css", "./static/omega.js"), w1)
    /\ write_static_files demo_env "./static" w1
       = (Ok ("./static/omega.css", "./static/omega.js"), w2)
    /\ written w1 = ["./static/omega.css"; "./static/omega.js"]
    /\ written w2 = written w1
    /\ files w1 = <["./static/omega.js" := OMEGA_JS]>
                    (<["./static/omega.css" := OMEGA_CSS]> ∅)
    /\ files w2 = files w1
    /\ CSS_FILES w1 = CSS_FILES demo_world ++ ["./static/omega.css"]
    /\ CSS_FILES w2 = CSS_FILES w1
    /\ JS_FILES w1 = JS_FILES demo_world ++ ["./static/omega.js"]
    /\ JS_FILES w2 = JS_FILES w1.
Proof.
  refine (proj1 (write_static_files_twice demo_env "./static" demo_world _ _ _ _ _)).
  - by right.
  - reflexivity.
  - reflexivity.
  - apply (bool_decide_unpack _). by vm_compute.
  - apply (bool_decide_unpack _). by vm_compute.
Defined.

(** ** The page shell and its closer *)

Section shell.

Variable E : env.

Lemma fold_append (X : Type) (g : X -> markup.item) (l : list X) (p : markup.page) :
  fold_left (fun page x => markup.append (g x) page) l p
  = markup.Page (markup.header p) (markup.content p ++ map g l) (markup.footer p)
      (markup._full p).
Proof.
  revert p. induction l as [|x l IH]; intros p; simpl.
  - rewrite app_nil_r. by destruct p.
  - rewrite IH. simpl. by rewrite <- app_assoc.
Qed.

(** Whatever [init_page] returns is marked as a full document. *)
Lemma init_page_full (ifo gpstime : string) (css script : list string) (base : string)
    (kwargs : markup.attrs) (w w' : world) (page : markup.page) :
  init_page E ifo gpstime css script base kwargs w = (Ok page, w') ->
  markup._full page = true.
Proof.
  unfold init_page, bind, get_CSS_FILES, get_JS_FILES, ret.
  destruct (write_static_files E _ w) as [[pair|e] w1]; [|done].
  intros [= <- _].
  unfold markup.single, markup.elem, markup.close, markup.open.
  rewrite !(fold_append _ (fun f => markup.Single "link" _)).
  rewrite !(fold_append _ (fun f => markup.Elem "script" _ _)).
  rewrite !(fold_append _ (fun kv => markup.Elem kv.1 [] kv.2)).
  reflexivity.
Qed.

(** The head of the page links the two lists [link_list] computes from
    the registries and the lists of the caller. *)
Lemma init_page_content (ifo gpstime : string) (css script : list string) (base : string)
    (kwargs : markup.attrs) (w w' : world) (page : markup.page) :
  init_page E ifo gpstime css script base kwargs w = (Ok page, w') ->
  markup.header page = ["<!DOCTYPE HTML>"]
  /\ markup.content page =
       [markup.Open "html" [("lang", "en")]; markup.Open "head" [];
        markup.Single "base" [("href", base)]]
       ++ map (fun f => markup.Single "link"
                          [("href", f); ("rel", "stylesheet"); ("type", "text/css");
                           ("media", "all")])
              (link_list (CSS_FILES w') css)
       ++ map (fun f => markup.Elem "script" [("src", f); ("type", "text/javascript")]
                          EmptyString)
              (link_list (JS_FILES w') script)
       ++ map (fun kv => markup.Elem kv.1 [] kv.2) kwargs
       ++ [markup.Close "head"; markup.Open "body" [];
           markup.Open "div" [("class_", "container")];
           markup.Open "div" [("class_", "page-header"); ("role", "banner")];
           markup.Elem "h1" [] (ifo +:+ " Omega Scan");
           markup.Elem "h2" [] gpstime;
           markup.Close "div"; markup.Close "div";
           markup.Open "div" [("class_", "container")]].
Proof.
  unfold init_page, bind, get_CSS_FILES, get_JS_FILES, ret.
  destruct (write_static_files E _ w) as [[pair|e] w1]; [|done].
  intros [= <- <-].
  unfold markup.single, markup.elem, markup.close, markup.open.
  rewrite !(fold_append _ (fun f => markup.Single "link" _)).
  rewrite !(fold_append _ (fun f => markup.Elem "script" _ _)).
  rewrite !(fold_append _ (fun kv => markup.Elem kv.1 [] kv.2)).
  split; [done|]. simpl. by rewrite <- !app_assoc.
Qed.

Lemma init_page_run (ifo gpstime : string) (css script : list string) (base : string)
    (kwargs : markup.attrs) (w : world) :
  permissive E ->
  exists page w',
    init_page E ifo gpstime css script base kwargs w = (Ok page, w')
    /\ markup._full page = true
    /\ wrote (new_css staticdir w ++ new_js staticdir w) w w'
    /\ CSS_FILES w' = CSS_FILES w ++ (new_css staticdir w).*1
    /\ JS_FILES w' = JS_FILES w ++ (new_js staticdir w).*1.
Proof.
  intros HE.
  destruct (write_static_files_run E staticdir w HE) as (w' & Hrun & Hw & Hc & Hj).
  destruct (init_page E ifo gpstime css script base kwargs w) as [r w''] eqn:Hinit.
  pose proof Hinit as Hinit'.
  unfold init_page in Hinit.
  change (posixpath.join posixpath.curdir "static") with staticdir in Hinit.
  rewrite (bind_ok _ _ _ _ _ Hrun) in Hinit.
  unfold bind, get_CSS_FILES, get_JS_FILES, ret in Hinit.
  injection Hinit as <- <-.
  eexists _, w'. split; [done|]. split; [|done].
  eapply init_page_full. exact Hinit'.
Qed.

Lemma open_w_run (path : string) (w : world) :
  may_write E path = true -> open_w E path w = (Ok tt, opened path w).
Proof. intros H. unfold open_w. by rewrite H. Qed.

Lemma fwrite_opened (path data : string) (w : world) :
  fwrite path data (opened path w) = (Ok tt, put_file path data w).
Proof.
  unfold fwrite, opened, put_file. simpl.
  by rewrite lookup_insert_eq, insert_insert_eq.
Qed.

Lemma wrote_put_file (path data : string) (w : world) :
  wrote [(path, data)] w (put_file path data w).
Proof. done. Qed.

(** The page [close_page] writes for a page marked as a full document. *)
Lemma close_page_run (page : markup.page) (target : string) (about date : option string)
    (w : world) :
  may_write E target = true ->
  markup._full page = true ->
  let closed := markup.add (markup.str (write_footer E about date))
                  (markup.close "div" page) in
  close_page E page target about date w
  = (Ok closed, put_file target (markup.str closed) w).
Proof.
  intros Hw Hfull closed. unfold close_page.
  change (markup._full (markup.add _ (markup.close "div" page))) with (markup._full page).
  rewrite Hfull. cbn [negb].
  rewrite (bind_ok _ _ _ _ _ (open_w_run target w Hw)).
  by rewrite (bind_ok _ _ _ _ _ (fwrite_opened target _ w)).
Qed.


End shell.


(** ** The decorator *)

Section decorator.

Variable E : env.
Hypothesis HE : permissive E.

Lemma wrote_from (l : list (string * string)) (w w1 w' : world) :
  files w1 = files w -> written w1 = written w -> wrote l w1 w' -> wrote l w w'.
Proof. intros Hf Hw [H1 H2]. split; congruence. Qed.

Lemma new_assets_ext (static : string) (w w1 : world) :
  CSS_FILES w1 = CSS_FILES w -> JS_FILES w1 = JS_FILES w ->
  new_css static w1 = new_css static w /\ new_js static w1 = new_js static w.
Proof. intros Hc Hj. unfold new_css, new_js. by rewrite Hc, Hj. Qed.

(** [if not os.path.isdir(outdir): os.makedirs(outdir)] *)
Lemma ensure_dir_run {B : Type} (outdir : string) (k : M B) (w : world) :
  exists w1,
    (let* d := isdir outdir in when (negb d) (makedirs E outdir) >> k) w = k w1
    /\ files w1 = files w /\ written w1 = written w
    /\ CSS_FILES w1 = CSS_FILES w /\ JS_FILES w1 = JS_FILES w.
Proof.
  destruct HE as [_ Hd].
  unfold bind, isdir, when, makedirs, ret.
  destruct (bool_decide (outdir ∈ dirs w)); simpl; [by exists w|].
  rewrite Hd. by eexists.
Qed.

(** The shell, the inner content and the closing of one page. *)
Lemma page_tail_run (func : reader markup.page) (ifo gpstime title base outdir : string)
    (about : option string) (w : world) :
  returns func ->
  (truthy_opt about = true ->
   exists html, write_summary E ifo gpstime default_header default_tableclass = Ok html) ->
  let contentf := posixpath.join outdir "_inner.html" in
  let index := posixpath.join outdir "index.html" in
  exists inner page w',
    page_tail E func ifo gpstime title base outdir about w = (Ok index, w')
    /\ wrote (new_css staticdir w ++ new_js staticdir w
              ++ [(contentf, markup.str inner); (index, markup.str page)]) w w'
    /\ (exists w0, func w0 = Ok inner)
    /\ content_div ∈ markup.content page
    /\ loader contentf ∈ markup.content page
    /\ markup._full page = true
    /\ CSS_FILES w' = CSS_FILES w ++ (new_css staticdir w).*1
    /\ JS_FILES w' = JS_FILES w ++ (new_js staticdir w).*1.
Proof.
  intros Hfunc Hsum contentf index. destruct HE as [Hw Hd].
  destruct (init_page_run E ifo gpstime [] [] base [("title", title)] w HE)
    as (page0 & w1 & Hinit & Hfull & Hwrote & Hc & Hj).
  unfold page_tail. rewrite (bind_ok _ _ _ _ _ Hinit).
  assert (exists page1,
            (if truthy_opt about
             then match write_summary E ifo gpstime default_header default_tableclass with
                  | Ok html => ret (markup.add html page0)
                  | Raise e => raise e
                  end
             else ret page0) w1 = (Ok page1, w1)
            /\ markup._full page1 = true) as (page1 & Hpage1 & Hfull1).
  { destruct (truthy_opt about); [|by exists page0].
    destruct Hsum as [html ->]; [done|]. by eexists. }
  rewrite (bind_ok _ _ _ _ _ Hpage1).
  fold contentf index.
  rewrite (bind_ok _ _ _ _ _ (open_w_run E contentf w1 (Hw _))).
  destruct (Hfunc (opened contentf w1)) as [inner Hinner].
  assert (lift func (opened contentf w1) = (Ok inner, opened contentf w1)) as Hlift.
  { unfold lift. by rewrite Hinner. }
  rewrite (bind_ok _ _ _ _ _ Hlift).
  rewrite (bind_ok _ _ _ _ _ (fwrite_opened contentf _ w1)).
  erewrite bind_ok; [|by apply close_page_run].
  eexists inner, _, _. split; [reflexivity|].
  split.
  { rewrite (app_assoc (new_css staticdir w) (new_js staticdir w)).
    eapply wrote_app; [exact Hwrote|].
    split; [simpl; by rewrite <- app_assoc|reflexivity]. }
  split; [eauto|].
  unfold markup.add, markup.close, markup.elem.
  rewrite !content_append, !elem_of_app, !list_elem_of_singleton.
  unfold content_div, loader. tauto.
Qed.

Lemma decorated_func_unfold (n : nat) (func : reader markup.page) (ifo gpstime : string)
    (kwargs : options) :
  decorated_func E (S n) func ifo gpstime kwargs =
    let title := default (ifo +:+ " Qscan | " +:+ gpstime) (opt_title kwargs) in
    let base := default posixpath.curdir (opt_base kwargs) in
    let outdir := default base (opt_outdir kwargs) in
    let* d := isdir outdir in
    when (negb d) (makedirs E outdir) >>
    let* about :=
      match opt_config kwargs with
      | None => ret None
      | Some config =>
          let aboutdir := posixpath.join outdir "about" in
          let ibase :=
            if bool_decide (base = posixpath.curdir) then posixpath.pardir else base in
          let* about :=
            decorated_func E n (about_body E config) ifo gpstime
              (Options (Some title) (Some ibase) (Some aboutdir) None) in
          ret (Some (if bool_decide (posixpath.basename about = "index.html")
                     then str.drop_last 10 about else about))
      end in
    page_tail E func ifo gpstime title base outdir about.
Proof. reflexivity. Qed.

(** A call without the [config] option. *)
Lemma decorated_plain (n : nat) (func : reader markup.page) (ifo gpstime : string)
    (kwargs : options) (w : world) :
  returns func ->
  opt_config kwargs = None ->
  let outdir := resolved_outdir kwargs in
  let contentf := posixpath.join outdir "_inner.html" in
  let index := posixpath.join outdir "index.html" in
  exists inner page w',
    decorated_func E (S n) func ifo gpstime kwargs w = (Ok index, w')
    /\ wrote (new_css staticdir w ++ new_js staticdir w
              ++ [(contentf, markup.str inner); (index, markup.str page)]) w w'
    /\ (exists w0, func w0 = Ok inner)
    /\ content_div ∈ markup.content page
    /\ loader contentf ∈ markup.content page
    /\ markup._full page = true
    /\ CSS_FILES w' = CSS_FILES w ++ (new_css staticdir w).*1
    /\ JS_FILES w' = JS_FILES w ++ (new_js staticdir w).*1.
Proof.
  intros Hfunc Hconfig outdir contentf index.
  rewrite decorated_func_unfold, Hconfig. cbv zeta.
  fold (resolved_outdir kwargs). fold outdir.
  destruct (ensure_dir_run outdir
              (let* about := ret None in
               page_tail E func ifo gpstime
                 (default (ifo +:+ " Qscan | " +:+ gpstime) (opt_title kwargs))
                 (default posixpath.curdir (opt_base kwargs)) outdir about) w)
    as (w1 & -> & Hf & Hwr & Hc & Hj).
  unfold bind at 1, ret at 1.
  destruct (page_tail_run func ifo gpstime
              (default (ifo +:+ " Qscan | " +:+ gpstime) (opt_title kwargs))
              (default posixpath.curdir (opt_base kwargs)) outdir None w1 Hfunc)
    as (inner & page & w' & Hrun & Hwrote & Hin & Hdiv & Hload & Hfull & Hc' & Hj');
    [done|].
  destruct (new_assets_ext staticdir w w1 Hc Hj) as [Hnc Hnj].
  rewrite Hnc, Hnj, Hc, Hj in *.
  exists inner, page, w'. split; [done|].
  split; [by eapply wrote_from|]. done.
Qed.

Lemma new_assets_registered (w w1 : world) :
  CSS_FILES w1 = CSS_FILES w ++ (new_css staticdir w).*1 ->
  JS_FILES w1 = JS_FILES w ++ (new_js staticdir w).*1 ->
  new_css staticdir w1 = [] /\ new_js staticdir w1 = [].
Proof.
  intros Hc Hj. unfold new_css, new_js in *. split.
  - rewrite bool_decide_eq_true_2; [done|]. rewrite Hc.
    destruct (decide (posixpath.join staticdir "omega.css" ∈ CSS_FILES w)) as [Hin|Hout].
    + apply elem_of_app. by left.
    + rewrite bool_decide_eq_false_2 by done. apply elem_of_app. right. by left.
  - rewrite bool_decide_eq_true_2; [done|]. rewrite Hj.
    destruct (decide (posixpath.join staticdir "omega.js" ∈ JS_FILES w)) as [Hin|Hout].
    + apply elem_of_app. by left.
    + rewrite bool_decide_eq_false_2 by done. apply elem_of_app. right. by left.
Qed.

(** The number of nested calls does not depend on the fuel: a call
    without [config] makes none. *)
Lemma decorated_fuel_plain (n : nat) (func : reader markup.page) (ifo gpstime : string)
    (kwargs : options) :
  opt_config kwargs = None ->
  decorated_func E (S n) func ifo gpstime kwargs
  = decorated_func E 1 func ifo gpstime kwargs.
Proof. intros H. rewrite !decorated_func_unfold, H. reflexivity. Qed.

Lemma decorated_fuel (n : nat) (func : reader markup.page) (ifo gpstime : string)
    (kwargs : options) :
  decorated_func E (S (S n)) func ifo gpstime kwargs
  = decorated_func E 2 func ifo gpstime kwargs.
Proof.
  rewrite (decorated_func_unfold (S n)), (decorated_func_unfold 1).
  destruct (opt_config kwargs) as [config|]; [|reflexivity]. cbv zeta.
  by rewrite (decorated_fuel_plain n (about_body E config)).
Qed.

(** A decorated call, with or without [config]. *)
Lemma decorated_run (n : nat) (func : reader markup.page) (ifo gpstime : string)
    (kwargs : options) (w : world) :
  callable E func ifo gpstime kwargs ->
  let outdir := resolved_outdir kwargs in
  let contentf := posixpath.join outdir "_inner.html" in
  let index := posixpath.join outdir "index.html" in
  exists aw inner page w',
    decorated_func E (S (S n)) func ifo gpstime kwargs w = (Ok index, w')
    /\ wrote (new_css staticdir w ++ new_js staticdir w ++ aw
              ++ [(contentf, markup.str inner); (index, markup.str page)]) w w'
    /\ aw.*1 = about_paths kwargs
    /\ (exists w0, func w0 = Ok inner)
    /\ content_div ∈ markup.content page
    /\ loader contentf ∈ markup.content page
    /\ markup._full page = true
    /\ CSS_FILES w' = CSS_FILES w ++ (new_css staticdir w).*1
    /\ JS_FILES w' = JS_FILES w ++ (new_js staticdir w).*1.
Proof.
  intros [Hfunc Hcfg] outdir contentf index.
  destruct (opt_config kwargs) as [config|] eqn:Hconfig.
  - destruct Hcfg as [Habout Hsum].
    rewrite decorated_func_unfold, Hconfig. cbv zeta.
    fold (resolved_outdir kwargs). fold outdir.
    set (title := default (ifo +:+ " Qscan | " +:+ gpstime) (opt_title kwargs)).
    set (base := default posixpath.curdir (opt_base kwargs)).
    set (akw := Options (Some title) _ (Some (posixpath.join outdir "about")) None).
    match goal with
    | |- context [bind (isdir outdir) (fun d => bind _ (fun _ => ?k))] =>
        destruct (ensure_dir_run outdir k w) as (w1 & -> & Hf & Hwr & Hc & Hj)
    end.
    destruct (decorated_plain n (about_body E config) ifo gpstime akw w1 Habout eq_refl)
      as (ainner & apage & w2 & Hrun & Hwrote & _ & _ & _ & _ & Hc2 & Hj2).
    change (resolved_outdir akw) with (posixpath.join outdir "about") in *.
    erewrite bind_ok; [|by rewrite (bind_ok _ _ _ _ _ Hrun)].
    match goal with
    | |- context [page_tail E func ifo gpstime title base outdir ?a] =>
        destruct (page_tail_run func ifo gpstime title base outdir a w2 Hfunc)
          as (inner & page & w' & Hrun' & Hwrote' & Hin & Hdiv & Hload & Hfull & Hc' & Hj');
          [done|]
    end.
    destruct (new_assets_registered w1 w2 Hc2 Hj2) as [Hnc Hnj].
    rewrite Hnc, Hnj in *. simpl in Hwrote'. rewrite app_nil_r in *.
    destruct (new_assets_ext staticdir w w1 Hc Hj) as [Hnc1 Hnj1].
    rewrite Hnc1, Hnj1, Hc, Hj in *.
    eexists [_; _], inner, page, w'. split; [exact Hrun'|]. split.
    { eapply wrote_from; [exact Hf|exact Hwr|].
      rewrite !app_assoc. eapply wrote_app; [|exact Hwrote'].
      rewrite <- !app_assoc. exact Hwrote. }
    split.
    { unfold about_paths. rewrite Hconfig. reflexivity. }
    repeat split; try done; congruence.
  - destruct (decorated_plain (S n) func ifo gpstime kwargs w Hfunc Hconfig)
      as (inner & page & w' & Hrun & Hwrote & Hin & Hdiv & Hload & Hfull & Hc' & Hj').
    exists [], inner, page, w'. split; [done|]. split; [done|].
    split; [by unfold about_paths; rewrite Hconfig|]. done.
Qed.

End decorator.

(** ** The pages a decorated writer leaves on disk *)

Section pages.

Variable E : env.
Hypothesis HE : permissive E.

Lemma static_paths (w : world) :
  Forall (fun p => p = "./static/omega.css" \/ p = "./static/omega.js")
    ((new_css staticdir w).*1 ++ (new_js staticdir w).*1).
Proof.
  unfold new_css, new_js. apply Forall_app. split.
  - case_bool_decide; [constructor|]. constructor; [by left|constructor].
  - case_bool_decide; [constructor|]. constructor; [by right|constructor].
Qed.

Lemma count_occ_absent (l : list string) (x : string) :
  Forall (fun p => p <> x) l -> count_occ string_dec l x = 0.
Proof.
  intros H. apply count_occ_not_In. rewrite <- list_elem_of_In.
  intros Hin. rewrite Forall_forall in H. by apply (H x).
Qed.

Lemma filter_absent (P : string -> Prop) `{forall p, Decision (P p)} (l : list string) :
  Forall (fun p => ~ P p) l -> filter P l = [].
Proof.
  induction 1 as [|p l Hp _ IH]; [done|]. by rewrite filter_cons_False.
Qed.

Lemma endswith_both (p a b : string) :
  String.length b <= String.length a ->
  str.endswith p a = true -> str.endswith p b = true -> str.endswith a b = true.
Proof.
  intros Hlen [k ->]%endswith_spec Hb. by eapply endswith_app_short.
Qed.

Lemma fold_insert_notin (l : list (string * string)) (m : gmap string string)
    (p : string) :
  p ∉ l.*1 ->
  fold_left (fun m pd => <[pd.1 := pd.2]> m) l m !! p = m !! p.
Proof.
  revert m. induction l as [|[q d] l IH]; intros m Hp; [done|].
  simpl in *. apply not_elem_of_cons in Hp as [Hne Hp].
  rewrite IH by done. by rewrite lookup_insert_ne.
Qed.

(** The files of the pages are named [_inner.html] or [index.html]. *)
Lemma page_paths (kwargs : options) :
  let outdir := resolved_outdir kwargs in
  Forall (fun p => str.endswith p "_inner.html" = true
                   \/ str.endswith p "index.html" = true)
    (about_paths kwargs
     ++ [posixpath.join outdir "_inner.html"; posixpath.join outdir "index.html"]).
Proof.
  intros outdir. apply Forall_app. split.
  - unfold about_paths. destruct (opt_config kwargs); [|constructor].
    constructor; [left; apply join_endswith|].
    constructor; [right; apply join_endswith|constructor].
  - constructor; [left; apply join_endswith|].
    constructor; [right; apply join_endswith|constructor].
Qed.

Lemma page_paths_not_asset (kwargs : options) (p asset : string) :
  p ∈ about_paths kwargs
      ++ [posixpath.join (resolved_outdir kwargs) "_inner.html";
          posixpath.join (resolved_outdir kwargs) "index.html"] ->
  String.length asset <= 10 ->
  str.endswith "_inner.html" asset = false ->
  str.endswith "index.html" asset = false ->
  str.endswith p asset = false.
Proof.
  intros Hp Hlen H1 H2.
  pose proof (page_paths kwargs) as Hall. cbv zeta in Hall.
  rewrite Forall_forall in Hall. specialize (Hall p Hp).
  destruct (str.endswith p asset) eqn:Hends; [|done].
  destruct Hall as [Hi|Hi].
  - apply (endswith_both p _ asset) in Hi; [congruence|simpl; lia|done].
  - apply (endswith_both p _ asset) in Hi; [congruence|simpl; lia|done].
Qed.

(** C2, as the code has it: whatever the output directory, a decorated call
    writes the two asset files into [./static], relative to the working
    directory of the process, when they are not registered yet; it writes
    no other file named [omega.css] or [omega.js], and both paths are
    registered afterwards. *)
Theorem static_files_in_curdir (fuel : nat) (func : reader markup.page)
    (ifo gpstime : string) (kwargs : options) (w : world) :
  callable E func ifo gpstime kwargs ->
  2 <= fuel ->
  exists w' new,
    decorated_func E fuel func ifo gpstime kwargs w
      = (Ok (posixpath.join (resolved_outdir kwargs) "index.html"), w')
    /\ written w' = written w ++ new
    /\ ("./static/omega.css" ∉ CSS_FILES w ->
        count_occ string_dec new "./static/omega.css" = 1
        /\ files w' !! "./static/omega.css" = Some OMEGA_CSS)
    /\ ("./static/omega.js" ∉ JS_FILES w ->
        count_occ string_dec new "./static/omega.js" = 1
        /\ files w' !! "./static/omega.js" = Some OMEGA_JS)
    /\ (forall p, p ∈ new -> str.endswith p "omega.css" = true ->
                  p = "./static/omega.css")
    /\ (forall p, p ∈ new -> str.endswith p "omega.js" = true ->
                  p = "./static/omega.js")
    /\ "./static/omega.css" ∈ CSS_FILES w'
    /\ "./static/omega.js" ∈ JS_FILES w'.
Proof.
  intros Hcall Hfuel.
  destruct fuel as [|[|n]]; [lia|lia|].
  destruct (decorated_run E HE n func ifo gpstime kwargs w Hcall)
    as (aw & inner & page & w' & Hrun & [Hwr Hfiles] & Haw & _ & _ & _ & _ & Hc & Hj).
  set (tail := [(posixpath.join (resolved_outdir kwargs) "_inner.html", markup.str inner);
                (posixpath.join (resolved_outdir kwargs) "index.html", markup.str page)])
    in *.
  assert (forall p asset, p ∈ (aw ++ tail).*1 -> String.length asset <= 10 ->
            str.endswith "_inner.html" asset = false ->
            str.endswith "index.html" asset = false ->
            str.endswith p asset = false) as Hpages.
  { intros p asset Hp. rewrite fmap_app, Haw in Hp.
    by apply (page_paths_not_asset kwargs). }
  assert ("./static/omega.css" ∉ (aw ++ tail).*1) as Hcss_pages.
  { intros Hin. by specialize (Hpages _ "omega.css" Hin ltac:(simpl; lia) eq_refl eq_refl). }
  assert ("./static/omega.js" ∉ (aw ++ tail).*1) as Hjs_pages.
  { intros Hin. by specialize (Hpages _ "omega.js" Hin ltac:(simpl; lia) eq_refl eq_refl). }
  exists w', ((new_css staticdir w ++ new_js staticdir w ++ aw ++ tail).*1).
  split; [exact Hrun|]. split; [exact Hwr|].
  revert Hfiles Hc Hj. unfold new_css, new_js.
  change (posixpath.join staticdir "omega.css") with "./static/omega.css".
  change (posixpath.join staticdir "omega.js") with "./static/omega.js".
  intros Hfiles Hc Hj.
  destruct (decide ("./static/omega.css" ∈ CSS_FILES w)) as [Hcin|Hcout];
    [rewrite (bool_decide_eq_true_2 _ Hcin) in *
    |rewrite (bool_decide_eq_false_2 _ Hcout) in *];
  (destruct (decide ("./static/omega.js" ∈ JS_FILES w)) as [Hjin|Hjout];
    [rewrite (bool_decide_eq_true_2 _ Hjin) in *
    |rewrite (bool_decide_eq_false_2 _ Hjout) in *]);
  simpl app in *; simpl fold_left in Hfiles.
  all: repeat split; try done.
  all: try (rewrite Hc; apply elem_of_app; (by left) || (right; by left)).
  all: try (rewrite Hj; apply elem_of_app; (by left) || (right; by left)).
  all: try (rewrite !fmap_cons; simpl fst;
            repeat first [rewrite count_occ_cons_eq by done
                         |rewrite count_occ_cons_neq by done];
            f_equal; apply count_occ_not_In; by rewrite <- list_elem_of_In).
  all: try (rewrite Hfiles, fold_insert_notin by done;
            by rewrite ?lookup_insert_eq, ?lookup_insert_ne, ?lookup_insert_eq by done).
  all: intros p Hp Hends.
  all: repeat (rewrite fmap_cons in Hp; apply elem_of_cons in Hp as [->|Hp];
               [first [reflexivity|by vm_compute in Hends]|]).
  all: rewrite (Hpages p _ Hp) in Hends; [done|simpl; lia|done|done].
Qed.

(** C8, as the code has it: the null-result page for the reason
    [No significant channels] and the context [warning] is an [index.html]
    that loads [_inner.html] into its content placeholder, and
    [_inner.html] is an alert box of class [alert alert-warning] holding
    the reason in a paragraph.  The box is a plain alert: nothing in the
    fragment makes it dismissible. *)
Theorem null_page_alert (fuel : nat) (ifo gpstime : string) (kwargs : options)
    (w : world) :
  callable E (fun _ => Ok (null_body "No significant channels" "warning"))
    ifo gpstime kwargs ->
  2 <= fuel ->
  let outdir := resolved_outdir kwargs in
  let contentf := posixpath.join outdir "_inner.html" in
  let index := posixpath.join outdir "index.html" in
  exists w' html,
    write_null_page E fuel ifo gpstime "No significant channels" "warning" kwargs w
      = (Ok index, w')
    /\ files w' !! contentf = Some alert_fragment
    /\ files w' !! index = Some html
    /\ substring_of ("<div id=" +:+ str.dq +:+ "content" +:+ str.dq +:+ "></div>") html
    /\ substring_of ("<script>$('#content').load('" +:+ contentf +:+ "');</script>") html
    /\ markup.content (null_body "No significant channels" "warning")
       = [markup.Open "div" [("class_", "alert alert-warning")];
          markup.Elem "p" [] "No significant channels";
          markup.Close "div"]
    /\ alert_fragment
       = "<div class=" +:+ str.dq +:+ "alert alert-warning" +:+ str.dq +:+ ">" +:+ str.nl
         +:+ "<p>No significant channels</p>" +:+ str.nl +:+ "</div>"
    /\ str.contains alert_fragment "alert-warning" = true
    /\ str.contains alert_fragment "No significant channels" = true
    /\ str.contains alert_fragment "dismiss" = false.
Proof.
  intros Hcall Hfuel outdir contentf index. unfold write_null_page, wrap_html.
  destruct fuel as [|[|n]]; [lia|lia|].
  destruct (decorated_run E HE n _ ifo gpstime kwargs w Hcall)
    as (aw & inner & page & w' & Hrun & [_ Hfiles] & _ & [w0 Hinner] & Hdiv & Hload & _).
  fold outdir contentf index in Hrun, Hfiles, Hload.
  injection Hinner as <-.
  assert (contentf <> index) as Hci.
  { apply join_ne; [simpl; lia|done|done]. }
  rewrite !app_assoc, fold_left_app in Hfiles. simpl in Hfiles.
  exists w', (markup.str page). split; [exact Hrun|].
  split; [by rewrite Hfiles, lookup_insert_ne, lookup_insert_eq|].
  split; [by rewrite Hfiles, lookup_insert_eq|].
  split; [exact (str_item _ _ Hdiv)|].
  split; [|done].
  apply str_item in Hload.
  change (markup.render_item (loader contentf))
    with ("<script>" +:+ ("$('#content').load('" +:+ contentf +:+ "');") +:+ "</script>")
    in Hload.
  by rewrite !app_assoc_s in Hload.
Qed.

End pages.

(** ** The scenarios of the specification *)

Lemma demo_permissive : permissive demo_env.
Proof. by split. Qed.

Lemma demo_callable (func : reader markup.page) (ifo gpstime : string) :
  returns func -> callable demo_env func ifo gpstime out_options.
Proof. by split. Qed.

Lemma demo_callable_config (func : reader markup.page) :
  returns func -> callable demo_env func "H1" "1187008882" out_config_options.
Proof.
  intros Hfunc. split; [done|]. split.
  - intros w. by eexists.
  - by eexists.
Qed.

Lemma static_files_in_curdir_witness :
  exists w' new,
    write_null_page demo_env 2 "H1" "1187008882" "No significant channels" "warning"
      out_options demo_world = (Ok "out/index.html", w')
    /\ written w' = new
    /\ count_occ string_dec new "./static/omega.css" = 1
    /\ files w' !! "./static/omega.css" = Some OMEGA_CSS
    /\ count_occ string_dec new "./static/omega.js" = 1
    /\ files w' !! "./static/omega.js" = Some OMEGA_JS.
Proof.
  destruct (static_files_in_curdir demo_env demo_permissive 2
              (fun _ => Ok (null_body "No significant channels" "warning"))
              "H1" "1187008882" out_options demo_world)
    as (w' & new & Hrun & Hwr & Hcss & Hjs & _).
  - apply demo_callable. intros w. by eexists.
  - lia.
  - destruct Hcss as [Hc1 Hc2]; [apply (bool_decide_unpack _); by vm_compute|].
    destruct Hjs as [Hj1 Hj2]; [apply (bool_decide_unpack _); by vm_compute|].
    exists w', new. repeat split; done.
Defined.

(** The claim as the specification words it fails: with the output
    directory [out] the assets are in [./static], and nothing is written
    to [out/static]. *)
Lemma static_files_not_under_outdir :
  let r := write_null_page demo_env 2 "H1" "1187008882" "No significant channels"
             "warning" out_options demo_world in
  r.1 = Ok "out/index.html"
  /\ files r.2 !! posixpath.join (posixpath.join "out" "static") "omega.css" = None
  /\ files r.2 !! posixpath.join (posixpath.join "out" "static") "omega.js" = None
  /\ written r.2
     = ["./static/omega.css"; "./static/omega.js"; "out/_inner.html"; "out/index.html"]
  /\ files r.2 !! "./static/omega.css" = Some OMEGA_CSS
  /\ files r.2 !! "./static/omega.js" = Some OMEGA_JS.
Proof. by vm_compute. Qed.

Lemma null_page_alert_witness :
  exists w' html,
    write_null_page demo_env 2 "H1" "1187008882" "No significant channels" "warning"
      out_options demo_world = (Ok "out/index.html", w')
    /\ files w' !! "out/_inner.html" = Some alert_fragment
    /\ files w' !! "out/index.html" = Some html
    /\ substring_of "<script>$('#content').load('out/_inner.html');</script>" html.
Proof.
  destruct (null_page_alert demo_env demo_permissive 2 "H1" "1187008882" out_options
              demo_world)
    as (w' & html & Hrun & Hinner & Hindex & _ & Hload & _).
  - apply demo_callable. intros w. by eexists.
  - lia.
  - exists w', html. repeat split; done.
Defined.

(** The claim as the specification words it fails: the alert of the
    null-result page cannot be dismissed. *)
Lemma null_page_alert_not_dismissible :
  let r := write_null_page demo_env 2 "H1" "1187008882" "No significant channels"
             "warning" out_options demo_world in
  r.1 = Ok "out/index.html"
  /\ files r.2 !! "out/_inner.html" = Some alert_fragment
  /\ ~ dismissible alert_fragment.
Proof.
  split; [by vm_compute|]. split; [by vm_compute|].
  intros [H%contains_complete|H%contains_complete]; by vm_compute in H.
Qed.

(** ** More on the plot class *)

Section fancyplot_more.

Lemma after_last_sep_empty (p cur : string) :
  posixpath.after_last_sep p cur = EmptyString ->
  str.endswith p "/" = true \/ cur = EmptyString.
Proof.
  revert cur. induction p as [|c p IH]; intros cur; simpl; [by right|].
  case_bool_decide as Hc.
  - intros [H| ->]%IH; left.
    + by apply endswith_cons.
    + by subst c.
  - intros [H|H]%IH; [left; by apply endswith_cons|by right].
Qed.

(** A base name is empty exactly for the empty path and for paths that
    end with the separator. *)
Lemma basename_empty (p : string) :
  posixpath.basename p = EmptyString <->
  p = EmptyString \/ str.endswith p "/" = true.
Proof.
  split.
  - intros [H|H]%after_last_sep_empty; [by right|by left].
  - intros [->|[k ->]%endswith_spec]; [done|].
    unfold posixpath.basename.
    rewrite <- (app_nil_r_s "/"). apply after_last_sep_slash.
Qed.

(** X1: building a plot from a constructed plot without a caption gives the
    same plot back, and with a non-empty caption it replaces the caption
    only. *)
Theorem FancyPlot_copy (p : FancyPlot) :
  constructed p ->
  FancyPlot_init (ImgPlot p) None = p
  /\ FancyPlot_init (ImgPlot p) (Some EmptyString) = p
  /\ forall c, str.truthy c = true ->
       FancyPlot_init (ImgPlot p) (Some c) = mkFancyPlot (img p) c.
Proof.
  intros Hp.
  assert (FancyPlot_init (ImgPlot p) None = p) as Hcopy.
  { unfold FancyPlot_init. simpl.
    destruct (str.truthy (caption p)) eqn:Hc; [by destruct p|].
    rewrite <- (constructed_caption p Hp Hc). by destruct p. }
  split; [done|]. split; [done|].
  intros c Hc. unfold FancyPlot_init. simpl. by rewrite Hc, Hc.
Qed.

Lemma FancyPlot_copy_witness :
  let p := FancyPlot_init (ImgStr "plots/H1-STRAIN.png") None in
  FancyPlot_init (ImgPlot p) None = p
  /\ FancyPlot_init (ImgPlot p) (Some EmptyString) = p
  /\ forall c, str.truthy c = true ->
       FancyPlot_init (ImgPlot p) (Some c) = mkFancyPlot (img p) c.
Proof. intros p. exact (FancyPlot_copy p (constructed_str _ _)). Defined.

(** X2: the caption of a plot built from a file name is empty only when no
    caption is given and the name is empty or ends with the separator. *)
Theorem FancyPlot_caption_empty (s : string) (cap : option string) :
  caption (FancyPlot_init (ImgStr s) cap) = EmptyString <->
  truthy_opt cap = false /\ (s = EmptyString \/ str.endswith s "/" = true).
Proof.
  unfold FancyPlot_init. simpl. rewrite <- basename_empty.
  destruct cap as [c|]; simpl; [|tauto].
  destruct (str.truthy c) eqn:Hc; [|tauto].
  split; [|by intros [? _]]. intros ->. done.
Qed.

End fancyplot_more.

(** ** More on the lists of the page head *)

Section links_more.

Lemma link_fold_keeps (todo given : list string) (g : string) :
  g ∈ given -> g ∈ fold_left link_step todo given.
Proof.
  intros Hg. destruct (link_fold todo given) as (kept & -> & _).
  apply elem_of_app. by right.
Qed.

Lemma link_fold_represents (todo given : list string) :
  Forall (fun x => exists g, g ∈ fold_left link_step todo given
                            /\ str.endswith g (posixpath.basename x) = true) todo.
Proof.
  revert given. induction todo as [|x todo IH]; intros given; [constructor|].
  simpl. constructor; [|apply IH].
  destruct (link_step_cases given x) as [[Heq (g & Hg & Hends)]|[Heq _]]; rewrite Heq.
  - exists g. split; [by apply link_fold_keeps|done].
  - exists x. split; [apply link_fold_keeps; by left|apply endswith_basename].
Qed.

Lemma link_fold_blocked (todo l : list string) :
  Forall (fun x => exists g, g ∈ l /\ str.endswith g (posixpath.basename x) = true) todo ->
  fold_left link_step todo l = l.
Proof.
  induction 1 as [|x todo (g & Hg & Hends) _ IH]; [done|].
  simpl. by rewrite (link_step_blocked l x g).
Qed.

(** X3: for every baseline entry the final list holds an entry that ends with
    its base name, the caller list is the end of the final list, and
    running the loop again over the final list changes nothing. *)
Theorem link_list_represents (baseline given : list string) :
  Forall (fun x => exists g, g ∈ link_list baseline given
                            /\ str.endswith g (posixpath.basename x) = true) baseline
  /\ (given `suffix_of` link_list baseline given)
  /\ link_list baseline (link_list baseline given) = link_list baseline given.
Proof.
  assert (Forall (fun x => exists g, g ∈ link_list baseline given
                     /\ str.endswith g (posixpath.basename x) = true) (rev baseline))
    as Hrev by apply link_fold_represents.
  split; [|split].
  - rewrite Forall_forall in *. intros x Hx. apply Hrev.
    apply list_elem_of_In, in_rev. rewrite rev_involutive. by apply list_elem_of_In.
  - destruct (link_list_shape baseline given) as (kept & -> & _). by exists kept.
  - by apply link_fold_blocked.
Qed.

End links_more.

(** ** The grid for any row width *)

Section grid_more.

Local Open Scope Z_scope.

Lemma nesting_app (c d : list markup.item) (s s' : list string) :
  nesting c s = Some s' -> nesting (c ++ d) s = nesting d s'.
Proof.
  revert s. induction c as [|it c IH]; intros s; simpl.
  - by intros [= ->].
  - destruct it as [tag kw|tag kw between|tag kw|tag|text]; try apply IH.
    destruct s as [|top s]; [done|]. case_bool_decide; [apply IH|done].
Qed.

Lemma mod_succ (n k : Z) :
  1 <= n -> 0 <= k -> ((k + 1) `mod` n = 0 <-> k `mod` n = n - 1).
Proof.
  intros Hn Hk.
  pose proof (Z.div_mod k n ltac:(lia)) as Hdiv.
  pose proof (Z.mod_pos_bound k n ltac:(lia)) as Hbound.
  split; intros H.
  - destruct (decide (k `mod` n = n - 1)) as [|Hne]; [done|].
    assert ((k + 1) `mod` n = k `mod` n + 1); [|lia].
    symmetry. apply (Z.mod_unique _ _ (k `div` n)); lia.
  - symmetry. apply (Z.mod_unique _ _ (k `div` n + 1)); lia.
Qed.

(** The items one iteration appends, for any row width. *)
Lemma scaffold_iter_items (n x i : Z) (p : FancyPlot) (st : scaffold_state) :
  markup.content (scaffold_iter n x st (i, p)).1 =
    markup.content st.1
    ++ (if bool_decide (i `mod` n = 0) then [row_div] else [])
    ++ [col_div x; markup.Text (fancybox_img p [] []); markup.Close "div"]
    ++ (if bool_decide (i `mod` n = n - 1) then [markup.Close "div"] else []).
Proof.
  unfold scaffold_iter, markup.add, markup.close. cbn [fst snd].
  destruct (bool_decide (i `mod` n = 0)), (bool_decide (i `mod` n = n - 1));
    rewrite !content_append, <- ?app_assoc; reflexivity.
Qed.

Lemma scaffold_fold_nesting (n x : Z) (l : list FancyPlot) (k : nat)
    (st : scaffold_state) :
  1 <= n ->
  nesting (markup.content st.1) []
    = Some (if bool_decide (Z.of_nat k `mod` n = 0) then [] else ["div"]) ->
  let st' := fold_left (scaffold_iter n x) (enumerate_from k l) st in
  nesting (markup.content st'.1) []
    = Some (if bool_decide (Z.of_nat (k + length l) `mod` n = 0) then [] else ["div"])
  /\ texts (markup.content st'.1)
     = texts (markup.content st.1) ++ map (fun p => fancybox_img p [] []) l
  /\ st'.2 = match l with
             | [] => st.2
             | _ => Some (Z.of_nat (k + length l - 1))
             end.
Proof.
  intros Hn. revert k st. induction l as [|p l IH]; intros k st Hst.
  - simpl. rewrite Nat.add_0_r, app_nil_r. done.
  - rewrite enumerate_from_cons. simpl fold_left.
    destruct (IH (S k) (scaffold_iter n x st (Z.of_nat k, p))) as (Hnest & Htext & Hi).
    + rewrite scaffold_iter_items, (nesting_app _ _ _ _ Hst).
      rewrite (bool_decide_ext (Z.of_nat (S k) `mod` n = 0) (Z.of_nat k `mod` n = n - 1)).
      2:{ rewrite Nat2Z.inj_succ, <- Z.add_1_r. apply mod_succ; lia. }
      destruct (bool_decide (Z.of_nat k `mod` n = 0)),
               (bool_decide (Z.of_nat k `mod` n = n - 1)); reflexivity.
    + cbv zeta. rewrite Hnest, Htext, Hi. simpl length.
      replace (S k + length l)%nat with (k + S (length l))%nat by lia.
      split; [done|]. split.
      * rewrite scaffold_iter_items, !texts_app.
        destruct (bool_decide (Z.of_nat k `mod` n = 0)),
                 (bool_decide (Z.of_nat k `mod` n = n - 1));
          simpl; by rewrite <- ?app_assoc.
      * destruct l; simpl; do 2 f_equal; lia.
Qed.

(** X4: for any positive row width and at least one image the grid is well
    nested, every row and column it opens is closed, and it holds the
    images once each, in the order given. *)
Theorem scaffold_well_nested (plots : list FancyPlot) (n : Z) :
  1 <= n ->
  plots <> [] ->
  exists page,
    scaffold_page plots n = Ok page
    /\ scaffold_plots plots n = Ok (markup.str page)
    /\ nesting (markup.content page) [] = Some []
    /\ texts (markup.content page) = map (fun p => fancybox_img p [] []) plots.
Proof.
  intros Hn Hne. unfold scaffold_plots, scaffold_page.
  rewrite bool_decide_eq_false_2 by lia.
  change (enumerate plots) with (enumerate_from 0 plots).
  destruct (scaffold_fold_nesting n (12 `div` n) plots 0 (markup.new, None) Hn)
    as (Hnest & Htext & Hi).
  { by rewrite bool_decide_eq_true_2. }
  cbv zeta in *. simpl in Hi, Htext.
  destruct plots as [|p plots]; [done|]. rewrite Hi.
  eexists. split; [done|]. split; [done|].
  set (N := length (p :: plots)) in *.
  assert (0 < N)%nat by (unfold N; simpl; lia).
  change (0 + N)%nat with N in *.
  rewrite (bool_decide_ext (Z.of_nat N `mod` n = 0)
             (Z.of_nat (N - 1) `mod` n = n - 1)) in Hnest.
  2:{ replace (Z.of_nat N) with (Z.of_nat (N - 1) + 1) by lia.
      apply mod_succ; lia. }
  pose proof (Z.mod_pos_bound (Z.of_nat (N - 1)) n ltac:(lia)).
  destruct (decide (Z.of_nat (N - 1) `mod` n = n - 1)) as [Heq|Hneq].
  - rewrite (bool_decide_eq_true_2 _ Heq) in Hnest.
    rewrite bool_decide_eq_false_2 by lia. done.
  - rewrite (bool_decide_eq_false_2 _ Hneq) in Hnest.
    rewrite bool_decide_eq_true_2 by lia.
    unfold markup.close. rewrite content_append, (nesting_app _ _ _ _ Hnest), texts_app.
    split; [done|]. rewrite Htext. simpl. by rewrite app_nil_r.
Qed.

Lemma scaffold_well_nested_witness :
  let plots := map (fun s => FancyPlot_init (ImgStr s) None)
                 ["a.png"; "b.png"; "c.png"; "d.png"; "e.png"] in
  exists page,
    scaffold_page plots 2 = Ok page
    /\ scaffold_plots plots 2 = Ok (markup.str page)
    /\ nesting (markup.content page) [] = Some []
    /\ texts (markup.content page) = map (fun p => fancybox_img p [] []) plots.
Proof. intros plots. apply scaffold_well_nested; [lia|done]. Defined.

(** X5: a row width of zero is a division by zero whatever the images, and
    for any other width an empty list of images is the unbound loop
    variable. *)
Theorem scaffold_plots_errors :
  (forall plots, scaffold_plots plots 0 = Raise ZeroDivisionError)
  /\ (forall n, scaffold_plots [] n
                = Raise (if bool_decide (n = 0) then ZeroDivisionError
                         else UnboundLocalError "i")).
Proof.
  split; [done|]. intros n. unfold scaffold_plots, scaffold_page.
  by case_bool_decide.
Qed.

End grid_more.

(** ** Whole documents *)

Section documents.

Variable E : env.

Lemma nesting_neutral (l : list markup.item) (s : list string) :
  forallb neutral l = true -> nesting l s = Some s.
Proof.
  induction l as [|it l IH]; [done|]. simpl.
  intros [Hit Hl]%andb_true_iff. by destruct it; try done; apply IH.
Qed.

Lemma neutral_map {X : Type} (g : X -> markup.item) (l : list X) :
  (forall x, neutral (g x) = true) -> forallb neutral (map g l) = true.
Proof. intros Hg. induction l as [|x l IH]; [done|]. simpl. by rewrite Hg, IH. Qed.

Lemma fold_append_items (extra : list markup.item) (p : markup.page) :
  fold_left (fun page it => markup.append it page) extra p
  = markup.Page (markup.header p) (markup.content p ++ extra) (markup.footer p)
      (markup._full p).
Proof.
  revert p. induction extra as [|it extra IH]; intros p; simpl.
  - rewrite app_nil_r. by destruct p.
  - rewrite IH. simpl. by rewrite <- app_assoc.
Qed.

Lemma join_snoc (sep x : string) (l : list string) :
  l <> [] -> str.join sep (l ++ [x]) = str.join sep l +:+ sep +:+ x.
Proof.
  induction l as [|y l IH]; [done|]. intros _.
  destruct l as [|z l]; [done|].
  change (str.join sep ((y :: z :: l) ++ [x]))
    with (y +:+ sep +:+ str.join sep ((z :: l) ++ [x])).
  rewrite IH by done.
  change (str.join sep (y :: z :: l)) with (y +:+ sep +:+ str.join sep (z :: l)).
  by rewrite !app_assoc_s.
Qed.

(** The shell [init_page] opens leaves the container, the body and the
    document open. *)
Lemma init_page_nesting (ifo gpstime : string) (css script : list string) (base : string)
    (kwargs : markup.attrs) (w w' : world) (page : markup.page) :
  init_page E ifo gpstime css script base kwargs w = (Ok page, w') ->
  nesting (markup.content page) [] = Some ["div"; "body"; "html"]
  /\ markup.header page = ["<!DOCTYPE HTML>"]
  /\ markup.footer page = [].
Proof.
  intros Hinit.
  destruct (init_page_content E _ _ _ _ _ _ _ _ _ Hinit) as [Hhead Hcontent].
  split; [|split; [done|]].
  - rewrite Hcontent.
    rewrite (nesting_app _ _ [] ["head"; "html"]) by done.
    rewrite (nesting_app _ _ _ ["head"; "html"])
      by (apply nesting_neutral; by apply neutral_map).
    rewrite (nesting_app _ _ _ ["head"; "html"])
      by (apply nesting_neutral; by apply neutral_map).
    rewrite (nesting_app _ _ _ ["head"; "html"])
      by (apply nesting_neutral; by apply neutral_map).
    reflexivity.
  - revert Hinit. unfold init_page, bind, get_CSS_FILES, get_JS_FILES, ret.
    destruct (write_static_files E _ w) as [[pair|e] w1]; [|done].
    intros [= <- _].
    unfold markup.single, markup.elem, markup.close, markup.open.
    rewrite !(fold_append _ (fun f => markup.Single "link" _)).
    rewrite !(fold_append _ (fun f => markup.Elem "script" _ _)).
    rewrite !(fold_append _ (fun kv => markup.Elem kv.1 [] kv.2)).
    reflexivity.
Qed.

(** X6: a page opened by [init_page] with keyword arguments that name
    elements, filled with items that open and close nothing and closed by
    [close_page] is a well nested document: its items leave exactly [body]
    and [html] open, the page is marked full, and the file written ends
    with the two closing tags the serialiser adds for a full page. *)
Theorem document_well_nested (ifo gpstime : string) (css script : list string)
    (base : string) (kwargs : markup.attrs) (w : world) :
  permissive E ->
  element_keys kwargs ->
  exists page w1,
    init_page E ifo gpstime css script base kwargs w = (Ok page, w1)
    /\ forall (extra : list markup.item) (target : string) (about date : option string)
              (w2 : world),
         forallb neutral extra = true ->
         exists closed w3 doc,
           close_page E (fold_left (fun page it => markup.append it page) extra page)
             target about date w2 = (Ok closed, w3)
           /\ nesting (markup.content closed) [] = Some ["body"; "html"]
           /\ markup._full closed = true
           /\ files w3 !! target
              = Some (doc +:+ str.nl +:+ "</body>" +:+ str.nl +:+ "</html>").
Proof.
  intros HE _.
  destruct (init_page_run E ifo gpstime css script base kwargs w HE)
    as (page & w1 & Hinit & Hfull & _).
  exists page, w1. split; [done|].
  intros extra target about date w2 Hextra.
  destruct (init_page_nesting _ _ _ _ _ _ _ _ _ Hinit) as (Hnest & Hhead & Hfoot).
  rewrite fold_append_items.
  set (filled := markup.Page _ _ _ _).
  pose proof (close_page_run E filled target about date w2 (proj1 HE _) Hfull) as Hclose.
  cbv zeta in Hclose. rewrite Hclose.
  eexists _, _, _. split; [reflexivity|]. split; [|split; [done|]].
  - unfold markup.add, markup.close. rewrite !content_append. unfold filled. simpl.
    rewrite <- !app_assoc.
    rewrite (nesting_app _ _ _ _ Hnest).
    by rewrite (nesting_app _ _ _ ["div"; "body"; "html"]) by by apply nesting_neutral.
  - unfold put_file. simpl. rewrite lookup_insert_eq. f_equal.
    unfold markup.str. simpl markup._full. rewrite Hfull.
    simpl markup.header. simpl markup.footer. rewrite Hhead, Hfoot. simpl app.
    set (body := map markup.render_item _).
    assert ("<!DOCTYPE HTML>" :: body ++ ["</body>"; "</html>"]
            = (("<!DOCTYPE HTML>" :: body) ++ ["</body>"]) ++ ["</html>"]) as ->.
    { by rewrite <- app_assoc. }
    rewrite !join_snoc; [|done|by destruct body].
    rewrite app_assoc_s. reflexivity.
Qed.

End documents.

Lemma document_well_nested_witness :
  exists page w1,
    init_page demo_env "H1" "1187008882" [] [] "." [("title", "H1 Qscan")] demo_world
      = (Ok page, w1)
    /\ exists closed w3 doc,
         close_page demo_env
           (fold_left (fun page it => markup.append it page)
              [content_div; loader "out/_inner.html"] page)
           "out/index.html" None None w1 = (Ok closed, w3)
         /\ nesting (markup.content closed) [] = Some ["body"; "html"]
         /\ markup._full closed = true
         /\ files w3 !! "out/index.html"
            = Some (doc +:+ str.nl +:+ "</body>" +:+ str.nl +:+ "</html>").
Proof.
  destruct (document_well_nested demo_env "H1" "1187008882" [] [] "." [("title", "H1 Qscan")]
              demo_world demo_permissive) as (page & w1 & Hinit & Hclose).
  - constructor; [by left|constructor].
  - exists page, w1. split; [done|]. by apply Hclose.
Defined.

(** ** The decorator when something fails, and what the main page holds *)

Section decorator_more.

Variable E : env.
Hypothesis HE : permissive E.

Lemma substring_prefix (a b : string) :
  String.substring 0 (String.length a) (a +:+ b) = a.
Proof.
  induction a as [|c a IH]; [by destruct b|].
  rewrite app_cons_s. simpl. by rewrite IH.
Qed.

Lemma drop_last_app (a b : string) : str.drop_last (String.length b) (a +:+ b) = a.
Proof.
  unfold str.drop_last. rewrite length_app_s.
  replace (String.length a + String.length b - String.length b)
    with (String.length a) by lia.
  apply substring_prefix.
Qed.

(** The link to the about page: the path of its index without
    [index.html]. *)
Lemma about_value (outdir : string) :
  let about := posixpath.join (posixpath.join outdir "about") "index.html" in
  (if bool_decide (posixpath.basename about = "index.html")
   then str.drop_last 10 about else about)
  = posixpath.join outdir "about" +:+ "/".
Proof.
  intros about. rewrite bool_decide_eq_true_2 by by apply basename_join.
  unfold about. rewrite !join_relative by done. rewrite dirpart_about.
  rewrite (drop_last_app _ "index.html"). by rewrite app_assoc_s.
Qed.

Lemma about_value_truthy (outdir : string) :
  str.truthy (posixpath.join outdir "about" +:+ "/") = true.
Proof.
  rewrite join_relative by done. by destruct (dirpart outdir).
Qed.

(** Every way [page_tail] can end. *)
Lemma page_tail_cases (func : reader markup.page) (ifo gpstime title base outdir : string)
    (about : option string) (w : world) :
  let contentf := posixpath.join outdir "_inner.html" in
  let index := posixpath.join outdir "index.html" in
  exists page0 w1,
    init_page E ifo gpstime [] [] base [("title", title)] w = (Ok page0, w1)
    /\ wrote (new_css staticdir w ++ new_js staticdir w) w w1
    /\ CSS_FILES w1 = CSS_FILES w ++ (new_css staticdir w).*1
    /\ JS_FILES w1 = JS_FILES w ++ (new_js staticdir w).*1
    /\ page_tail E func ifo gpstime title base outdir about w =
       match (if truthy_opt about
              then match write_summary E ifo gpstime default_header default_tableclass with
                   | Ok html => Ok [markup.Text html]
                   | Raise e => Raise e
                   end
              else Ok []) with
       | Raise e => (Raise e, w1)
       | Ok summary =>
           match func (opened contentf w1) with
           | Raise e => (Raise e, opened contentf w1)
           | Ok inner =>
               let page :=
                 markup.Page (markup.header page0)
                   (markup.content page0 ++ summary
                    ++ [content_div; loader contentf; markup.Close "div";
                        markup.Text (markup.str (write_footer E about None))])
                   (markup.footer page0) true in
               (Ok index,
                put_file index (markup.str page) (put_file contentf (markup.str inner) w1))
           end
       end.
Proof.
  intros contentf index. destruct HE as [Hw Hd].
  destruct (init_page_run E ifo gpstime [] [] base [("title", title)] w HE)
    as (page0 & w1 & Hinit & Hfull & Hwrote & Hc & Hj).
  exists page0, w1. split; [done|]. split; [done|]. split; [done|]. split; [done|].
  unfold page_tail. rewrite (bind_ok _ _ _ _ _ Hinit). fold contentf index.
  destruct (truthy_opt about);
    [destruct (write_summary E ifo gpstime default_header default_tableclass)
       as [html|e]; [|done]|].
  all: unfold bind at 1, ret at 1.
  all: rewrite (bind_ok _ _ _ _ _ (open_w_run E contentf w1 (Hw _))).
  all: unfold bind at 1, lift at 1.
  all: destruct (func (opened contentf w1)) as [inner|e]; [|done].
  all: rewrite (bind_ok _ _ _ _ _ (fwrite_opened contentf _ w1)).
  all: erewrite bind_ok; [|by apply close_page_run].
  all: unfold ret; do 3 f_equal.
  all: unfold markup.add, markup.close, markup.elem, markup.append; simpl.
  all: rewrite Hfull, <- ?app_assoc; reflexivity.
Qed.

(** A decorated call up to the shell of its own page: the directory is
    there, and with [config] the about page is on disk and linked. *)
Lemma decorated_to_tail (n : nat) (func : reader markup.page) (ifo gpstime : string)
    (kwargs : options) (w : world) :
  match opt_config kwargs with
  | None => True
  | Some config => returns (about_body E config)
  end ->
  let title := default (ifo +:+ " Qscan | " +:+ gpstime) (opt_title kwargs) in
  let base := default posixpath.curdir (opt_base kwargs) in
  let outdir := resolved_outdir kwargs in
  exists pre w2,
    decorated_func E (S (S n)) func ifo gpstime kwargs w
    = page_tail E func ifo gpstime title base outdir (about_link kwargs) w2
    /\ wrote pre w w2
    /\ pre.*1 ++ (new_css staticdir w2).*1 ++ (new_js staticdir w2).*1
       = (new_css staticdir w).*1 ++ (new_js staticdir w).*1 ++ about_paths kwargs
    /\ CSS_FILES w2 ++ (new_css staticdir w2).*1
       = CSS_FILES w ++ (new_css staticdir w).*1
    /\ JS_FILES w2 ++ (new_js staticdir w2).*1
       = JS_FILES w ++ (new_js staticdir w).*1.
Proof.
  intros Habout title base outdir.
  rewrite decorated_func_unfold. cbv zeta.
  fold (resolved_outdir kwargs). fold outdir title base.
  unfold about_link, about_paths. fold outdir.
  destruct (opt_config kwargs) as [config|] eqn:Hconfig.
  - set (akw := Options (Some title) _ (Some (posixpath.join outdir "about")) None).
    match goal with
    | |- context [bind (isdir outdir) (fun d => bind _ (fun _ => ?k))] =>
        destruct (ensure_dir_run E HE outdir k w) as (w1 & -> & Hf & Hwr & Hc & Hj)
    end.
    destruct (decorated_plain E HE n (about_body E config) ifo gpstime akw w1 Habout eq_refl)
      as (ainner & apage & w2 & Hrun & Hwrote & _ & _ & _ & _ & Hc2 & Hj2).
    change (resolved_outdir akw) with (posixpath.join outdir "about") in *.
    erewrite bind_ok; [|by rewrite (bind_ok _ _ _ _ _ Hrun)].
    rewrite about_value.
    destruct (new_assets_registered w1 w2 Hc2 Hj2) as [Hnc Hnj].
    destruct (new_assets_ext staticdir w w1 Hc Hj) as [Hnc1 Hnj1].
    rewrite Hnc1, Hnj1, Hc, Hj in *.
    eexists _, w2. split; [reflexivity|]. split.
    { eapply wrote_from; [exact Hf|exact Hwr|exact Hwrote]. }
    rewrite Hnc, Hnj, Hc2, Hj2, !fmap_app. simpl. by rewrite !app_nil_r.
  - match goal with
    | |- context [bind (isdir outdir) (fun d => bind _ (fun _ => ?k))] =>
        destruct (ensure_dir_run E HE outdir k w) as (w1 & -> & Hf & Hwr & Hc & Hj)
    end.
    unfold bind at 1, ret at 1.
    destruct (new_assets_ext staticdir w w1 Hc Hj) as [Hnc1 Hnj1].
    exists [], w1. split; [reflexivity|]. split.
    { eapply wrote_from; [exact Hf|exact Hwr|]. split; simpl; by rewrite ?app_nil_r. }
    rewrite Hnc1, Hnj1, Hc, Hj. simpl. by rewrite !app_nil_r.
Qed.

Lemma about_ok_returns (ifo gpstime : string) (kwargs : options) :
  about_ok E ifo gpstime kwargs ->
  match opt_config kwargs with
  | None => True
  | Some config => returns (about_body E config)
  end.
Proof. unfold about_ok. destruct (opt_config kwargs); [by intros [? _]|done]. Qed.

Lemma about_ok_summary (ifo gpstime : string) (kwargs : options) :
  about_ok E ifo gpstime kwargs ->
  (if truthy_opt (about_link kwargs)
   then match write_summary E ifo gpstime default_header default_tableclass with
        | Ok html => Ok [markup.Text html]
        | Raise e => Raise e
        end
   else Ok [])
  = Ok match opt_config kwargs with
       | None => []
       | Some _ =>
           match write_summary E ifo gpstime default_header default_tableclass with
           | Ok html => [markup.Text html]
           | Raise _ => []
           end
       end.
Proof.
  unfold about_ok, about_link. destruct (opt_config kwargs); [|done].
  intros [_ [html Hsum]]. simpl. by rewrite about_value_truthy, Hsum.
Qed.

Lemma index_not_written (kwargs : options) (w : world) :
  let outdir := resolved_outdir kwargs in
  posixpath.join outdir "index.html"
  ∉ (new_css staticdir w).*1 ++ (new_js staticdir w).*1 ++ about_paths kwargs
    ++ [posixpath.join outdir "_inner.html"].
Proof.
  intros outdir. rewrite app_assoc. intros H.
  apply elem_of_app in H as [Hin|H]; [|apply elem_of_app in H as [Hin|Hin]].
  - pose proof (static_paths w) as Hst. rewrite Forall_forall in Hst.
    destruct (Hst _ Hin) as [Heq|Heq]; symmetry in Heq; revert Heq; by apply ne_join.
  - unfold about_paths in Hin. fold outdir in Hin.
    destruct (opt_config kwargs); [|by apply elem_of_nil in Hin].
    apply elem_of_cons in Hin as [Heq|Hin].
    + symmetry in Heq. revert Heq. apply join_ne; [simpl; lia|done|done].
    + apply list_elem_of_singleton in Hin. symmetry in Hin. by apply about_index_ne in Hin.
  - apply list_elem_of_singleton in Hin. symmetry in Hin. revert Hin.
    apply join_ne; [simpl; lia|done|done].
Qed.

Lemma decorated_raises (fuel : nat) (func : reader markup.page) (e : exn)
    (ifo gpstime : string) (kwargs : options) (w : world) :
  (forall w0, func w0 = Raise e) ->
  about_ok E ifo gpstime kwargs ->
  2 <= fuel ->
  let outdir := resolved_outdir kwargs in
  let contentf := posixpath.join outdir "_inner.html" in
  let index := posixpath.join outdir "index.html" in
  exists w' new,
    decorated_func E fuel func ifo gpstime kwargs w = (Raise e, w')
    /\ written w' = written w ++ new
    /\ new = (new_css staticdir w).*1 ++ (new_js staticdir w).*1 ++ about_paths kwargs
             ++ [contentf]
    /\ files w' !! contentf = Some EmptyString
    /\ index ∉ new.
Proof.
  intros Hraise Hok Hfuel outdir contentf index.
  destruct fuel as [|[|n]]; [lia|lia|].
  destruct (decorated_to_tail n func ifo gpstime kwargs w (about_ok_returns _ _ _ Hok))
    as (pre & w2 & -> & [Hwr _] & Hpaths & _).
  fold outdir in Hpaths |- *.
  match goal with
  | |- context [page_tail E func ifo gpstime ?t ?b outdir ?a w2] =>
      destruct (page_tail_cases func ifo gpstime t b outdir a w2)
        as (page0 & w1 & _ & [Hwr1 _] & _ & _ & ->)
  end.
  rewrite (about_ok_summary _ _ _ Hok), Hraise. fold contentf.
  assert (written w1 = written w ++ (new_css staticdir w).*1 ++ (new_js staticdir w).*1
                       ++ about_paths kwargs) as Hlog.
  { rewrite Hwr1, Hwr, fmap_app, <- !app_assoc. f_equal. exact Hpaths. }
  eexists (opened contentf w1), _. split; [reflexivity|].
  split; [|split; [reflexivity|split]].
  - simpl. rewrite Hlog. by rewrite <- !app_assoc.
  - simpl. by rewrite lookup_insert_eq.
  - apply index_not_written.
Qed.

(** X7: when the wrapped function raises, the decorated call raises the same
    exception after the static assets and the about page are written:
    [_inner.html] is left behind empty and [index.html] is not written. *)
Theorem wrap_html_func_raises (fuel : nat) (func : reader markup.page) (e : exn)
    (ifo gpstime : string) (kwargs : options) (w : world) :
  (forall w0, func w0 = Raise e) ->
  about_ok E ifo gpstime kwargs ->
  2 <= fuel ->
  let outdir := resolved_outdir kwargs in
  let contentf := posixpath.join outdir "_inner.html" in
  let index := posixpath.join outdir "index.html" in
  exists w' new,
    decorated_func E fuel func ifo gpstime kwargs w = (Raise e, w')
    /\ written w' = written w ++ new
    /\ new = (new_css staticdir w).*1 ++ (new_js staticdir w).*1 ++ about_paths kwargs
             ++ [contentf]
    /\ files w' !! contentf = Some EmptyString
    /\ index ∉ new.
Proof. exact (decorated_raises fuel func e ifo gpstime kwargs w). Qed.

(** X8: with [config] and an observatory code the summary does not know, the
    about page is written in full and the call then raises the lookup
    error before any file of the main page is opened; without [config] the
    same code is never looked up and the call returns. *)
Theorem wrap_html_unknown_observatory (fuel : nat) (func : reader markup.page)
    (ifo gpstime : string) (kwargs : options) (w : world) :
  ifo ∉ observatories.*1 ->
  returns func ->
  match opt_config kwargs with
  | None => True
  | Some config => returns (about_body E config)
  end ->
  2 <= fuel ->
  let outdir := resolved_outdir kwargs in
  exists w',
    written w' = written w ++ (new_css staticdir w).*1 ++ (new_js staticdir w).*1
                 ++ about_paths kwargs
                 ++ match opt_config kwargs with
                    | None => [posixpath.join outdir "_inner.html";
                               posixpath.join outdir "index.html"]
                    | Some _ => []
                    end
    /\ decorated_func E fuel func ifo gpstime kwargs w
       = (match opt_config kwargs with
          | None => Ok (posixpath.join outdir "index.html")
          | Some _ => Raise (KeyError ifo)
          end, w').
Proof.
  intros Hifo Hfunc Habout Hfuel outdir.
  destruct fuel as [|[|n]]; [lia|lia|].
  destruct (decorated_to_tail n func ifo gpstime kwargs w Habout)
    as (pre & w2 & -> & [Hwr _] & Hpaths & _).
  fold outdir in Hpaths |- *.
  match goal with
  | |- context [page_tail E func ifo gpstime ?t ?b outdir ?a w2] =>
      destruct (page_tail_cases func ifo gpstime t b outdir a w2)
        as (page0 & w1 & _ & [Hwr1 _] & _ & _ & ->)
  end.
  unfold about_link, about_paths in *. fold outdir in Hpaths |- *.
  destruct (opt_config kwargs) as [config|].
  - simpl truthy_opt. rewrite about_value_truthy.
    assert (write_summary E ifo gpstime default_header default_tableclass
            = Raise (KeyError ifo)) as ->.
    { unfold write_summary, summary_page.
      by rewrite (observatory_lookup_None ifo Hifo). }
    eexists. split; [|reflexivity].
    rewrite Hwr1, Hwr, app_nil_r, fmap_app, <- !app_assoc. f_equal. exact Hpaths.
  - simpl truthy_opt. cbv iota.
    destruct (Hfunc (opened (posixpath.join outdir "_inner.html") w1)) as [inner ->].
    eexists. split; [|reflexivity].
    assert (written w1 = written w ++ (new_css staticdir w).*1
                         ++ (new_js staticdir w).*1 ++ []) as Hlog.
    { rewrite Hwr1, Hwr, fmap_app, <- !app_assoc. f_equal. exact Hpaths. }
    simpl. rewrite Hlog. by rewrite <- !app_assoc.
Qed.

(** X9: the main page of a decorated call: the shell of [init_page], then the
    analysis summary only when [config] is given, the placeholder and the
    loader of [_inner.html], the end of the container and the footer.  The
    footer links the about page, by the name of its directory, exactly
    when [config] is given. *)
Theorem wrap_html_main_page (fuel : nat) (func : reader markup.page)
    (ifo gpstime : string) (kwargs : options) (w : world) :
  callable E func ifo gpstime kwargs ->
  2 <= fuel ->
  let title := default (ifo +:+ " Qscan | " +:+ gpstime) (opt_title kwargs) in
  let base := default posixpath.curdir (opt_base kwargs) in
  let outdir := resolved_outdir kwargs in
  let contentf := posixpath.join outdir "_inner.html" in
  let index := posixpath.join outdir "index.html" in
  let footer := write_footer E (about_link kwargs) None in
  exists page0 inner page summary w',
    decorated_func E fuel func ifo gpstime kwargs w = (Ok index, w')
    /\ files w' !! index = Some (markup.str page)
    /\ files w' !! contentf = Some (markup.str inner)
    /\ (exists w0, func w0 = Ok inner)
    /\ (exists wa wb,
          init_page E ifo gpstime [] [] base [("title", title)] wa = (Ok page0, wb))
    /\ markup.content page
       = markup.content page0 ++ summary
         ++ [content_div; loader contentf; markup.Close "div";
             markup.Text (markup.str footer)]
    /\ match opt_config kwargs with
       | None => summary = []
       | Some _ =>
           exists html,
             write_summary E ifo gpstime default_header default_tableclass = Ok html
             /\ summary = [markup.Text html]
       end
    /\ markup.content footer
       = [markup.Open "footer" [("class_", "footer")];
          markup.Open "div" [("class_", "container")];
          markup.Elem "p" []
            ("Page generated using "
             +:+ markup.oneliner "a" ("GW-DetChar version " +:+ version E)
                   [("href", "https://github.com/ligovirgo/gwdetchar");
                    ("target", "_blank")]
             +:+ " by " +:+ getuser E +:+ " at " +:+ now E)]
         ++ match opt_config kwargs with
            | None => []
            | Some _ =>
                [markup.Elem "a" [("href", posixpath.join outdir "about" +:+ "/")]
                   "How was this page generated?"]
            end
         ++ [markup.Close "div"; markup.Close "footer"].
Proof.
  intros [Hfunc Hcfg] Hfuel title base outdir contentf index footer.
  assert (about_ok E ifo gpstime kwargs) as Hok by exact Hcfg.
  destruct fuel as [|[|n]]; [lia|lia|].
  destruct (decorated_to_tail n func ifo gpstime kwargs w (about_ok_returns _ _ _ Hok))
    as (pre & w2 & -> & _).
  fold title base outdir.
  destruct (page_tail_cases func ifo gpstime title base outdir (about_link kwargs) w2)
    as (page0 & w1 & Hinit & _ & _ & _ & ->).
  rewrite (about_ok_summary _ _ _ Hok). fold contentf index.
  destruct (Hfunc (opened contentf w1)) as [inner Hinner]. rewrite Hinner.
  assert (contentf <> index) as Hci.
  { apply join_ne; [simpl; lia|done|done]. }
  eexists page0, inner, _, _, _. split; [reflexivity|].
  split; [by simpl; rewrite lookup_insert_eq|].
  split; [by simpl; rewrite lookup_insert_ne, lookup_insert_eq|].
  split; [eauto|]. split; [eauto|]. split; [reflexivity|]. split.
  - unfold about_ok in Hok. destruct (opt_config kwargs); [|done].
    destruct Hok as [_ [html Hsum]]. rewrite Hsum. eauto.
  - unfold footer, about_link. fold outdir. by destruct (opt_config kwargs).
Qed.

End decorator_more.

Lemma wrap_html_func_raises_witness :
  exists w' new,
    decorated_func demo_env 2 (fun _ => Raise (UnboundLocalError "i")) "H1" "1187008882"
      out_options demo_world = (Raise (UnboundLocalError "i"), w')
    /\ written w' = new
    /\ new = ["./static/omega.css"; "./static/omega.js"; "out/_inner.html"]
    /\ files w' !! "out/_inner.html" = Some EmptyString
    /\ "out/index.html" ∉ new.
Proof.
  destruct (wrap_html_func_raises demo_env demo_permissive 2
              (fun _ => Raise (UnboundLocalError "i")) (UnboundLocalError "i")
              "H1" "1187008882" out_options demo_world)
    as (w' & new & Hrun & Hwr & Hnew & Hfile & Hindex); [done|done|lia|].
  exists w', new. repeat split; try done.
Defined.

Lemma wrap_html_unknown_observatory_witness :
  exists w',
    written w' = ["./static/omega.css"; "./static/omega.js";
                  "out/about/_inner.html"; "out/about/index.html"]
    /\ write_null_page demo_env 2 "X1" "1187008882" "No significant channels" "warning"
         out_config_options demo_world = (Raise (KeyError "X1"), w').
Proof.
  destruct (wrap_html_unknown_observatory demo_env demo_permissive 2
              (fun _ => Ok (null_body "No significant channels" "warning"))
              "X1" "1187008882" out_config_options demo_world)
    as (w' & Hwr & Hrun).
  - simpl. rewrite !not_elem_of_cons. repeat split; try discriminate.
    apply not_elem_of_nil.
  - intros w0. by eexists.
  - intros w0. by eexists.
  - lia.
  - exists w'. split; [exact Hwr|exact Hrun].
Defined.

Lemma wrap_html_main_page_witness :
  exists page w',
    write_null_page demo_env 2 "H1" "1187008882" "No significant channels" "warning"
      out_config_options demo_world = (Ok "out/index.html", w')
    /\ files w' !! "out/index.html" = Some (markup.str page)
    /\ markup.Elem "a" [("href", "out/about/")] "How was this page generated?"
       ∈ markup.content (write_footer demo_env (Some "out/about/") None)
    /\ markup.Text (markup.str (write_footer demo_env (Some "out/about/") None))
       ∈ markup.content page.
Proof.
  destruct (wrap_html_main_page demo_env demo_permissive 2
              (fun _ => Ok (null_body "No significant channels" "warning"))
              "H1" "1187008882" out_config_options demo_world)
    as (page0 & inner & page & summary & w' & Hrun & Hindex & _ & _ & _ & Hpage & _ & Hfoot).
  - apply demo_callable_config. intros w0. by eexists.
  - lia.
  - exists page, w'. split; [exact Hrun|]. split; [exact Hindex|]. split.
    + change (Some "out/about/") with (about_link out_config_options).
      rewrite Hfoot. simpl. repeat constructor.
    + change (Some "out/about/") with (about_link out_config_options).
      rewrite Hpage. rewrite !elem_of_app. right. right. repeat constructor.
Defined.

(** ** The table of contents and the blocks of channels *)

Section blocks.

Variable F : formats.

Lemma toc_fold (blocks : list OmegaChannelList) (k : nat) (page : markup.page) :
  markup.content
    (fold_left (fun page (ib : Z * OmegaChannelList) =>
       let block := ib.2 in
       let page := markup.open "li" [] page in
       let page := markup.elem "a" [("href", "#block-" +:+ block_key block);
                                      ("style", "font-size:18px;")]
                     (block_name block) page in
       markup.close "li" page) (enumerate_from k blocks) page)
  = markup.content page ++ flat_map toc_entry blocks.
Proof.
  revert k page. induction blocks as [|b blocks IH]; intros k page.
  - simpl. by rewrite app_nil_r.
  - rewrite enumerate_from_cons. cbn [fold_left flat_map]. rewrite IH.
    unfold markup.close, markup.elem, markup.open. rewrite !content_append.
    cbn [snd]. by rewrite <- !app_assoc.
Qed.

(** X10: the table of contents lists the blocks in the order given, one entry
    each that links the anchor [#block-<key>] under the name of the block,
    and it is well nested, also for no block at all. *)
Theorem write_toc_entries (blocks : list OmegaChannelList) :
  markup.content (toc_page blocks)
  = [markup.Open "div" [("class_", "container")];
     markup.Elem "h2" [] "Table of Contents"; markup.Open "ul" []]
    ++ flat_map toc_entry blocks
    ++ [markup.Close "ul"; markup.Close "div"]
  /\ nesting (markup.content (toc_page blocks)) [] = Some []
  /\ write_toc blocks = markup.str (toc_page blocks).
Proof.
  assert (markup.content (toc_page blocks)
          = [markup.Open "div" [("class_", "container")];
             markup.Elem "h2" [] "Table of Contents"; markup.Open "ul" []]
            ++ flat_map toc_entry blocks
            ++ [markup.Close "ul"; markup.Close "div"]) as Hcontent.
  { unfold toc_page. unfold markup.close at 1 2. rewrite !content_append.
    change (enumerate blocks) with (enumerate_from 0 blocks). rewrite toc_fold.
    simpl. by rewrite <- !app_assoc. }
  split; [done|]. split; [|done]. rewrite Hcontent.
  rewrite (nesting_app _ _ [] ["ul"; "div"]) by done.
  rewrite (nesting_app _ _ _ ["ul"; "div"]); [done|].
  clear Hcontent. generalize ["ul"; "div"].
  induction blocks as [|b blocks IH]; intros s; [done|].
  cbn [flat_map]. rewrite (nesting_app _ _ s s); [apply IH|].
  unfold toc_entry. cbn [nesting]. by rewrite bool_decide_eq_true_2.
Qed.

Lemma cis_link_plain (channel : string) :
  cis_link channel []
  = Ok (markup.oneliner "a" channel
          [("href", "https://cis.ligo.org/channel/byname/" +:+ channel);
           ("title", "CIS entry for " +:+ channel); ("style", cis_style);
           ("target", "_blank")]).
Proof. reflexivity. Qed.

Lemma scaffold_three (plots : list FancyPlot) :
  (plots = [] /\ scaffold_plots plots 3 = Raise (UnboundLocalError "i"))
  \/ (plots <> [] /\ exists grid, scaffold_plots plots 3 = Ok grid).
Proof.
  destruct plots as [|p plots]; [by left|]. right. split; [done|].
  destruct (scaffold_page_grid (p :: plots)) as (page & _ & H & _); [done|]. eauto.
Qed.

Lemma block_iter_cases (block : OmegaChannelList) (tableclass : string)
    (page : markup.page) (i : nat) (c : Channel) :
  (channel_plots c = []
   /\ block_iter F block tableclass page (Z.of_nat i, c) = Raise (UnboundLocalError "i"))
  \/ (channel_plots c <> []
      /\ exists grid page1 L,
           scaffold_plots (channel_plots c) 3 = Ok grid
           /\ block_iter F block tableclass page (Z.of_nat i, c) = Ok page1
           /\ markup.content page1 = markup.content page ++ L
           /\ (forall s, nesting L s = Some s)
           /\ texts L = [grid]
           /\ item_ids L = channel_ids (block_key block) i).
Proof.
  unfold block_iter. cbn [fst snd]. rewrite cis_link_plain.
  destruct (scaffold_three (channel_plots c)) as [[Hnil ->]|[Hne [grid ->]]];
    [by left|right].
  split; [done|]. eexists grid, _, _. split; [done|]. split; [reflexivity|].
  split.
  { unfold markup.close, markup.add, markup.elem, markup.open. cbn [fold_left].
    unfold markup.elem. rewrite !content_append, <- !app_assoc. cbn [app].
    reflexivity. }
  split; [intros s; reflexivity|]. split; reflexivity.
Qed.

Lemma block_fold (block : OmegaChannelList) (tableclass : string)
    (channels : list Channel) (k : nat) (page : markup.page) :
  match fold_result (block_iter F block tableclass) (enumerate_from k channels) page with
  | Ok page' =>
      Forall (fun c => channel_plots c <> []) channels
      /\ exists L,
           markup.content page' = markup.content page ++ L
           /\ (forall s, nesting L s = Some s)
           /\ Forall2 (fun c t => scaffold_plots (channel_plots c) 3 = Ok t)
                channels (texts L)
           /\ item_ids L
              = flat_map (channel_ids (block_key block)) (seq k (length channels))
  | Raise e =>
      e = UnboundLocalError "i" /\ Exists (fun c => channel_plots c = []) channels
  end.
Proof.
  revert k page. induction channels as [|c channels IH]; intros k page.
  - simpl. split; [constructor|]. exists []. rewrite app_nil_r.
    repeat split; constructor.
  - rewrite enumerate_from_cons. cbn [fold_result].
    destruct (block_iter_cases block tableclass page k c)
      as [[Hnil ->]|(Hne & grid & page1 & L1 & Hgrid & -> & Hc1 & Hn1 & Ht1 & Hi1)].
    + split; [done|]. by left.
    + specialize (IH (S k) page1).
      destruct (fold_result _ (enumerate_from (S k) channels) page1) as [page'|e].
      * destruct IH as (Hall & L & Hc & Hn & Ht & Hi). split; [by constructor|].
        exists (L1 ++ L). split; [by rewrite Hc, Hc1, app_assoc|]. split.
        { intros s. rewrite (nesting_app _ _ _ _ (Hn1 s)). apply Hn. }
        split.
        { rewrite texts_app, Ht1. by constructor. }
        unfold item_ids in *. rewrite omap_app, Hi1, Hi. reflexivity.
      * destruct IH as [-> Hex]. split; [done|]. by right.
Qed.

Lemma block_page_shape (block : OmegaChannelList) (tableclass : string) :
  match block_page F block tableclass with
  | Ok page =>
      plotted block
      /\ exists L,
           markup.content page
           = panel_head block ++ L ++ [markup.Close "div"; markup.Close "div"]
           /\ (forall s, nesting L s = Some s)
           /\ Forall2 (fun c t => scaffold_plots (channel_plots c) 3 = Ok t)
                (block_channels block) (texts L)
           /\ item_ids L
              = flat_map (channel_ids (block_key block))
                  (seq 0 (length (block_channels block)))
  | Raise e => e = UnboundLocalError "i" /\ unplotted block
  end.
Proof.
  unfold block_page. cbv zeta.
  change (enumerate (block_channels block))
    with (enumerate_from 0 (block_channels block)).
  match goal with
  | |- context [fold_result _ _ ?p] =>
      pose proof (block_fold block tableclass (block_channels block) 0 p) as H;
      assert (markup.content p = panel_head block) as Hhead by reflexivity;
      set (p0 := p) in *
  end.
  destruct (fold_result _ _ p0) as [page|e]; [|done].
  destruct H as (Hall & L & Hc & Hn & Ht & Hi). split; [done|].
  exists L. split; [|done].
  unfold markup.close. rewrite !content_append, Hc, Hhead.
  by rewrite <- !app_assoc.
Qed.

(** X11: a block is written exactly when every channel of it has a plot; a
    channel without plots makes the grid of plots fail on its unbound loop
    variable, and the block fails with it. *)
Theorem write_block_plots (block : OmegaChannelList) (tableclass : string) :
  match write_block F block tableclass with
  | Ok _ => plotted block
  | Raise e => e = UnboundLocalError "i" /\ unplotted block
  end.
Proof.
  unfold write_block. pose proof (block_page_shape block tableclass) as H.
  destruct (block_page F block tableclass) as [page|e]; [by destruct H|done].
Qed.

(** X12: the markup of a block whose channels all have plots: it is well
    nested, the panel carries the id [block-<key>], the two sections of the
    channel at position [i] carry the ids [<key>-<i>-summary] and
    [<key>-<i>-plots], and the raw fragments are the grids of the
    channels, one each, in order. *)
Theorem write_block_well_nested (block : OmegaChannelList) (tableclass : string) :
  plotted block ->
  exists page,
    block_page F block tableclass = Ok page
    /\ write_block F block tableclass = Ok (markup.str page)
    /\ nesting (markup.content page) [] = Some []
    /\ item_ids (markup.content page)
       = ("block-" +:+ block_key block)
         :: flat_map (channel_ids (block_key block))
              (seq 0 (length (block_channels block)))
    /\ Forall2 (fun c t => scaffold_plots (channel_plots c) 3 = Ok t)
         (block_channels block) (texts (markup.content page)).
Proof.
  intros Hall. unfold write_block.
  pose proof (block_page_shape block tableclass) as H.
  destruct (block_page F block tableclass) as [page|e].
  2:{ destruct H as [_ Hex]. apply Exists_exists in Hex as (c & Hc & Hnil).
      unfold plotted in Hall. rewrite Forall_forall in Hall. by destruct (Hall c Hc). }
  destruct H as (_ & L & Hc & Hn & Ht & Hi).
  exists page. split; [done|]. split; [done|]. rewrite Hc. split; [|split].
  - rewrite (nesting_app _ _ [] ["div"; "div"]) by done.
    by rewrite (nesting_app _ _ _ _ (Hn _)).
  - unfold item_ids in *. rewrite !omap_app, Hi.
    change (omap _ (panel_head block)) with ["block-" +:+ block_key block].
    simpl. by rewrite app_nil_r.
  - unfold texts in *. rewrite !omap_app. simpl. by rewrite app_nil_r.
Qed.

(** X13: every entry of the table of contents points at the panel of its
    block: the anchor it links is the id of the first element that the
    markup of the block opens. *)
Theorem toc_anchor_resolves (blocks : list OmegaChannelList) (block : OmegaChannelList)
    (tableclass : string) (page : markup.page) :
  block ∈ blocks ->
  block_page F block tableclass = Ok page ->
  exists id rest,
    item_ids (markup.content page) = id :: rest
    /\ markup.Elem "a" [("href", "#" +:+ id); ("style", "font-size:18px;")]
         (block_name block) ∈ markup.content (toc_page blocks).
Proof.
  intros Hin Hpage. pose proof (block_page_shape block tableclass) as H.
  rewrite Hpage in H. destruct H as (_ & L & Hc & _).
  exists ("block-" +:+ block_key block). eexists. split.
  - rewrite Hc. unfold item_ids. rewrite omap_app.
    change (omap _ (panel_head block)) with ["block-" +:+ block_key block].
    reflexivity.
  - unfold toc_page. unfold markup.close at 1 2. rewrite !content_append.
    change (enumerate blocks) with (enumerate_from 0 blocks). rewrite toc_fold.
    rewrite !elem_of_app. left. left. right.
    apply list_elem_of_In, in_flat_map. exists block.
    split; [by apply list_elem_of_In|]. right. by left.
Qed.

End blocks.

Lemma write_block_well_nested_witness :
  exists page,
    block_page demo_formats demo_block default_tableclass = Ok page
    /\ write_block demo_formats demo_block default_tableclass = Ok (markup.str page)
    /\ nesting (markup.content page) [] = Some []
    /\ item_ids (markup.content page) = ["block-k1"; "k1-0-summary"; "k1-0-plots"]
    /\ Forall2 (fun c t => scaffold_plots (channel_plots c) 3 = Ok t)
         (block_channels demo_block) (texts (markup.content page)).
Proof.
  apply (write_block_well_nested demo_formats demo_block default_tableclass).
  unfold plotted. simpl. repeat constructor. done.
Defined.

Lemma toc_anchor_resolves_witness :
  exists page rest,
    block_page demo_formats demo_block default_tableclass = Ok page
    /\ item_ids (markup.content page) = "block-k1" :: rest
    /\ markup.Elem "a" [("href", "#block-k1"); ("style", "font-size:18px;")] "Strain"
       ∈ markup.content (toc_page [demo_block]).
Proof.
  assert (exists page, block_page demo_formats demo_block default_tableclass = Ok page)
    as [page Hpage] by (vm_compute; eauto).
  destruct (toc_anchor_resolves demo_formats [demo_block] demo_block default_tableclass
              page) as (id & rest & Hid & Hin); [by left|exact Hpage|].
  exists page, rest. split; [exact Hpage|].
  assert (id = "block-k1") as ->.
  { pose proof Hpage as Hpage'. vm_compute in Hpage'. injection Hpage' as <-.
    vm_compute in Hid. by injection Hid as <- _. }
  split; [exact Hid|exact Hin].
Defined.

(** ** The page of results *)

Section qscan.

Variable E : env.
Variable F : formats.
Hypothesis HE : permissive E.

Lemma qscan_fold (blocks : list OmegaChannelList) (page : markup.page) :
  match fold_result (fun page block =>
          match write_block F block default_tableclass with
          | Ok html => Ok (markup.add html page)
          | Raise e => Raise e
          end) blocks page with
  | Ok page' =>
      Forall plotted blocks
      /\ exists htmls,
           Forall2 (fun b t => write_block F b default_tableclass = Ok t) blocks htmls
           /\ markup.content page' = markup.content page ++ map markup.Text htmls
  | Raise e => e = UnboundLocalError "i" /\ Exists unplotted blocks
  end.
Proof.
  revert page. induction blocks as [|b blocks IH]; intros page.
  - simpl. split; [constructor|]. exists []. split; [constructor|].
    by rewrite app_nil_r.
  - cbn [fold_result].
    pose proof (block_page_shape F b default_tableclass) as Hb.
    destruct (write_block F b default_tableclass) as [html|e] eqn:Hw.
    + assert (plotted b) as Hpl.
      { revert Hw. unfold write_block.
        destruct (block_page F b default_tableclass); [by destruct Hb|done]. }
      specialize (IH (markup.add html page)).
      destruct (fold_result _ blocks _) as [page'|e].
      * destruct IH as (Hall & htmls & Hf & Hc). split; [by constructor|].
        exists (html :: htmls). split; [by constructor|].
        rewrite Hc. unfold markup.add. rewrite content_append.
        by rewrite <- app_assoc.
      * destruct IH as [-> Hex]. split; [done|]. by right.
    + revert Hw. unfold write_block.
      destruct (block_page F b default_tableclass); [done|].
      intros [= <-]. destruct Hb as [-> Hun]. split; [done|]. by left.
Qed.

(** X14: the body of the results page: after the table of contents, the
    heading and the introduction it holds the markup of the blocks, one
    fragment each, in order; it fails on the unbound loop variable of the
    grid exactly when some channel of some block has no plot. *)
Theorem qscan_body_cases (blocks : list OmegaChannelList) :
  match qscan_body F blocks with
  | Ok page =>
      Forall plotted blocks
      /\ exists htmls,
           Forall2 (fun b t => write_block F b default_tableclass = Ok t) blocks htmls
           /\ markup.content page
              = [markup.Text (write_toc blocks);
                 markup.Elem "h2" [] "Results";
                 markup.Elem "p" [("style", "font-size:18px;")]
                   ("The following blocks of channels were scanned for interesting "
                    +:+ "time-frequency morphology:")]
                ++ map markup.Text htmls
  | Raise e => e = UnboundLocalError "i" /\ Exists unplotted blocks
  end.
Proof.
  unfold qscan_body. cbv zeta.
  match goal with
  | |- context [fold_result _ blocks ?p] => pose proof (qscan_fold blocks p) as H
  end.
  destruct (fold_result _ blocks _) as [page|e]; [|done].
  destruct H as (Hall & htmls & Hf & Hc). split; [done|]. by exists htmls.
Qed.

(** X15: with a channel without plots in some block the results page is not
    written: the call raises the unbound loop variable of the grid after the
    static assets and the about page, [_inner.html] is left behind empty
    and [index.html] is not opened. *)
Theorem write_qscan_page_missing_plots (fuel : nat) (ifo gpstime : string)
    (blocks : list OmegaChannelList) (kwargs : options) (w : world) :
  Exists unplotted blocks ->
  about_ok E ifo gpstime kwargs ->
  2 <= fuel ->
  let outdir := resolved_outdir kwargs in
  let contentf := posixpath.join outdir "_inner.html" in
  let index := posixpath.join outdir "index.html" in
  exists w' new,
    write_qscan_page E F fuel ifo gpstime blocks kwargs w
    = (Raise (UnboundLocalError "i"), w')
    /\ written w' = written w ++ new
    /\ new = (new_css staticdir w).*1 ++ (new_js staticdir w).*1 ++ about_paths kwargs
             ++ [contentf]
    /\ files w' !! contentf = Some EmptyString
    /\ index ∉ new.
Proof.
  intros Hex Hok Hfuel outdir contentf index.
  assert (qscan_body F blocks = Raise (UnboundLocalError "i")) as Hbody.
  { unfold qscan_body. cbv zeta.
    match goal with
    | |- context [fold_result _ blocks ?p] => pose proof (qscan_fold blocks p) as H
    end.
    destruct (fold_result _ blocks _) as [page|e]; [|by destruct H as [-> _]].
    destruct H as [Hall _]. apply Exists_exists in Hex as (b & Hb & Hun).
    rewrite Forall_forall in Hall. specialize (Hall b Hb).
    apply Exists_exists in Hun as (c & Hc & Hnil).
    unfold plotted in Hall. rewrite Forall_forall in Hall. by destruct (Hall c Hc). }
  destruct (decorated_raises E HE fuel (fun _ => qscan_body F blocks)
              (UnboundLocalError "i") ifo gpstime kwargs w)
    as (w' & new & Hrun & Hwr & Hnew & Hfile & Hindex); [done|done|done|].
  by exists w', new.
Qed.

(** X16: with a plot for every channel the results page is written: the call
    returns the path of [index.html], and [_inner.html] holds the table of
    contents, the heading, the introduction and the markup of the blocks in
    order. *)
Theorem write_qscan_page_writes (fuel : nat) (ifo gpstime : string)
    (blocks : list OmegaChannelList) (kwargs : options) (w : world) :
  Forall plotted blocks ->
  about_ok E ifo gpstime kwargs ->
  2 <= fuel ->
  let outdir := resolved_outdir kwargs in
  let contentf := posixpath.join outdir "_inner.html" in
  let index := posixpath.join outdir "index.html" in
  exists inner htmls w',
    write_qscan_page E F fuel ifo gpstime blocks kwargs w = (Ok index, w')
    /\ files w' !! contentf = Some (markup.str inner)
    /\ qscan_body F blocks = Ok inner
    /\ Forall2 (fun b t => write_block F b default_tableclass = Ok t) blocks htmls
    /\ texts (markup.content inner) = write_toc blocks :: htmls.
Proof.
  intros Hall Hok Hfuel outdir contentf index.
  pose proof (qscan_body_shape := qscan_fold blocks).
  destruct (qscan_body F blocks) as [inner|e] eqn:Hbody.
  2:{ exfalso. revert Hbody. unfold qscan_body. cbv zeta.
      match goal with
      | |- context [fold_result _ blocks ?p] => specialize (qscan_body_shape p)
      end.
      destruct (fold_result _ blocks _) as [page|e']; [done|].
      destruct qscan_body_shape as [_ Hex].
      apply Exists_exists in Hex as (b & Hb & Hun).
      rewrite Forall_forall in Hall. specialize (Hall b Hb).
      apply Exists_exists in Hun as (c & Hc & Hnil).
      unfold plotted in Hall. rewrite Forall_forall in Hall. by destruct (Hall c Hc). }
  assert (exists htmls,
            Forall2 (fun b t => write_block F b default_tableclass = Ok t) blocks htmls
            /\ texts (markup.content inner) = write_toc blocks :: htmls)
    as (htmls & Hf & Htexts).
  { revert Hbody. unfold qscan_body. cbv zeta.
    match goal with
    | |- context [fold_result _ blocks ?p] => specialize (qscan_body_shape p)
    end.
    destruct (fold_result _ blocks _) as [page|e']; [|done].
    destruct qscan_body_shape as (_ & htmls & Hf & Hc). intros [= <-].
    exists htmls. split; [done|]. rewrite Hc, texts_app. simpl. f_equal.
    clear. induction htmls as [|h htmls IH]; [done|]. simpl. by rewrite IH. }
  destruct fuel as [|[|n]]; [lia|lia|].
  destruct (decorated_run E HE n (fun _ => qscan_body F blocks) ifo gpstime kwargs w)
    as (aw & inner' & page & w' & Hrun & [_ Hfiles] & _ & [w0 Hinner] & _).
  { split; [|exact Hok]. intros w0. rewrite Hbody. eauto. }
  rewrite Hbody in Hinner. injection Hinner as <-.
  exists inner, htmls, w'. split; [exact Hrun|]. split; [|done].
  fold outdir contentf index in Hfiles. rewrite Hfiles.
  rewrite !app_assoc, fold_left_app. simpl.
  rewrite lookup_insert_ne, lookup_insert_eq; [done|].
  intros Heq. symmetry in Heq. revert Heq. apply join_ne; [simpl; lia|done|done].
Qed.

End qscan.

Lemma write_qscan_page_missing_plots_witness :
  exists w',
    write_qscan_page demo_env demo_formats 2 "H1" "1187008882" [demo_block; bare_block]
      out_config_options demo_world = (Raise (UnboundLocalError "i"), w')
    /\ written w' = ["./static/omega.css"; "./static/omega.js";
                     "out/about/_inner.html"; "out/about/index.html"; "out/_inner.html"]
    /\ files w' !! "out/_inner.html" = Some EmptyString.
Proof.
  destruct (write_qscan_page_missing_plots demo_env demo_formats demo_permissive 2
              "H1" "1187008882" [demo_block; bare_block] out_config_options demo_world)
    as (w' & new & Hrun & Hwr & Hnew & Hfile & Hindex).
  - right. left. unfold unplotted. simpl. by left.
  - split; [intros w0; by eexists|by eexists].
  - lia.
  - exists w'. split; [exact Hrun|]. split; [|exact Hfile].
    rewrite Hwr, Hnew. reflexivity.
Defined.

Lemma write_qscan_page_writes_witness :
  exists inner html w',
    write_qscan_page demo_env demo_formats 2 "H1" "1187008882" [demo_block]
      out_options demo_world = (Ok "out/index.html", w')
    /\ files w' !! "out/_inner.html" = Some (markup.str inner)
    /\ write_block demo_formats demo_block default_tableclass = Ok html
    /\ texts (markup.content inner) = [write_toc [demo_block]; html].
Proof.
  destruct (write_qscan_page_writes demo_env demo_formats demo_permissive 2
              "H1" "1187008882" [demo_block] out_options demo_world)
    as (inner & htmls & w' & Hrun & Hfile & _ & Hf & Htexts).
  - repeat constructor. done.
  - done.
  - lia.
  - apply Forall2_cons_inv_l in Hf as (html & rest & Hhtml & Hrest & ->).
    apply Forall2_nil_inv_l in Hrest as ->.
    exists inner, html, w'. split; [exact Hrun|]. split; [exact Hfile|].
    split; [exact Hhtml|exact Htexts].
Defined.

(** ** A failed write of the static assets *)

Section static_more.

Variable E : env.

(** X17: when the stylesheet can be written and the script cannot, the call
    raises the error of the script after it has written and registered the
    stylesheet; the script is not registered, so a later call that is
    allowed to write opens the script alone and leaves the stylesheet as
    it is. *)
Theorem write_static_files_script_fails (static : string) (w : world) :
  let omegacss := posixpath.join static "omega.css" in
  let omegajs := posixpath.join static "omega.js" in
  (static ∈ dirs w \/ may_mkdir E static = true) ->
  may_write E omegacss = true ->
  may_write E omegajs = false ->
  omegacss ∉ CSS_FILES w ->
  omegajs ∉ JS_FILES w ->
  exists w1,
    write_static_files E static w = (Raise (OSError omegajs), w1)
    /\ CSS_FILES w1 = CSS_FILES w ++ [omegacss]
    /\ JS_FILES w1 = JS_FILES w
    /\ written w1 = written w ++ [omegacss]
    /\ files w1 = <[omegacss := OMEGA_CSS]> (files w)
    /\ forall E' : env,
         permissive E' ->
         exists w2,
           write_static_files E' static w1 = (Ok (omegacss, omegajs), w2)
           /\ written w2 = written w1 ++ [omegajs]
           /\ files w2 = <[omegajs := OMEGA_JS]> (files w1)
           /\ CSS_FILES w2 = CSS_FILES w1
           /\ JS_FILES w2 = JS_FILES w1 ++ [omegajs].
Proof.
  intros omegacss omegajs Hdir Hc Hj Hnc Hnj.
  assert (exists w1,
            write_static_files E static w = (Raise (OSError omegajs), w1)
            /\ CSS_FILES w1 = CSS_FILES w ++ [omegacss]
            /\ JS_FILES w1 = JS_FILES w
            /\ written w1 = written w ++ [omegacss]
            /\ files w1 = <[omegacss := OMEGA_CSS]> (files w))
    as (w1 & Hrun & Hcss & Hjs & Hwr & Hfiles).
  { unfold write_static_files, bind, isdir, when, makedirs, get_CSS_FILES,
      get_JS_FILES, open_w, fwrite, CSS_FILES_append, JS_FILES_append, ret.
    fold omegacss omegajs.
    assert (bool_decide (static ∈ dirs w) = true \/
            (bool_decide (static ∈ dirs w) = false /\ may_mkdir E static = true))
      as [->|[-> ->]].
    { destruct (decide (static ∈ dirs w)) as [Hin|Hout].
      - left. by apply bool_decide_eq_true_2.
      - right. split; [by apply bool_decide_eq_false_2|]. by destruct Hdir. }
    all: cbn [negb files dirs CSS_FILES JS_FILES written].
    all: rewrite (bool_decide_eq_false_2 _ Hnc), Hc; cbn [negb CSS_FILES JS_FILES].
    all: rewrite (bool_decide_eq_false_2 _ Hnj), Hj; cbn [negb].
    all: eexists; split; [reflexivity|]; cbn [files CSS_FILES JS_FILES written].
    all: rewrite lookup_insert_eq, insert_insert_eq; done. }
  exists w1. split; [done|]. split; [done|]. split; [done|]. split; [done|].
  split; [done|]. intros E' HE'.
  destruct (write_static_files_run E' static w1 HE') as (w2 & Hrun2 & Hwrote & Hc2 & Hj2).
  fold omegacss omegajs in Hrun2.
  unfold new_css, new_js in *. fold omegacss omegajs in Hwrote, Hc2, Hj2.
  assert (bool_decide (omegacss ∈ CSS_FILES w1) = true) as Hin.
  { apply bool_decide_eq_true_2. rewrite Hcss, elem_of_app. right. by left. }
  assert (bool_decide (omegajs ∈ JS_FILES w1) = false) as Hout.
  { apply bool_decide_eq_false_2. by rewrite Hjs. }
  rewrite Hin, Hout in Hwrote. rewrite Hin in Hc2. rewrite Hout in Hj2.
  destruct Hwrote as [Hwr2 Hf2]. exists w2. split; [done|].
  simpl in *. by rewrite app_nil_r in Hc2.
Qed.

End static_more.

Lemma write_static_files_script_fails_witness :
  exists w1 w2,
    write_static_files noscript_env "static" demo_world
    = (Raise (OSError "static/omega.js"), w1)
    /\ written w1 = ["static/omega.css"]
    /\ write_static_files demo_env "static" w1
       = (Ok ("static/omega.css", "static/omega.js"), w2)
    /\ written w2 = ["static/omega.css"; "static/omega.js"].
Proof.
  destruct (write_static_files_script_fails noscript_env "static" demo_world)
    as (w1 & Hrun & _ & _ & Hwr & _ & Hretry).
  - by right.
  - reflexivity.
  - reflexivity.
  - apply (bool_decide_eq_false_1 (_ ∈ _)). reflexivity.
  - apply (bool_decide_eq_false_1 (_ ∈ _)). reflexivity.
  - destruct (Hretry demo_env demo_permissive) as (w2 & Hrun2 & Hwr2 & _).
    exists w1, w2. split; [exact Hrun|]. split; [exact Hwr|]. split; [exact Hrun2|].
    rewrite Hwr2, Hwr. reflexivity.
Defined.

(** ** The shell of a page, continued *)

Section shell_more.

Variable E : env.

Lemma str_not_full (p : markup.page) :
  markup._full p = false ->
  markup.footer p = [] ->
  markup.str (markup.close "html" (markup.close "body" p))
  = markup.str (markup.set_full true p).
Proof.
  intros Hfull Hfoot. unfold markup.str, markup.close, markup.set_full.
  cbn [markup.append markup._full markup.header markup.content markup.footer].
  rewrite Hfull, Hfoot. rewrite !map_app, <- !app_assoc. reflexivity.
Qed.

(** X18: for a page that is not marked as a full document [close_page] appends
    the closing [body] and [html] tags itself, after the footer; when the
    page has no footer lines of its own, the file it writes is the one it
    writes for the same page marked as full. *)
Theorem close_page_not_full (page : markup.page) (target : string)
    (about date : option string) (w : world) :
  may_write E target = true ->
  markup._full page = false ->
  markup.footer page = [] ->
  exists closed closed' w',
    close_page E page target about date w = (Ok closed, w')
    /\ close_page E (markup.set_full true page) target about date w = (Ok closed', w')
    /\ markup.content closed
       = markup.content page
         ++ [markup.Close "div"; markup.Text (markup.str (write_footer E about date));
             markup.Close "body"; markup.Close "html"]
    /\ markup.content closed' ++ [markup.Close "body"; markup.Close "html"]
       = markup.content closed
    /\ markup._full closed = false
    /\ files w' !! target = Some (markup.str closed).
Proof.
  intros Hw Hfull Hfoot.
  set (body := markup.add (markup.str (write_footer E about date))
                 (markup.close "div" page)).
  assert (close_page E page target about date w
          = (Ok (markup.close "html" (markup.close "body" body)),
             put_file target (markup.str (markup.close "html" (markup.close "body" body)))
               w)) as Hrun.
  { unfold close_page. fold body.
    change (markup._full body) with (markup._full page). rewrite Hfull. cbn [negb].
    rewrite (bind_ok _ _ _ _ _ (open_w_run E target w Hw)).
    by rewrite (bind_ok _ _ _ _ _ (fwrite_opened target _ w)). }
  pose proof (close_page_run E (markup.set_full true page) target about date w Hw
                eq_refl) as Hrun'.
  cbv zeta in Hrun'.
  eexists _, _, _. split; [exact Hrun|]. split.
  { rewrite Hrun'. f_equal. f_equal. symmetry.
    apply (str_not_full body); [exact Hfull|exact Hfoot]. }
  split; [|split; [|split]].
  - unfold body, markup.close, markup.add. rewrite !content_append.
    by rewrite <- !app_assoc.
  - unfold body, markup.close, markup.add. rewrite !content_append.
    cbn [markup.content markup.set_full]. by rewrite <- !app_assoc.
  - exact Hfull.
  - simpl. by rewrite lookup_insert_eq.
Qed.

(** X19: the head of a page opened with keyword arguments that name
    elements links the two assets of the module: whatever lists the caller
    gives, a stylesheet whose name ends with [omega.css] and a script
    whose name ends with [omega.js] are linked, and so is every file of
    the caller. *)
Theorem init_page_links_assets (ifo gpstime : string) (css script : list string)
    (base : string) (kwargs : markup.attrs) (w : world) :
  permissive E ->
  element_keys kwargs ->
  exists page w',
    init_page E ifo gpstime css script base kwargs w = (Ok page, w')
    /\ (exists f,
          str.endswith f "omega.css" = true
          /\ markup.Single "link" [("href", f); ("rel", "stylesheet");
                                    ("type", "text/css"); ("media", "all")]
             ∈ markup.content page)
    /\ (exists g,
          str.endswith g "omega.js" = true
          /\ markup.Elem "script" [("src", g); ("type", "text/javascript")] EmptyString
             ∈ markup.content page)
    /\ (forall f, f ∈ css ->
          markup.Single "link" [("href", f); ("rel", "stylesheet");
                                ("type", "text/css"); ("media", "all")]
          ∈ markup.content page)
    /\ (forall g, g ∈ script ->
          markup.Elem "script" [("src", g); ("type", "text/javascript")] EmptyString
          ∈ markup.content page).
Proof.
  intros HE _.
  destruct (init_page_run E ifo gpstime css script base kwargs w HE)
    as (page & w' & Hinit & _ & _ & Hc & Hj).
  destruct (init_page_content E _ _ _ _ _ _ _ _ _ Hinit) as [_ Hcontent].
  exists page, w'. split; [done|].
  assert (forall f, f ∈ link_list (CSS_FILES w') css ->
            markup.Single "link" [("href", f); ("rel", "stylesheet");
                                  ("type", "text/css"); ("media", "all")]
            ∈ markup.content page) as Hlink.
  { intros f Hf. rewrite Hcontent. apply elem_of_app. right. apply elem_of_app. left.
    apply list_elem_of_fmap. by exists f. }
  assert (forall g, g ∈ link_list (JS_FILES w') script ->
            markup.Elem "script" [("src", g); ("type", "text/javascript")] EmptyString
            ∈ markup.content page) as Hscript.
  { intros g Hg. rewrite Hcontent. apply elem_of_app. right. apply elem_of_app. right.
    apply elem_of_app. left. apply list_elem_of_fmap. by exists g. }
  assert ("./static/omega.css" ∈ CSS_FILES w') as Hcss.
  { rewrite Hc. unfold new_css.
    change (posixpath.join staticdir "omega.css") with "./static/omega.css".
    destruct (decide ("./static/omega.css" ∈ CSS_FILES w)) as [Hin|Hout].
    - apply elem_of_app. by left.
    - rewrite (bool_decide_eq_false_2 _ Hout). apply elem_of_app. right. by left. }
  assert ("./static/omega.js" ∈ JS_FILES w') as Hjs.
  { rewrite Hj. unfold new_js.
    change (posixpath.join staticdir "omega.js") with "./static/omega.js".
    destruct (decide ("./static/omega.js" ∈ JS_FILES w)) as [Hin|Hout].
    - apply elem_of_app. by left.
    - rewrite (bool_decide_eq_false_2 _ Hout). apply elem_of_app. right. by left. }
  split; [|split; [|split]].
  - pose proof (link_fold_represents (rev (CSS_FILES w')) css) as Hrep.
    rewrite Forall_forall in Hrep.
    destruct (Hrep "./static/omega.css") as (f & Hf & Hends).
    { apply list_elem_of_In, in_rev. rewrite rev_involutive. by apply list_elem_of_In. }
    exists f. split; [exact Hends|]. by apply Hlink.
  - pose proof (link_fold_represents (rev (JS_FILES w')) script) as Hrep.
    rewrite Forall_forall in Hrep.
    destruct (Hrep "./static/omega.js") as (g & Hg & Hends).
    { apply list_elem_of_In, in_rev. rewrite rev_involutive. by apply list_elem_of_In. }
    exists g. split; [exact Hends|]. by apply Hscript.
  - intros f Hf. apply Hlink.
    destruct (link_list_shape (CSS_FILES w') css) as (kept & -> & _).
    apply elem_of_app. by right.
  - intros g Hg. apply Hscript.
    destruct (link_list_shape (JS_FILES w') script) as (kept & -> & _).
    apply elem_of_app. by right.
Qed.

Lemma embed_configs_shape (configfiles : list string) (page : markup.page) (w : world) :
  match embed_configs E configfiles page w with
  | Ok page' =>
      exists htmls,
        Forall2 (fun f html => write_config_html E f "ini" w = Ok html) configfiles htmls
        /\ markup.content page'
           = markup.content page ++ map (fun html => markup.Elem "pre" [] html) htmls
  | Raise e =>
      exists before f after,
        configfiles = before ++ f :: after
        /\ Forall (fun g => exists html, write_config_html E g "ini" w = Ok html) before
        /\ write_config_html E f "ini" w = Raise e
  end.
Proof.
  revert page. induction configfiles as [|f configfiles IH]; intros page.
  - simpl. exists []. split; [constructor|]. by rewrite app_nil_r.
  - cbn [embed_configs].
    destruct (write_config_html E f "ini" w) as [html|e] eqn:Hf.
    + specialize (IH (markup.elem "pre" [] html page)).
      destruct (embed_configs E configfiles _ w) as [page'|e].
      * destruct IH as (htmls & Hall & Hc). exists (html :: htmls).
        split; [by constructor|]. rewrite Hc. unfold markup.elem.
        rewrite content_append. by rewrite <- app_assoc.
      * destruct IH as (before & g & after & -> & Hbefore & Hg).
        exists (f :: before), g, after. split; [done|]. split; [|done].
        constructor; [eauto|done].
    + exists [], f, configfiles. split; [done|]. split; [constructor|done].
Qed.

(** X20: the body of the about page: the command line joined by blanks, then
    one [pre] block for each configuration file, in the order given and
    with the text [write_config_html] gives for it; the body fails with
    the error of the first file that cannot be embedded. *)
Theorem about_body_embeds (configfiles : list string) (w : world) :
  match about_body E configfiles w with
  | Ok page =>
      exists htmls,
        Forall2 (fun f html => write_config_html E f "ini" w = Ok html) configfiles htmls
        /\ markup.content page
           = [markup.Elem "h2" [] "On the command line";
              markup.Elem "p" []
                "This page was generated with the command line call shown below.";
              markup.Elem "pre" [] (str.join " " (argv E));
              markup.Elem "h2" [] "Configuration file";
              markup.Elem "p" []
                ("Omega scans are configured through INI-format files. The files "
                 +:+ "used for this analysis are reproduced below in full.")]
             ++ map (fun html => markup.Elem "pre" [] html) htmls
  | Raise e =>
      exists before f after,
        configfiles = before ++ f :: after
        /\ Forall (fun g => exists html, write_config_html E g "ini" w = Ok html) before
        /\ write_config_html E f "ini" w = Raise e
  end.
Proof.
  unfold about_body. cbv zeta.
  match goal with
  | |- context [embed_configs E configfiles ?p w] =>
      pose proof (embed_configs_shape configfiles p w) as H
  end.
  destruct (embed_configs E configfiles _ w) as [page|e]; [|done].
  destruct H as (htmls & Hall & Hc). by exists htmls.
Qed.

End shell_more.

Lemma close_page_not_full_witness :
  exists closed w',
    close_page demo_env (null_body "No significant channels" "warning") "out/null.html"
      None None demo_world = (Ok closed, w')
    /\ markup._full closed = false
    /\ files w' !! "out/null.html" = Some (markup.str closed)
    /\ last (markup.content closed) = Some (markup.Close "html").
Proof.
  destruct (close_page_not_full demo_env (null_body "No significant channels" "warning")
              "out/null.html" None None demo_world)
    as (closed & closed' & w' & Hrun & _ & Hc & _ & Hfull & Hfile);
    [reflexivity|reflexivity|reflexivity|].
  exists closed, w'. split; [exact Hrun|]. split; [exact Hfull|].
  split; [exact Hfile|]. rewrite Hc. reflexivity.
Defined.

Lemma init_page_links_assets_witness :
  exists page w',
    init_page demo_env "H1" "1187008882" ["my/theme.css"] [] "." [("title", "H1 Qscan")]
      demo_world
    = (Ok page, w')
    /\ markup.Single "link" [("href", "my/theme.css"); ("rel", "stylesheet");
                              ("type", "text/css"); ("media", "all")]
       ∈ markup.content page
    /\ exists f,
         str.endswith f "omega.css" = true
         /\ markup.Single "link" [("href", f); ("rel", "stylesheet");
                                   ("type", "text/css"); ("media", "all")]
            ∈ markup.content page.
Proof.
  destruct (init_page_links_assets demo_env "H1" "1187008882" ["my/theme.css"] [] "."
              [("title", "H1 Qscan")] demo_world demo_permissive)
    as (page & w' & Hrun & Hcss & _ & Hgiven & _).
  - constructor; [by left|constructor].
  - exists page, w'. split; [exact Hrun|]. split; [|exact Hcss].
    apply Hgiven. by left.
Defined.

(** ** Links to the channel information system *)

Section channel_links.

Lemma dict_set_notin (k v : string) (d : markup.attrs) :
  k ∉ d.*1 -> dict_set k v d = d ++ [(k, v)].
Proof.
  induction d as [|[k' v'] d IH]; intros Hk; [done|].
  rewrite fmap_cons, not_elem_of_cons in Hk. destruct Hk as [Hne Hk].
  cbn [fst] in Hne. simpl.
  rewrite bool_decide_eq_false_2 by congruence. f_equal. by apply IH.
Qed.

Lemma dict_get_notin (k : string) (d : markup.attrs) :
  k ∉ d.*1 -> dict_get k d = None.
Proof.
  induction d as [|[k' v'] d IH]; intros Hk; [done|].
  rewrite fmap_cons, not_elem_of_cons in Hk. destruct Hk as [Hne Hk].
  cbn [fst] in Hne. simpl.
  rewrite bool_decide_eq_false_2 by congruence. by apply IH.
Qed.

Lemma dict_has_set (k k' v : string) (d : markup.attrs) :
  dict_has k (dict_set k' v d) = dict_has k d || bool_decide (k' = k).
Proof.
  unfold dict_has. induction d as [|[k0 v0] d IH]; simpl.
  - apply orb_false_r.
  - destruct (decide (k0 = k')) as [->|Hne].
    + rewrite (bool_decide_eq_true_2 (k' = k')) by done. simpl.
      destruct (bool_decide (k' = k)); [done|]. simpl. by rewrite orb_false_r.
    + rewrite (bool_decide_eq_false_2 (k0 = k')) by done. simpl. rewrite IH.
      by rewrite orb_assoc.
Qed.

Lemma dict_has_update (k : string) (d new : markup.attrs) :
  dict_has k (dict_update d new) = dict_has k d || dict_has k new.
Proof.
  unfold dict_update. revert d. induction new as [|[k' v'] new IH]; intros d.
  - simpl. by rewrite orb_false_r.
  - cbn [fold_left]. rewrite IH. cbn [fst snd]. rewrite dict_has_set.
    unfold dict_has at 4. cbn [existsb fst]. by rewrite orb_assoc.
Qed.

Lemma dict_get_filter (ks : list string) (k : string) (d : markup.attrs) :
  k ∉ ks -> dict_get k (filter (fun kv => kv.1 ∉ ks) d) = dict_get k d.
Proof.
  intros Hk. unfold markup.attrs in *. induction d as [|[k' v'] d IH]; [done|].
  destruct (decide (k' ∉ ks)) as [Hp|Hp].
  - rewrite filter_cons_True by done. simpl. by rewrite IH.
  - rewrite filter_cons_False by done. simpl.
    rewrite bool_decide_eq_false_2 by (by intros ->). done.
Qed.

Lemma dict_update_defaults (t s : string) (extra params : markup.attrs) :
  NoDup params.*1 ->
  (forall k, k ∈ extra.*1 -> (k ∉ params.*1) /\ k <> "title" /\ k <> "style") ->
  dict_update (("title", t) :: ("style", s) :: extra) params
  = ("title", default t (dict_get "title" params))
    :: ("style", default s (dict_get "style" params))
    :: extra ++ filter (fun kv => kv.1 ∉ ["title"; "style"]) params.
Proof.
  unfold dict_update, markup.attrs in *. revert t s extra.
  induction params as [|[k v] params IH]; intros t s extra Hnd Hex.
  - simpl. by rewrite app_nil_r.
  - rewrite fmap_cons in Hnd. apply NoDup_cons in Hnd as [Hk Hnd].
    cbn [fold_left fst snd].
    assert (forall k0, k0 ∈ extra.*1 ->
              (k0 ∉ params.*1) /\ k0 <> "title" /\ k0 <> "style" /\ k0 <> k) as Hex'.
    { intros k0 Hk0. destruct (Hex k0 Hk0) as (Hout & Ht & Hs).
      rewrite fmap_cons, not_elem_of_cons in Hout. destruct Hout as [Hne Hout].
      done. }
    destruct (decide (k = "title")) as [->|Htitle];
      [|destruct (decide (k = "style")) as [->|Hstyle]].
    + cbn [dict_set]. rewrite bool_decide_eq_true_2 by done.
      rewrite IH; [|done|intros k0 Hk0; by destruct (Hex' k0 Hk0) as (? & ? & ? & _)].
      rewrite (dict_get_notin "title" params Hk).
      rewrite filter_cons_False by (cbn [fst]; intros Hout; apply Hout; by left).
      reflexivity.
    + cbn [dict_set]. rewrite bool_decide_eq_false_2 by done.
      rewrite bool_decide_eq_true_2 by done.
      rewrite IH; [|done|intros k0 Hk0; by destruct (Hex' k0 Hk0) as (? & ? & ? & _)].
      rewrite (dict_get_notin "style" params Hk).
      rewrite filter_cons_False
        by (cbn [fst]; intros Hout; apply Hout; right; by left).
      reflexivity.
    + cbn [dict_set]. rewrite !bool_decide_eq_false_2 by congruence.
      rewrite dict_set_notin.
      2:{ intros Hin. by destruct (Hex' k Hin) as (_ & _ & _ & ?). }
      rewrite IH; [|done|].
      * cbn [dict_get]. rewrite !bool_decide_eq_false_2 by done.
        rewrite filter_cons_True.
        2:{ cbn [fst]. rewrite !not_elem_of_cons. repeat split; try done.
            apply not_elem_of_nil. }
        by rewrite <- app_assoc.
      * intros k0. rewrite fmap_app, elem_of_app. intros [Hk0|Hk0].
        -- by destruct (Hex' k0 Hk0) as (? & ? & ? & _).
        -- apply list_elem_of_singleton in Hk0 as ->. done.
Qed.

(** X21: the link of a channel: the address of its entry comes first, the
    title and the style keep their places and take the values of the
    caller when given, the other attributes of the caller follow in their
    order, and the target, [_blank] unless the caller names one, comes
    last; a caller that passes [href] or [txt] gets a type error. *)
Theorem cis_link_attrs (channel : string) (params : markup.attrs) :
  NoDup params.*1 ->
  cis_link channel params =
    if dict_has "href" params || dict_has "txt" params
    then Raise (OtherError "TypeError")
    else
      Ok (markup.oneliner "a" channel
            (("href", "https://cis.ligo.org/channel/byname/" +:+ channel)
             :: ("title", default ("CIS entry for " +:+ channel) (dict_get "title" params))
             :: ("style", default cis_style (dict_get "style" params))
             :: filter (fun kv => kv.1 ∉ ["title"; "style"; "target"]) params
             ++ [("target", default "_blank" (dict_get "target" params))])).
Proof.
  intros Hnd. unfold cis_link, markup.attrs in *. cbv zeta. rewrite !dict_has_update.
  change (dict_has "href" [("title", _); ("style", _)]) with false.
  change (dict_has "txt" [("title", _); ("style", _)]) with false.
  cbn [orb].
  destruct (dict_has "href" params || dict_has "txt" params); [done|].
  rewrite (dict_update_defaults _ _ [] params Hnd) by (intros k Hk; inversion Hk).
  cbn [app]. unfold html_link, dict_pop, markup.attrs.
  set (title := default _ (dict_get "title" params)).
  set (style := default _ (dict_get "style" params)).
  rewrite !filter_cons_True by done.
  cbn [dict_get]. rewrite !bool_decide_eq_false_2 by done.
  assert (dict_get "target" (filter (fun kv => kv.1 ∉ ["title"; "style"]) params)
          = dict_get "target" params) as ->.
  { apply (dict_get_filter ["title"; "style"]).
    rewrite !not_elem_of_cons. repeat split; try done. apply not_elem_of_nil. }
  rewrite list_filter_filter.
  rewrite (list_filter_iff _ (fun kv => kv.1 ∉ ["title"; "style"; "target"])).
  2:{ intros [k v]. cbn [fst]. rewrite !not_elem_of_cons. tauto. }
  unfold dict_setdefault.
  assert (dict_has "target"
            (("title", title) :: ("style", style)
             :: filter (fun kv => kv.1 ∉ ["title"; "style"; "target"]) params) = false)
    as ->; [|reflexivity].
  unfold dict_has. cbn [existsb fst]. rewrite !bool_decide_eq_false_2 by done.
  cbn [orb]. apply not_true_iff_false. rewrite existsb_exists.
  intros ([k v] & Hin%list_elem_of_In%list_elem_of_filter & Hk).
  destruct Hin as [Hout _]. apply bool_decide_eq_true_1 in Hk. cbn [fst] in *.
  subst k. apply Hout. right. right. by left.
Qed.

End channel_links.

Lemma cis_link_attrs_witness :
  cis_link "H1:STRAIN" [("target", "_self"); ("title", "Strain")]
  = Ok ("<a href=" +:+ str.dq +:+ "https://cis.ligo.org/channel/byname/H1:STRAIN"
        +:+ str.dq +:+ " title=" +:+ str.dq +:+ "Strain" +:+ str.dq
        +:+ " style=" +:+ str.dq +:+ "font-family: Monaco, &quot;Courier New&quot;, monospace;"
        +:+ str.dq +:+ " target=" +:+ str.dq +:+ "_self" +:+ str.dq
        +:+ ">H1:STRAIN</a>").
Proof.
  rewrite (cis_link_attrs "H1:STRAIN" [("target", "_self"); ("title", "Strain")]).
  - reflexivity.
  - apply (bool_decide_unpack _). reflexivity.
Defined.

(** ** The files of a decorated call *)

Section decorator_states.

Variable E : env.
Hypothesis HE : permissive E.

Lemma about_inner_ne (outdir : string) :
  posixpath.join (posixpath.join outdir "about") "_inner.html"
  <> posixpath.join outdir "_inner.html".
Proof.
  rewrite !join_relative by done. rewrite dirpart_about, app_assoc_s.
  intros H. by apply (inj (String.app _)) in H.
Qed.

Lemma wrote_lookup (l1 l2 : list (string * string)) (p d : string) (w w' : world) :
  wrote (l1 ++ (p, d) :: l2) w w' -> p ∉ l2.*1 -> files w' !! p = Some d.
Proof.
  intros [_ ->] Hp. rewrite fold_left_app. simpl.
  rewrite fold_insert_notin by done. apply lookup_insert_eq.
Qed.

Lemma wrote_same_files (l : list (string * string)) (paths : list string)
    (w w' : world) :
  wrote l w w' -> (forall p, p ∈ l.*1 -> p ∈ paths) -> same_files_but paths w w'.
Proof.
  intros [_ Hf] Hsub p Hp. rewrite Hf. apply fold_insert_notin.
  intros Hin. by apply Hp, Hsub.
Qed.

Lemma same_files_opened (paths : list string) (q : string) (w w0 : world) :
  same_files_but paths w w0 -> q ∈ paths -> same_files_but paths w (opened q w0).
Proof.
  intros H Hq p Hp. simpl. rewrite lookup_insert_ne; [by apply H|]. by intros ->.
Qed.

Lemma same_files_from (paths : list string) (w w1 w2 : world) :
  files w1 = files w -> same_files_but paths w1 w2 -> same_files_but paths w w2.
Proof. intros Hf H p Hp. rewrite <- Hf. by apply H. Qed.

Lemma static_in_page_files (kwargs : options) (w : world) (p : string) :
  p ∈ (new_css staticdir w ++ new_js staticdir w).*1 -> p ∈ page_files kwargs.
Proof.
  rewrite fmap_app. intros Hp. pose proof (static_paths w) as Hst.
  rewrite Forall_forall in Hst. unfold page_files.
  destruct (Hst p Hp) as [-> | ->]; [by left|right; by left].
Qed.

(** The shell, the inner content and the closing of one page, when the
    wrapped function returns in the state it is called in. *)
Lemma page_tail_in (func : reader markup.page) (ifo gpstime title base outdir : string)
    (about : option string) (w : world) :
  let contentf := posixpath.join outdir "_inner.html" in
  let index := posixpath.join outdir "index.html" in
  (truthy_opt about = true ->
   exists html, write_summary E ifo gpstime default_header default_tableclass = Ok html) ->
  (forall w1, wrote (new_css staticdir w ++ new_js staticdir w) w w1 ->
     exists inner, func (opened contentf w1) = Ok inner) ->
  exists w1 inner page w',
    page_tail E func ifo gpstime title base outdir about w = (Ok index, w')
    /\ wrote (new_css staticdir w ++ new_js staticdir w) w w1
    /\ func (opened contentf w1) = Ok inner
    /\ wrote (new_css staticdir w ++ new_js staticdir w
              ++ [(contentf, markup.str inner); (index, markup.str page)]) w w'
    /\ content_div ∈ markup.content page
    /\ loader contentf ∈ markup.content page
    /\ markup._full page = true
    /\ CSS_FILES w' = CSS_FILES w ++ (new_css staticdir w).*1
    /\ JS_FILES w' = JS_FILES w ++ (new_js staticdir w).*1.
Proof.
  intros contentf index Hsum Hfunc.
  destruct (page_tail_cases E HE func ifo gpstime title base outdir about w)
    as (page0 & w1 & _ & Hwrote & Hc & Hj & ->).
  fold contentf index.
  destruct (Hfunc w1 Hwrote) as [inner Hinner]. rewrite Hinner.
  assert (exists summary,
            (if truthy_opt about
             then match write_summary E ifo gpstime default_header default_tableclass with
                  | Ok html => Ok [markup.Text html]
                  | Raise e => Raise e
                  end
             else Ok []) = Ok summary) as [summary ->].
  { destruct (truthy_opt about); [|by eexists].
    destruct Hsum as [html ->]; [done|]. by eexists. }
  eexists w1, inner, _, _. split; [reflexivity|]. split; [exact Hwrote|].
  split; [exact Hinner|]. split.
  { rewrite (app_assoc (new_css staticdir w) (new_js staticdir w)).
    eapply wrote_app; [exact Hwrote|].
    split; [simpl; by rewrite <- app_assoc|reflexivity]. }
  cbn [markup.content markup._full].
  rewrite !elem_of_app, !elem_of_cons.
  split; [tauto|]. split; [tauto|]. done.
Qed.

(** A call without the [config] option. *)
Lemma decorated_plain_in (n : nat) (func : reader markup.page) (ifo gpstime : string)
    (kwargs : options) (w : world) :
  let outdir := resolved_outdir kwargs in
  let contentf := posixpath.join outdir "_inner.html" in
  let index := posixpath.join outdir "index.html" in
  opt_config kwargs = None ->
  (forall w1, wrote (new_css staticdir w ++ new_js staticdir w) w w1 ->
     exists inner, func (opened contentf w1) = Ok inner) ->
  exists w1 inner page w',
    decorated_func E (S n) func ifo gpstime kwargs w = (Ok index, w')
    /\ wrote (new_css staticdir w ++ new_js staticdir w) w w1
    /\ func (opened contentf w1) = Ok inner
    /\ wrote (new_css staticdir w ++ new_js staticdir w
              ++ [(contentf, markup.str inner); (index, markup.str page)]) w w'
    /\ content_div ∈ markup.content page
    /\ loader contentf ∈ markup.content page
    /\ markup._full page = true
    /\ CSS_FILES w' = CSS_FILES w ++ (new_css staticdir w).*1
    /\ JS_FILES w' = JS_FILES w ++ (new_js staticdir w).*1.
Proof.
  intros outdir contentf index Hconfig Hfunc.
  rewrite decorated_func_unfold, Hconfig. cbv zeta.
  fold (resolved_outdir kwargs). fold outdir.
  destruct (ensure_dir_run E HE outdir
              (let* about := ret None in
               page_tail E func ifo gpstime
                 (default (ifo +:+ " Qscan | " +:+ gpstime) (opt_title kwargs))
                 (default posixpath.curdir (opt_base kwargs)) outdir about) w)
    as (w0 & -> & Hf & Hwr & Hc & Hj).
  unfold bind at 1, ret at 1.
  destruct (new_assets_ext staticdir w w0 Hc Hj) as [Hnc Hnj].
  destruct (page_tail_in func ifo gpstime
              (default (ifo +:+ " Qscan | " +:+ gpstime) (opt_title kwargs))
              (default posixpath.curdir (opt_base kwargs)) outdir None w0)
    as (w1 & inner & page & w' & Hrun & Hw1 & Hinner & Hwrote & Hdiv & Hload & Hfull
        & Hc' & Hj'); [done| |].
  { intros w1 Hw1. apply Hfunc. rewrite Hnc, Hnj in Hw1.
    by eapply wrote_from. }
  rewrite Hnc, Hnj, Hc, Hj in *.
  exists w1, inner, page, w'. split; [done|].
  split; [by eapply wrote_from|]. split; [done|].
  split; [by eapply wrote_from|]. done.
Qed.

(** A decorated call, with or without [config]: the files it writes and
    the states in which the wrapped functions are called. *)
Lemma decorated_in (n : nat) (func : reader markup.page) (ifo gpstime : string)
    (kwargs : options) (w : world) :
  callable_in E func ifo gpstime kwargs w ->
  let outdir := resolved_outdir kwargs in
  let contentf := posixpath.join outdir "_inner.html" in
  let index := posixpath.join outdir "index.html" in
  let aboutdir := posixpath.join outdir "about" in
  let acontentf := posixpath.join aboutdir "_inner.html" in
  let aindex := posixpath.join aboutdir "index.html" in
  exists aw inner page w',
    decorated_func E (S (S n)) func ifo gpstime kwargs w = (Ok index, w')
    /\ wrote (new_css staticdir w ++ new_js staticdir w ++ aw
              ++ [(contentf, markup.str inner); (index, markup.str page)]) w w'
    /\ aw.*1 = about_paths kwargs
    /\ (exists w0, same_files_but (page_files kwargs) w w0 /\ func w0 = Ok inner)
    /\ content_div ∈ markup.content page
    /\ loader contentf ∈ markup.content page
    /\ markup._full page = true
    /\ match opt_config kwargs with
       | None => aw = []
       | Some config =>
           exists ainner apage,
             aw = [(acontentf, markup.str ainner); (aindex, markup.str apage)]
             /\ (exists w0, same_files_but (page_files kwargs) w w0
                            /\ about_body E config w0 = Ok ainner)
             /\ content_div ∈ markup.content apage
             /\ loader acontentf ∈ markup.content apage
             /\ markup._full apage = true
       end.
Proof.
  intros [Hfunc Hcfg] outdir contentf index aboutdir acontentf aindex.
  assert (contentf ∈ page_files kwargs) as Hcin.
  { unfold page_files. rewrite !elem_of_app. right. right. by left. }
  destruct (opt_config kwargs) as [config|] eqn:Hconfig.
  - destruct Hcfg as [Habout Hsum].
    assert (acontentf ∈ page_files kwargs) as Hain.
    { unfold page_files, about_paths. rewrite Hconfig, !elem_of_app.
      right. left. by left. }
    assert (forall p, p ∈ [acontentf; aindex] -> p ∈ page_files kwargs) as Hapaths.
    { intros p Hp. unfold page_files, about_paths. rewrite Hconfig, !elem_of_app.
      right. left. exact Hp. }
    rewrite decorated_func_unfold, Hconfig. cbv zeta.
    fold (resolved_outdir kwargs). fold outdir.
    set (title := default (ifo +:+ " Qscan | " +:+ gpstime) (opt_title kwargs)).
    set (base := default posixpath.curdir (opt_base kwargs)).
    set (akw := Options (Some title) _ (Some (posixpath.join outdir "about")) None).
    match goal with
    | |- context [bind (isdir outdir) (fun d => bind _ (fun _ => ?k))] =>
        destruct (ensure_dir_run E HE outdir k w) as (w1 & -> & Hf & Hwr & Hc & Hj)
    end.
    destruct (new_assets_ext staticdir w w1 Hc Hj) as [Hnc1 Hnj1].
    destruct (decorated_plain_in n (about_body E config) ifo gpstime akw w1 eq_refl)
      as (wa & ainner & apage & w2 & Hrun & Hwa & Hainner & Hwrote & Hadiv & Haload
          & Hafull & Hc2 & Hj2).
    { intros wa Hwa. apply Habout.
      change (resolved_outdir akw) with aboutdir. fold acontentf.
      apply same_files_opened; [|exact Hain].
      eapply same_files_from; [exact Hf|].
      eapply wrote_same_files; [exact Hwa|]. apply static_in_page_files. }
    change (resolved_outdir akw) with aboutdir in *.
    fold acontentf aindex in Hrun, Hainner, Hwrote, Haload.
    erewrite bind_ok; [|by rewrite (bind_ok _ _ _ _ _ Hrun)].
    destruct (new_assets_registered w1 w2 Hc2 Hj2) as [Hnc Hnj].
    assert (same_files_but (page_files kwargs) w w2) as Hsame2.
    { eapply same_files_from; [exact Hf|].
      eapply wrote_same_files; [exact Hwrote|].
      intros p. rewrite !app_assoc, fmap_app, elem_of_app.
      intros [Hp|Hp]; [by eapply static_in_page_files|by apply Hapaths]. }
    match goal with
    | |- context [page_tail E func ifo gpstime title base outdir ?a] =>
        destruct (page_tail_in func ifo gpstime title base outdir a w2)
          as (w3 & inner & page & w' & Hrun' & Hw3 & Hinner & Hwrote' & Hdiv & Hload
              & Hfull & Hc' & Hj'); [done| |]
    end.
    { intros w3 Hw3. apply Hfunc. apply same_files_opened; [|exact Hcin].
      intros p Hp. rewrite Hnc, Hnj in Hw3. destruct Hw3 as [_ ->]. simpl.
      by apply Hsame2. }
    rewrite Hnc, Hnj in Hwrote', Hw3. simpl in Hwrote'.
    rewrite Hnc1, Hnj1 in *.
    eexists [_; _], inner, page, w'. split; [exact Hrun'|]. split.
    { eapply wrote_from; [exact Hf|exact Hwr|].
      rewrite !app_assoc. eapply wrote_app; [|exact Hwrote'].
      rewrite <- !app_assoc. exact Hwrote. }
    split.
    { unfold about_paths. rewrite Hconfig. reflexivity. }
    split.
    { exists (opened contentf w3). split; [|exact Hinner].
      apply same_files_opened; [|exact Hcin].
      intros p Hp. destruct Hw3 as [_ ->]. simpl. by apply Hsame2. }
    split; [done|]. split; [done|]. split; [done|].
    exists ainner, apage. split; [reflexivity|]. split; [|done].
    exists (opened acontentf wa). split; [|exact Hainner].
    apply same_files_opened; [|exact Hain].
    eapply same_files_from; [exact Hf|].
    eapply wrote_same_files; [exact Hwa|]. apply static_in_page_files.
  - destruct (decorated_plain_in (S n) func ifo gpstime kwargs w Hconfig)
      as (w1 & inner & page & w' & Hrun & Hw1 & Hinner & Hwrote & Hdiv & Hload & Hfull
          & _).
    { intros w1 Hw1. apply Hfunc. apply same_files_opened; [|exact Hcin].
      eapply wrote_same_files; [exact Hw1|]. apply static_in_page_files. }
    exists [], inner, page, w'. split; [done|]. split; [done|].
    split; [by unfold about_paths; rewrite Hconfig|]. split.
    { exists (opened contentf w1). split; [|exact Hinner].
      apply same_files_opened; [|exact Hcin].
      eapply wrote_same_files; [exact Hw1|]. apply static_in_page_files. }
    done.
Qed.

(** C6: a decorated call returns the path of the one [index.html] it wrote
    in its output directory, and that file holds the page with the
    placeholder and the loader of [_inner.html], which holds what the
    wrapped function returned; of the other files it wrote only the index
    of the about page has that name, and it is written once, with its own
    page and content, when [config] is given and not at all otherwise.
    The nested call for the about page carries no [config], so one nested
    level is all the recursion there is: any fuel of two or more gives the
    result of fuel two, and without [config] fuel one is enough. *)
Theorem wrap_html_one_index (fuel : nat) (func : reader markup.page) (ifo gpstime : string)
    (kwargs : options) (w : world) :
  callable_in E func ifo gpstime kwargs w ->
  2 <= fuel ->
  let outdir := resolved_outdir kwargs in
  let contentf := posixpath.join outdir "_inner.html" in
  let index := posixpath.join outdir "index.html" in
  let acontentf := posixpath.join (posixpath.join outdir "about") "_inner.html" in
  let aindex := posixpath.join (posixpath.join outdir "about") "index.html" in
  let nested := match opt_config kwargs with Some _ => 1 | None => 0 end in
  exists w' new inner page,
    decorated_func E fuel func ifo gpstime kwargs w = (Ok index, w')
    /\ written w' = written w ++ new
    /\ new = (new_css staticdir w).*1 ++ (new_js staticdir w).*1
             ++ about_paths kwargs ++ [contentf; index]
    /\ count_occ string_dec new index = 1
    /\ count_occ string_dec new aindex = nested
    /\ length (filter (fun p => posixpath.basename p = "index.html") new) = 1 + nested
    /\ files w' !! index = Some (markup.str page)
    /\ markup._full page = true
    /\ content_div ∈ markup.content page
    /\ loader contentf ∈ markup.content page
    /\ files w' !! contentf = Some (markup.str inner)
    /\ (exists w0, same_files_but (page_files kwargs) w w0 /\ func w0 = Ok inner)
    /\ match opt_config kwargs with
       | None => True
       | Some config =>
           exists ainner apage,
             files w' !! aindex = Some (markup.str apage)
             /\ markup._full apage = true
             /\ content_div ∈ markup.content apage
             /\ loader acontentf ∈ markup.content apage
             /\ files w' !! acontentf = Some (markup.str ainner)
             /\ exists w0, same_files_but (page_files kwargs) w w0
                           /\ about_body E config w0 = Ok ainner
       end
    /\ decorated_func E fuel func ifo gpstime kwargs
       = decorated_func E 2 func ifo gpstime kwargs
    /\ (opt_config kwargs = None ->
        decorated_func E fuel func ifo gpstime kwargs
        = decorated_func E 1 func ifo gpstime kwargs).
Proof.
  intros Hcall Hfuel outdir contentf index acontentf aindex nested.
  destruct fuel as [|[|n]]; [lia|lia|].
  destruct (decorated_in n func ifo gpstime kwargs w Hcall)
    as (aw & inner & page & w' & Hrun & Hwrote & Haw & Hinner & Hdiv & Hload & Hfull
        & Habout).
  fold outdir contentf index acontentf aindex in Hrun, Hwrote, Hload, Habout.
  pose proof Hwrote as [Hwr _].
  exists w', ((new_css staticdir w).*1 ++ (new_js staticdir w).*1
              ++ about_paths kwargs ++ [contentf; index]), inner, page.
  split; [exact Hrun|]. split.
  { rewrite Hwr, !fmap_app, Haw. reflexivity. }
  split; [done|].
  pose proof (static_paths w) as Hst.
  assert (contentf <> index) as Hci.
  { apply join_ne; [simpl; lia|done|done]. }
  assert (contentf <> aindex) as Hca.
  { apply join_ne; [simpl; lia|done|done]. }
  assert (aindex <> index) as Hai by apply about_index_ne.
  assert (acontentf <> index) as Haci.
  { apply join_ne; [simpl; lia|done|done]. }
  assert (acontentf <> aindex) as Haca.
  { apply join_ne; [simpl; lia|done|done]. }
  assert (acontentf <> contentf) as Hacc by apply about_inner_ne.
  assert (posixpath.basename index = "index.html") as Hbi by by apply basename_join.
  assert (posixpath.basename aindex = "index.html") as Hba by by apply basename_join.
  assert (posixpath.basename contentf = "_inner.html") as Hbc by by apply basename_join.
  assert (posixpath.basename acontentf = "_inner.html") as Hbac by by apply basename_join.
  rewrite (app_assoc (new_css staticdir w).*1).
  set (st := (new_css staticdir w).*1 ++ (new_js staticdir w).*1) in *.
  clearbody st.
  split; [|split; [|split]].
  - rewrite !count_occ_app, count_occ_absent.
    + rewrite count_occ_cons_neq, count_occ_cons_eq by done. simpl.
      unfold about_paths. destruct (opt_config kwargs); [|done].
      fold outdir acontentf aindex. by rewrite !count_occ_cons_neq by done.
    + eapply Forall_impl; [exact Hst|]. intros p [-> | ->]; by apply ne_join.
  - rewrite !count_occ_app, count_occ_absent.
    + rewrite !count_occ_cons_neq by done. simpl.
      unfold about_paths, nested. destruct (opt_config kwargs); [|done].
      fold outdir acontentf aindex.
      by rewrite count_occ_cons_neq, count_occ_cons_eq by done.
    + eapply Forall_impl; [exact Hst|]. intros p [-> | ->]; by apply ne_join.
  - rewrite !filter_app, !length_app, filter_absent.
    + rewrite filter_cons_False by (rewrite Hbc; done).
      rewrite filter_cons_True by done. simpl.
      unfold about_paths, nested. destruct (opt_config kwargs); [|simpl; lia].
      fold outdir acontentf aindex. rewrite filter_cons_False by (rewrite Hbac; done).
      rewrite filter_cons_True by done. simpl. lia.
    + eapply Forall_impl; [exact Hst|]. intros p [-> | ->]; done.
  - assert (files w' !! index = Some (markup.str page)) as Hindex.
    { apply (wrote_lookup
               (new_css staticdir w ++ new_js staticdir w ++ aw
                ++ [(contentf, markup.str inner)]) [] index (markup.str page) w w');
        [|apply not_elem_of_nil].
      rewrite <- !app_assoc. exact Hwrote. }
    assert (files w' !! contentf = Some (markup.str inner)) as Hcontent.
    { apply (wrote_lookup (new_css staticdir w ++ new_js staticdir w ++ aw)
               [(index, markup.str page)] contentf (markup.str inner) w w').
      - rewrite <- !app_assoc. exact Hwrote.
      - simpl. rewrite not_elem_of_cons. split; [done|apply not_elem_of_nil]. }
    split; [done|]. split; [done|]. split; [done|]. split; [done|].
    split; [done|]. split; [done|]. split.
    + destruct (opt_config kwargs) as [config|]; [|done].
      destruct Habout as (ainner & apage & -> & Hain & Hadiv & Haload & Hafull).
      exists ainner, apage.
      assert (files w' !! aindex = Some (markup.str apage)) as Haindex.
      { apply (wrote_lookup
                 (new_css staticdir w ++ new_js staticdir w
                  ++ [(acontentf, markup.str ainner)])
                 [(contentf, markup.str inner); (index, markup.str page)]
                 aindex (markup.str apage) w w').
        - rewrite <- !app_assoc. exact Hwrote.
        - simpl. rewrite !not_elem_of_cons.
          split; [done|]. split; [done|]. apply not_elem_of_nil. }
      assert (files w' !! acontentf = Some (markup.str ainner)) as Hacontent.
      { apply (wrote_lookup (new_css staticdir w ++ new_js staticdir w)
                 [(aindex, markup.str apage); (contentf, markup.str inner);
                  (index, markup.str page)]
                 acontentf (markup.str ainner) w w').
        - rewrite <- !app_assoc. exact Hwrote.
        - simpl. rewrite !not_elem_of_cons.
          split; [done|]. split; [done|]. split; [done|]. apply not_elem_of_nil. }
      done.
    + split; [apply (decorated_fuel E)|].
      intros Hnone. by apply (decorated_fuel_plain E).
Qed.

End decorator_states.

Lemma config_callable_in :
  callable_in bare_env (fun _ => Ok (null_body "No significant channels" "warning"))
    "H1" "1187008882" out_config_options config_world.
Proof.
  split; [intros w0 _; by eexists|]. split; [|by eexists].
  intros w0 Hsame. unfold about_body. cbn [embed_configs].
  unfold write_config_html, open_read. cbn [popen bare_env].
  rewrite (Hsame "omega.ini").
  - by eexists.
  - apply (bool_decide_eq_false_1 (_ ∈ _)). reflexivity.
Qed.

Lemma wrap_html_one_index_witness :
  exists w' new page apage,
    write_null_page bare_env 2 "H1" "1187008882" "No significant channels" "warning"
      out_config_options config_world = (Ok "out/index.html", w')
    /\ written w' = new
    /\ count_occ string_dec new "out/index.html" = 1
    /\ count_occ string_dec new "out/about/index.html" = 1
    /\ length (filter (fun p => posixpath.basename p = "index.html") new) = 2
    /\ files w' !! "out/index.html" = Some (markup.str page)
    /\ loader "out/_inner.html" ∈ markup.content page
    /\ files w' !! "out/_inner.html" = Some alert_fragment
    /\ files w' !! "out/about/index.html" = Some (markup.str apage)
    /\ loader "out/about/_inner.html" ∈ markup.content apage.
Proof.
  destruct (wrap_html_one_index bare_env (conj (fun _ => eq_refl) (fun _ => eq_refl)) 2
              (fun _ => Ok (null_body "No significant channels" "warning"))
              "H1" "1187008882" out_config_options config_world)
    as (w' & new & inner & page & Hrun & Hwr & _ & Hone & Habout & Hnames & Hindex & _
        & _ & Hload & Hcontent & [w0 [_ Hinner]] & Hnested & _).
  - exact config_callable_in.
  - lia.
  - destruct Hnested as (ainner & apage & Haindex & _ & _ & Haload & _).
    injection Hinner as <-.
    exists w', new, page, apage.
    split; [exact Hrun|]. split; [exact Hwr|]. split; [exact Hone|].
    split; [exact Habout|]. split; [exact Hnames|]. split; [exact Hindex|].
    split; [exact Hload|]. split; [exact Hcontent|]. split; [exact Haindex|].
    exact Haload.
Defined.
